(** * file-rotatelogs: the rotation decision and the retention cleanup

    A shallow embedding of [rotatelogs.go] (package [rotatelogs]):
    [New], [Write], [getWriterNolock], [Rotate], [rotateNolock] and [Close].

    Go values are modelled as follows.
    - [int], [int64] and [time.Duration] are [Z]; the arithmetic the code
      performs on them ([generation++], [-1 * maxAge]) wraps at 64 bits.
    - [uint] is [N]; the code only compares it.
    - [string] is [string] (a sequence of bytes).
    - [time.Time] is the instant it denotes, in nanoseconds since the Unix
      epoch.
    - [error] is an inductive type that keeps the origin of every error
      value apart (operating system, standard library, [errors.New],
      [errors.Wrap]).
    - The operating system, the strftime library and the package
      [internal/fileutil] are a type class [Platform]; the code is
      verified against every instance, and [MemFS] is one instance.
    - A method of [*RotateLogs] takes the receiver and returns the
      receiver as the call leaves it; the world (file system, clocks,
      standard error, started goroutines) is threaded by a state monad. *)

From Stdlib Require Import ZArith NArith String Ascii List Lia Bool.
From Stdlib Require Import DecimalString DecimalZ DecimalPos.
Import ListNotations.

Local Open Scope string_scope.
Local Open Scope Z_scope.

(** ** Machine integers *)

Definition wrap64 (z : Z) : Z := (z + 2 ^ 63) mod 2 ^ 64 - 2 ^ 63.

Definition minInt64 : Z := - 2 ^ 63.
Definition maxInt64 : Z := 2 ^ 63 - 1.
Definition maxUint64 : Z := 2 ^ 64 - 1.

Definition int64_range (z : Z) : Prop := minInt64 <= z <= maxInt64.

(** ** Package [strings] *)

Module strings.

Definition HasSuffix (s suffix : string) : bool :=
  let n := String.length s in
  let m := String.length suffix in
  (m <=? n)%nat && String.eqb (substring (n - m) m s) suffix.

Fixpoint Contains (s substr : string) : bool :=
  String.prefix substr s
  || match s with
     | EmptyString => false
     | String _ s' => Contains s' substr
     end.

(** [lastIndexFrom s substr i acc]: [s] is the part of the string that
    starts at byte [i]; [acc] is the last match found before [i]. *)
Fixpoint lastIndexFrom (s substr : string) (i acc : Z) : Z :=
  let acc' := if String.prefix substr s then i else acc in
  match s with
  | EmptyString => acc'
  | String _ s' => lastIndexFrom s' substr (i + 1) acc'
  end.

Definition LastIndex (s substr : string) : Z := lastIndexFrom s substr 0 (-1).

(** The slice expression [s[i:]]. *)
Definition sliceFrom (s : string) (i : Z) : string :=
  substring (Z.to_nat i) (String.length s - Z.to_nat i) s.

End strings.

(** ** Package [strconv] *)

Module strconv.

Inductive numError := ErrSyntax | ErrRange.

(** The digit loop of [ParseUint(s, 10, 64)]. *)
Fixpoint parseUintLoop (s : string) (n : Z) : numError + Z :=
  match s with
  | EmptyString => inr n
  | String c rest =>
      let d := Z.of_nat (nat_of_ascii c) - 48 in
      if (d <? 0) || (9 <? d) then inl ErrSyntax
      else if maxUint64 / 10 + 1 <=? n then inl ErrRange
      else
        let n1 := n * 10 + d in
        if maxUint64 <? n1 then inl ErrRange else parseUintLoop rest n1
  end.

Definition ParseUint (s : string) : numError + Z :=
  match s with
  | EmptyString => inl ErrSyntax
  | _ => parseUintLoop s 0
  end.

(** [Atoi] returns a value also when it reports an error: 0 after a
    syntax error, the nearest bound after a range error. *)
Definition Atoi (s : string) : Z * option numError :=
  let '(neg, digits) :=
    match s with
    | String "+" rest => (false, rest)
    | String "-" rest => (true, rest)
    | _ => (false, s)
    end in
  match ParseUint digits with
  | inl ErrSyntax => (0, Some ErrSyntax)
  | inl ErrRange => (if neg then minInt64 else maxInt64, Some ErrRange)
  | inr un =>
      if neg then
        if 2 ^ 63 <? un then (minInt64, Some ErrRange) else (- un, None)
      else
        if 2 ^ 63 <=? un then (maxInt64, Some ErrRange) else (un, None)
  end.

(** The verb [%d] of [fmt.Sprintf]. *)
Definition FormatInt (z : Z) : string := NilZero.string_of_int (Z.to_int z).

End strconv.

(** ** Package [time] *)

Module time.

Definition Time := Z.
Definition Duration := Z.

Definition Second : Duration := 1000000000.
Definition Hour : Duration := 3600 * Second.

Definition Add (t : Time) (d : Duration) : Time := t + d.
Definition After (t u : Time) : bool := u <? t.
Definition Unix (t : Time) : Z := t / Second.

End time.

(** ** Errors *)

Inductive Errno :=
| EEXIST | ENOENT | EACCES | ENOTDIR | EISDIR | EINVAL | ELOOP | EBADF
| EOTHER (code : Z).

Inductive error :=
| PathError (op path : string) (errno : Errno)      (* *os.PathError, *os.LinkError *)
| ErrBadPattern                                     (* filepath.ErrBadPattern *)
| ErrInvalid                                        (* os.ErrInvalid *)
| LibError (pkg msg : string)                       (* strftime, filepath.Rel *)
| errors_New (msg : string)
| errors_Wrap (cause : error) (msg : string).

(** [errors.Cause]. *)
Fixpoint errors_Cause (e : error) : error :=
  match e with
  | errors_Wrap cause _ => errors_Cause cause
  | _ => e
  end.

Definition errBothSet : error :=
  errors_New "options MaxAge and RotationCount cannot be both set".

Definition errPanicBothUnset : error :=
  errors_New "panic: maxAge and rotationCount are both set".

(** ** File metadata *)

Record FileInfo := mkFileInfo {
  Size : Z;
  ModTime : time.Time;
  Mode : Z
}.

Definition ModeSymlink : Z := Z.shiftl 1 27.

(** [*os.File]: the descriptor number. *)
Definition File := nat.

Definition Handler := nat.

Record FileRotatedEvent := mkEvent {
  prev : string;
  current : string
}.

Inductive result (A : Type) :=
| Ok (a : A)
| Err (e : error).
Arguments Ok {A} a.
Arguments Err {A} e.

(** ** The platform

    Everything the package calls and does not define: the operating
    system ([os], [path/filepath]), [github.com/lestrrat-go/strftime], and
    the package [internal/fileutil] of this repository, whose two
    functions [GenerateFn] and [CreateFile] are used through their
    signatures only.  A file-system operation maps the state of the file
    system to its result and the state it leaves. *)

Class Platform := {
  FSt : Type;
  Strftime : Type;
  strftime_New : string -> string + Strftime;
  (** [fileutil.GenerateFn pattern clock rotationTime], given the value
      its one call of [clock.Now()] returned. *)
  fileutil_GenerateFn : Strftime -> time.Time -> time.Duration -> string;
  (** [fileutil.CreateFile]: create or open for appending, creating the
      parent directories. *)
  fileutil_CreateFile : string -> FSt -> (Errno + File) * FSt;
  filepath_Glob : string -> FSt -> option (list string);
  filepath_Dir : string -> string;
  filepath_Rel : string -> string -> string + string;
  os_Stat : string -> FSt -> Errno + FileInfo;
  os_Lstat : string -> FSt -> Errno + FileInfo;
  (** [os.OpenFile name (O_CREATE|O_EXCL) 0644]. *)
  os_OpenFile_excl : string -> FSt -> (Errno + File) * FSt;
  os_Symlink : string -> string -> FSt -> option Errno * FSt;
  os_MkdirAll : string -> FSt -> option Errno * FSt;
  os_Rename : string -> string -> FSt -> option Errno * FSt;
  os_Remove : string -> FSt -> option Errno * FSt;
  file_Close : File -> FSt -> option Errno * FSt;
  file_Write : File -> string -> FSt -> (Z * option Errno) * FSt
}.

(** ** Clocks *)

Inductive Clock :=
| Local                                   (* clockFn(time.Now) *)
| UTC                                     (* time.Now().UTC() *)
| UserClock (reads : nat -> time.Time).   (* the k-th call of Now() *)

(** ** Options *)

Inductive Option :=
| WithClock (c : Clock)
| WithLinkName (s : string)
| WithMaxAge (d : time.Duration)
| WithRotationTime (d : time.Duration)
| WithRotationSize (s : Z)
| WithRotationCount (n : N)
| WithHandler (h : Handler)
| ForceNewFile
| OtherOption (name : string).

(** The variables [New] declares before its loop over the options. *)
Record newVars := mkNewVars {
  v_clock : Clock;
  v_rotationTime : time.Duration;
  v_rotationSize : Z;
  v_rotationCount : N;
  v_linkName : string;
  v_maxAge : time.Duration;
  v_handler : option Handler;
  v_forceNewFile : bool
}.

Definition newVars0 : newVars :=
  {| v_clock := Local;
     v_rotationTime := 24 * time.Hour;
     v_rotationSize := 0;
     v_rotationCount := 0%N;
     v_linkName := "";
     v_maxAge := 0;
     v_handler := None;
     v_forceNewFile := false |}.

(** One turn of the loop [for _, o := range options]. *)
Definition applyOption (v : newVars) (o : Option) : newVars :=
  match o with
  | WithClock c =>
      mkNewVars c (v_rotationTime v) (v_rotationSize v) (v_rotationCount v)
        (v_linkName v) (v_maxAge v) (v_handler v) (v_forceNewFile v)
  | WithLinkName s =>
      mkNewVars (v_clock v) (v_rotationTime v) (v_rotationSize v)
        (v_rotationCount v) s (v_maxAge v) (v_handler v) (v_forceNewFile v)
  | WithMaxAge d =>
      let maxAge := if d <? 0 then 0 else d in
      mkNewVars (v_clock v) (v_rotationTime v) (v_rotationSize v)
        (v_rotationCount v) (v_linkName v) maxAge (v_handler v)
        (v_forceNewFile v)
  | WithRotationTime d =>
      let rotationTime := if d <? 0 then 0 else d in
      mkNewVars (v_clock v) rotationTime (v_rotationSize v)
        (v_rotationCount v) (v_linkName v) (v_maxAge v) (v_handler v)
        (v_forceNewFile v)
  | WithRotationSize s =>
      let rotationSize := if s <? 0 then 0 else s in
      mkNewVars (v_clock v) (v_rotationTime v) rotationSize
        (v_rotationCount v) (v_linkName v) (v_maxAge v) (v_handler v)
        (v_forceNewFile v)
  | WithRotationCount n =>
      mkNewVars (v_clock v) (v_rotationTime v) (v_rotationSize v) n
        (v_linkName v) (v_maxAge v) (v_handler v) (v_forceNewFile v)
  | WithHandler h =>
      mkNewVars (v_clock v) (v_rotationTime v) (v_rotationSize v)
        (v_rotationCount v) (v_linkName v) (v_maxAge v) (Some h)
        (v_forceNewFile v)
  | ForceNewFile =>
      mkNewVars (v_clock v) (v_rotationTime v) (v_rotationSize v)
        (v_rotationCount v) (v_linkName v) (v_maxAge v) (v_handler v) true
  | OtherOption _ => v
  end.

Definition applyOptions (options : list Option) : newVars :=
  fold_left applyOption options newVars0.

(** ** [patternConversionRegexps] *)

Definition isConversionChar (c : ascii) : bool :=
  let n := nat_of_ascii c in
  (n =? 37)%nat || (n =? 43)%nat
  || ((65 <=? n)%nat && (n <=? 90)%nat)
  || ((97 <=? n)%nat && (n <=? 122)%nat).

(** [regexp.MustCompile(`%[%+A-Za-z]`).ReplaceAllString(s, "*")]. *)
Fixpoint replaceConversions (s : string) : string :=
  match s with
  | String "%" (String c rest as tl) =>
      if isConversionChar c then String "*" (replaceConversions rest)
      else String "%" (replaceConversions tl)
  | String a rest => String a (replaceConversions rest)
  | EmptyString => EmptyString
  end.

(** [regexp.MustCompile(`\*+`).ReplaceAllString(s, "*")]. *)
Fixpoint collapseStars (s : string) : string :=
  match s with
  | String "*" (String "*" _ as tl) => collapseStars tl
  | String a rest => String a (collapseStars rest)
  | EmptyString => EmptyString
  end.

Definition patternConversionRegexps : list (string -> string) :=
  [replaceConversions; collapseStars].

Section Rotatelogs.

Context {P : Platform}.

(** ** [RotateLogs] *)

Record RotateLogs := mkRotateLogs {
  clock : Clock;
  curBaseFn : string;
  curFn : string;
  globPattern : string;
  generation : Z;
  linkName : string;
  maxAge : time.Duration;
  eventHandler : option Handler;
  outFh : option File;
  pattern : Strftime;
  rotationTime : time.Duration;
  rotationSize : Z;
  rotationCount : N;
  forceNewFile : bool
}.

Definition New (p : string) (options : list Option) : result RotateLogs :=
  let globPattern :=
    fold_left (fun g re => re g) patternConversionRegexps p in
  match strftime_New p with
  | inl msg =>
      Err (errors_Wrap (LibError "strftime" msg) "invalid strftime pattern")
  | inr pattern =>
      let v := applyOptions options in
      if (0 <? v_maxAge v) && (0 <? v_rotationCount v)%N then Err errBothSet
      else
        let maxAge :=
          if (v_maxAge v =? 0) && (v_rotationCount v =? 0)%N
          then 7 * 24 * time.Hour
          else v_maxAge v in
        Ok {| clock := v_clock v;
              curBaseFn := "";
              curFn := "";
              globPattern := globPattern;
              generation := 0;
              linkName := v_linkName v;
              maxAge := maxAge;
              eventHandler := v_handler v;
              outFh := None;
              pattern := pattern;
              rotationTime := v_rotationTime v;
              rotationSize := v_rotationSize v;
              rotationCount := v_rotationCount v;
              forceNewFile := v_forceNewFile v |}
  end.

(** ** The world *)

Inductive Syscall :=
| SysStat (name : string)
| SysLstat (name : string)
| SysGlob (pat : string)
| SysOpenExcl (name : string)
| SysCreateFile (name : string)
| SysSymlink (oldname newname : string)
| SysMkdirAll (path : string)
| SysRename (oldpath newpath : string)
| SysRemove (name : string)
| SysClose (f : File)
| SysWrite (f : File).

(** What a [go] statement starts; it runs detached from the call. *)
Inductive Goroutine :=
| GoRemove (name : string)
| GoHandle (h : Handler) (ev : FileRotatedEvent).

Record World := mkWorld {
  fs : FSt;
  trace : list Syscall;          (* file-system calls issued, oldest first *)
  stderr : list error;           (* errors printed to os.Stderr *)
  goroutines : list Goroutine;   (* goroutines started, oldest first *)
  wall : nat -> time.Time;       (* the k-th value of time.Now() *)
  wallReads : nat;
  clockReads : nat               (* calls of Now() on a user clock *)
}.

Definition M (A : Type) : Type := World -> A * World.

Definition ret {A : Type} (a : A) : M A := fun w => (a, w).

Definition bind {A B : Type} (m : M A) (k : A -> M B) : M B :=
  fun w => let r := m w in k (fst r) (snd r).

Notation "x <- m ;; k" := (bind m (fun x => k))
  (at level 61, m at next level, right associativity).
Notation "m ;;; k" := (bind m (fun _ => k))
  (at level 61, right associativity).

(** A file-system call: logged, then run on the file system. *)
Definition sys {A : Type} (call : Syscall) (op : FSt -> A * FSt) : M A :=
  fun w =>
    let r := op (fs w) in
    (fst r,
     mkWorld (snd r) (trace w ++ [call]) (stderr w) (goroutines w)
       (wall w) (wallReads w) (clockReads w)).

Definition time_Now : M time.Time :=
  fun w =>
    (wall w (wallReads w),
     mkWorld (fs w) (trace w) (stderr w) (goroutines w)
       (wall w) (S (wallReads w)) (clockReads w)).

Definition clock_Now (c : Clock) : M time.Time :=
  match c with
  | Local | UTC => time_Now
  | UserClock reads =>
      fun w =>
        (reads (clockReads w),
         mkWorld (fs w) (trace w) (stderr w) (goroutines w)
           (wall w) (wallReads w) (S (clockReads w)))
  end.

Definition go (g : Goroutine) : M unit :=
  fun w =>
    (tt,
     mkWorld (fs w) (trace w) (stderr w) (goroutines w ++ [g])
       (wall w) (wallReads w) (clockReads w)).

(** [fmt.Fprintf] of [err.Error()] to [os.Stderr]. *)
Definition Fprintf_Stderr (err : error) : M unit :=
  fun w =>
    (tt,
     mkWorld (fs w) (trace w) (stderr w ++ [err]) (goroutines w)
       (wall w) (wallReads w) (clockReads w)).

Definition pathResult {A : Type} (op name : string) (r : Errno + A)
  : result A :=
  match r with
  | inl errno => Err (PathError op name errno)
  | inr a => Ok a
  end.

Definition pathError (op name : string) (r : option Errno) : option error :=
  match r with
  | Some errno => Some (PathError op name errno)
  | None => None
  end.

Definition Stat (name : string) : M (result FileInfo) :=
  sys (SysStat name) (fun s => (pathResult "stat" name (os_Stat name s), s)).

Definition Lstat (name : string) : M (result FileInfo) :=
  sys (SysLstat name)
    (fun s => (pathResult "lstat" name (os_Lstat name s), s)).

Definition Glob (pat : string) : M (result (list string)) :=
  sys (SysGlob pat)
    (fun s =>
       (match filepath_Glob pat s with
        | Some matches => Ok matches
        | None => Err ErrBadPattern
        end, s)).

Definition OpenFile_excl (name : string) : M (result File) :=
  sys (SysOpenExcl name)
    (fun s =>
       let r := os_OpenFile_excl name s in
       (pathResult "open" name (fst r), snd r)).

Definition CreateFile (name : string) : M (result File) :=
  sys (SysCreateFile name)
    (fun s =>
       let r := fileutil_CreateFile name s in
       (pathResult "open" name (fst r), snd r)).

Definition Symlink (oldname newname : string) : M (option error) :=
  sys (SysSymlink oldname newname)
    (fun s =>
       let r := os_Symlink oldname newname s in
       (pathError "symlink" newname (fst r), snd r)).

Definition MkdirAll (path : string) : M (option error) :=
  sys (SysMkdirAll path)
    (fun s =>
       let r := os_MkdirAll path s in
       (pathError "mkdir" path (fst r), snd r)).

Definition Rename (oldpath newpath : string) : M (option error) :=
  sys (SysRename oldpath newpath)
    (fun s =>
       let r := os_Rename oldpath newpath s in
       (pathError "rename" newpath (fst r), snd r)).

Definition Remove (name : string) : M (option error) :=
  sys (SysRemove name)
    (fun s =>
       let r := os_Remove name s in
       (pathError "remove" name (fst r), snd r)).

(** [Close] of [os.File]; on a nil receiver it returns [os.ErrInvalid]. *)
Definition Close_File (f : option File) : M (option error) :=
  match f with
  | None => ret (Some ErrInvalid)
  | Some fh =>
      sys (SysClose fh)
        (fun s =>
           let r := file_Close fh s in
           (pathError "close" "" (fst r), snd r))
  end.

(** [Write] of [os.File]. *)
Definition Write_File (f : option File) (p : string)
  : M (Z * option error) :=
  match f with
  | None => ret (0, Some ErrInvalid)
  | Some fh =>
      sys (SysWrite fh)
        (fun s =>
           let r := file_Write fh p s in
           ((fst (fst r), pathError "write" "" (snd (fst r))), snd r))
  end.

(** ** [rotateNolock] *)

(** The symlink step, [if rl.linkName != ""]; its result is the error
    the function returns from inside it, if any.  The message of the
    first error stands without its two quoted arguments. *)
Definition installSymlink (rl : RotateLogs) (filename : string)
  : M (option error) :=
  let tmpLinkName := filename ++ "_symlink" in
  let linkDir := filepath_Dir (linkName rl) in
  let baseDir := filepath_Dir filename in
  let rel :=
    if strings.Contains (linkName rl) baseDir
    then filepath_Rel linkDir filename
    else inr filename in
  match rel with
  | inl msg =>
      ret (Some (errors_Wrap (LibError "filepath" msg)
                   "failed to evaluate relative path"))
  | inr linkDest =>
      e1 <- Symlink linkDest tmpLinkName ;;
      match e1 with
      | Some err => ret (Some (errors_Wrap err "failed to create new symlink"))
      | None =>
          st <- Stat linkDir ;;
          e2 <- match st with
                | Err _ => MkdirAll linkDir
                | Ok _ => ret None
                end ;;
          match e2 with
          | Some err =>
              ret (Some (errors_Wrap err ("failed to create directory " ++ linkDir)))
          | None =>
              e3 <- Rename tmpLinkName (linkName rl) ;;
              match e3 with
              | Some err =>
                  ret (Some (errors_Wrap err "failed to rename new symlink"))
              | None => ret None
              end
          end
      end
  end.

(** The first loop over [matches]: what goes into [toUnlink]. *)
Fixpoint collectToUnlink (rl : RotateLogs) (cutoff : time.Time)
    (matches toUnlink : list string) : M (list string) :=
  match matches with
  | [] => ret toUnlink
  | path :: rest =>
      if strings.HasSuffix path "_lock" || strings.HasSuffix path "_symlink"
      then collectToUnlink rl cutoff rest toUnlink
      else
        st <- Stat path ;;
        match st with
        | Err _ => collectToUnlink rl cutoff rest toUnlink
        | Ok fi =>
            lst <- Lstat path ;;
            match lst with
            | Err _ => collectToUnlink rl cutoff rest toUnlink
            | Ok fl =>
                if (0 <? maxAge rl) && time.After (ModTime fi) cutoff
                then collectToUnlink rl cutoff rest toUnlink
                else if (0 <? rotationCount rl)%N
                        && (Z.land (Mode fl) ModeSymlink =? ModeSymlink)
                then collectToUnlink rl cutoff rest toUnlink
                else collectToUnlink rl cutoff rest (toUnlink ++ [path])
            end
        end
  end.

(** The second loop, over [toUnlink]: the oldest file. *)
Fixpoint oldestLoop (toUnlink : list string) (minFileTime : Z)
    (toUnlinkfile : string) : M string :=
  match toUnlink with
  | [] => ret toUnlinkfile
  | path :: rest =>
      st <- Stat path ;;
      match st with
      | Err _ => oldestLoop rest minFileTime toUnlinkfile
      | Ok fi =>
          let mtime := time.Unix (ModTime fi) in
          if mtime <? minFileTime
          then oldestLoop rest mtime path
          else oldestLoop rest minFileTime toUnlinkfile
      end
  end.

(** From [if rl.maxAge <= 0 && rl.rotationCount <= 0] to the end. *)
Definition purge (rl : RotateLogs) : M (option error) :=
  if (maxAge rl <=? 0) && (rotationCount rl <=? 0)%N
  then ret (Some errPanicBothUnset)
  else
    m <- Glob (globPattern rl) ;;
    match m with
    | Err err => ret (Some err)
    | Ok matches =>
        now <- clock_Now (clock rl) ;;
        let cutoff := time.Add now (wrap64 (-1 * maxAge rl)) in
        toUnlink <- collectToUnlink rl cutoff matches [] ;;
        (* [None]: the function returned nil inside the block *)
        sel <- (if (0 <? rotationCount rl)%N then
                  if (N.of_nat (List.length toUnlink) <=? rotationCount rl)%N
                  then ret None
                  else
                    t <- time_Now ;;
                    f <- oldestLoop toUnlink (time.Unix t) "" ;;
                    ret (Some f)
                else ret (Some "")) ;;
        match sel with
        | None => ret None
        | Some toUnlinkfile =>
            (* guard.Enable() sets a flag that nothing reads *)
            go (GoRemove toUnlinkfile) ;;; ret None
        end
    end.

Definition rotateNolock (rl : RotateLogs) (filename : string)
  : M (option error) :=
  let lockfn := filename ++ "_lock" in
  l <- OpenFile_excl lockfn ;;
  match l with
  | Err err => ret (Some err)
  | Ok fh =>
      r <- (e <- (if String.eqb (linkName rl) "" then ret None
                  else installSymlink rl filename) ;;
            match e with
            | Some err => ret (Some err)
            | None => purge rl
            end) ;;
      (* defer guard.Run() *)
      Close_File (Some fh) ;;;
      Remove lockfn ;;;
      ret r
  end.

(** ** [getWriterNolock] *)

(** The scan of the first acquisition, [for _, path := range matches]. *)
Fixpoint scanLoop (matches : list string) (generation maxFileTime : Z)
  : M (Z * Z) :=
  match matches with
  | [] => ret (generation, maxFileTime)
  | path :: rest =>
      if negb (strings.Contains path "rotation")
      then scanLoop rest 0 maxFileTime
      else
        st <- Stat path ;;
        match st with
        | Err _ => scanLoop rest generation maxFileTime
        | Ok fi =>
            let mtime := time.Unix (ModTime fi) in
            if maxFileTime <=? mtime then
              let idx := strings.LastIndex path "." in
              let generationStr := strings.sliceFrom path (idx + 1) in
              scanLoop rest (fst (strconv.Atoi generationStr)) mtime
            else scanLoop rest generation maxFileTime
        end
  end.

(** The name tried for a generation. *)
Definition generationName (filename : string) (generation : Z) : string :=
  if generation =? 0 then filename
  else filename ++ ".rotation." ++ strconv.FormatInt generation.

(** The loop [for { ... generation++ }]; [None] when [fuel] turns did not
    reach the [break]. *)
Fixpoint probeLoop (fuel : nat) (rl : RotateLogs) (filename : string)
    (generation : Z) : M (option (string * Z)) :=
  match fuel with
  | O => ret None
  | S fuel' =>
      let name := generationName filename generation in
      st <- Stat name ;;
      if match st with
         | Err _ => true
         | Ok tmpfi => Size tmpfi <? rotationSize rl
         end
      then ret (Some (name, generation))
      else probeLoop fuel' rl filename (wrap64 (generation + 1))
  end.

(** Where the lines before [fileutil.CreateFile] leave the function. *)
Inductive Decision :=
| Reuse                                              (* return rl.outFh, nil *)
| GlobFailed (err : error)
| Target (baseFn filename : string) (generation : Z).

(** [if forceNewFile { ... }]. *)
Definition resolveName (fuel : nat) (rl : RotateLogs) (forceNewFile : bool)
    (baseFn : string) (generation : Z) : M (option Decision) :=
  if forceNewFile then
    r <- probeLoop fuel rl baseFn generation ;;
    match r with
    | None => ret None
    | Some (filename, generation') =>
        ret (Some (Target baseFn filename generation'))
    end
  else ret (Some (Target baseFn baseFn generation)).

Definition sizeRotationOf (rl : RotateLogs) (st : result FileInfo) : bool :=
  match st with
  | Ok fi => (0 <? rotationSize rl) && (rotationSize rl <=? Size fi)
  | Err _ => false
  end.

Definition decide (fuel : nat) (rl : RotateLogs)
    (useGenerationalNames : bool) : M (option Decision) :=
  let generation := generation rl in
  now <- clock_Now (clock rl) ;;
  let baseFn := fileutil_GenerateFn (pattern rl) now (rotationTime rl) in
  st <- Stat (curFn rl) ;;
  let sizeRotation := sizeRotationOf rl st in
  if negb (String.eqb baseFn (curBaseFn rl)) then
    if String.eqb (curBaseFn rl) "" then
      m <- Glob (globPattern rl) ;;
      match m with
      | Err err =>
          ret (Some (GlobFailed
                       (errors_Wrap err
                          ("failed to glob directory " ++ globPattern rl))))
      | Ok matches =>
          r <- scanLoop matches generation 0 ;;
          resolveName fuel rl true baseFn (fst r)
      end
    else resolveName fuel rl true baseFn 0
  else
    if negb useGenerationalNames && negb sizeRotation then ret (Some Reuse)
    else resolveName fuel rl true baseFn (wrap64 (generation + 1)).

(** From [fileutil.CreateFile(filename)] to the end. *)
Definition openAndAdopt (rl : RotateLogs) (bailOnRotateFail : bool)
    (previousFn baseFn filename : string) (generation : Z)
  : M (RotateLogs * result (option File)) :=
  c <- CreateFile filename ;;
  match c with
  | Err err =>
      ret (rl, Err (errors_Wrap err ("failed to create a new file " ++ filename)))
  | Ok fh =>
      rot <- rotateNolock rl filename ;;
      bailed <- match rot with
                | Some err0 =>
                    let err := errors_Wrap err0 "failed to rotate" in
                    if bailOnRotateFail
                    then Close_File (Some fh) ;;; ret (Some err)
                    else Fprintf_Stderr err ;;; ret None
                | None => ret None
                end ;;
      match bailed with
      | Some err => ret (rl, Err err)
      | None =>
          Close_File (outFh rl) ;;;
          let rl' :=
            mkRotateLogs (clock rl) baseFn filename (globPattern rl)
              generation (linkName rl) (maxAge rl) (eventHandler rl)
              (Some fh) (pattern rl) (rotationTime rl) (rotationSize rl)
              (rotationCount rl) (forceNewFile rl) in
          match eventHandler rl with
          | Some h => go (GoHandle h (mkEvent previousFn filename))
          | None => ret tt
          end ;;;
          ret (rl', Ok (Some fh))
      end
  end.

Definition getWriterNolock (fuel : nat) (rl : RotateLogs)
    (bailOnRotateFail useGenerationalNames : bool)
  : M (option (RotateLogs * result (option File))) :=
  let previousFn := curFn rl in
  d <- decide fuel rl useGenerationalNames ;;
  match d with
  | None => ret None
  | Some Reuse => ret (Some (rl, Ok (outFh rl)))
  | Some (GlobFailed err) => ret (Some (rl, Err err))
  | Some (Target baseFn filename generation) =>
      r <- openAndAdopt rl bailOnRotateFail previousFn baseFn filename
             generation ;;
      ret (Some r)
  end.

(** ** [Write], [Rotate], [Close] *)

Definition Write (fuel : nat) (rl : RotateLogs) (p : string)
  : M (option (RotateLogs * (Z * option error))) :=
  r <- getWriterNolock fuel rl false false ;;
  match r with
  | None => ret None
  | Some (rl', Err err) =>
      ret (Some (rl',
                 (0, Some (errors_Wrap err "failed to acquite target io.Writer"))))
  | Some (rl', Ok out) =>
      n <- Write_File out p ;;
      ret (Some (rl', n))
  end.

Definition Rotate (fuel : nat) (rl : RotateLogs)
  : M (option (RotateLogs * option error)) :=
  r <- getWriterNolock fuel rl true true ;;
  match r with
  | None => ret None
  | Some (rl', Err err) => ret (Some (rl', Some err))
  | Some (rl', Ok _) => ret (Some (rl', None))
  end.

Definition Close (rl : RotateLogs) : M (RotateLogs * option error) :=
  match outFh rl with
  | None => ret (rl, None)
  | Some fh =>
      Close_File (Some fh) ;;;
      ret (mkRotateLogs (clock rl) (curBaseFn rl) (curFn rl) (globPattern rl)
             (generation rl) (linkName rl) (maxAge rl) (eventHandler rl)
             None (pattern rl) (rotationTime rl) (rotationSize rl)
             (rotationCount rl) (forceNewFile rl),
           None)
  end.

Definition CurrentFileName (rl : RotateLogs) : string := curFn rl.

End Rotatelogs.

Notation "x <- m ;; k" := (bind m (fun x => k))
  (at level 61, m at next level, right associativity).
Notation "m ;;; k" := (bind m (fun _ => k))
  (at level 61, right associativity).

(** ** An instance of the platform: a file system in memory

    A flat name space of regular files, symbolic links and directories,
    kept sorted by name, as [filepath.Glob] lists a directory.  The
    strftime of this instance knows the one conversion [%s], the seconds
    since the epoch, and [%%]. *)

Module MemFS.

Inductive Node :=
| Regular (size : Z) (mtime : time.Time)
| Link (target : string) (mtime : time.Time)
| Directory (mtime : time.Time).

Record State := mkState {
  entries : list (string * Node);
  opened : list (File * string);
  nextFd : File;
  stamp : time.Time            (* the mtime given to what is created *)
}.

Fixpoint lookup (name : string) (l : list (string * Node)) : option Node :=
  match l with
  | [] => None
  | (k, n) :: rest => if String.eqb k name then Some n else lookup name rest
  end.

Fixpoint delete (name : string) (l : list (string * Node))
  : list (string * Node) :=
  match l with
  | [] => []
  | (k, n) :: rest =>
      if String.eqb k name then delete name rest
      else (k, n) :: delete name rest
  end.

Fixpoint insertSorted (name : string) (n : Node) (l : list (string * Node))
  : list (string * Node) :=
  match l with
  | [] => [(name, n)]
  | (k, m) :: rest =>
      if String.leb name k then (name, n) :: l
      else (k, m) :: insertSorted name n rest
  end.

Definition put (name : string) (n : Node) (l : list (string * Node))
  : list (string * Node) :=
  insertSorted name n (delete name l).

Definition ModeDir : Z := Z.shiftl 1 31.

Definition infoOf (n : Node) : FileInfo :=
  match n with
  | Regular size mtime => mkFileInfo size mtime 420
  | Link target mtime =>
      mkFileInfo (Z.of_nat (String.length target)) mtime
        (Z.lor ModeSymlink 511)
  | Directory mtime => mkFileInfo 4096 mtime (Z.lor ModeDir 493)
  end.

Definition lstat (name : string) (s : State) : Errno + FileInfo :=
  match lookup name (entries s) with
  | Some n => inr (infoOf n)
  | None => inl ENOENT
  end.

Fixpoint statFollow (hops : nat) (name : string) (l : list (string * Node))
  : Errno + FileInfo :=
  match lookup name l with
  | None => inl ENOENT
  | Some (Link target _) =>
      match hops with
      | O => inl ELOOP
      | S hops' => statFollow hops' target l
      end
  | Some n => inr (infoOf n)
  end.

Definition stat (name : string) (s : State) : Errno + FileInfo :=
  statFollow 40 name (entries s).

(** [*] stands for any run of bytes other than the separator. *)
Fixpoint matchPattern (pat name : string) : bool :=
  match pat with
  | EmptyString =>
      match name with EmptyString => true | _ => false end
  | String "*" pat' =>
      (fix try (n : string) : bool :=
         matchPattern pat' n
         || match n with
            | EmptyString => false
            | String c n' => if Ascii.eqb c "/" then false else try n'
            end) name
  | String c pat' =>
      match name with
      | String d name' => Ascii.eqb c d && matchPattern pat' name'
      | EmptyString => false
      end
  end.

(** This instance rejects every pattern with a class, [[...]], also
    the well-formed ones the library accepts. *)
Definition glob (pat : string) (s : State) : option (list string) :=
  if strings.Contains pat "["
  then None
  else Some (map fst (filter (fun e => matchPattern pat (fst e)) (entries s))).

Definition openFd (name : string) (s : State) (l : list (string * Node))
  : (Errno + File) * State :=
  (inr (nextFd s),
   mkState l ((nextFd s, name) :: opened s) (S (nextFd s)) (stamp s)).

Definition openExcl (name : string) (s : State) : (Errno + File) * State :=
  match lookup name (entries s) with
  | Some _ => (inl EEXIST, s)
  | None => openFd name s (put name (Regular 0 (stamp s)) (entries s))
  end.

Definition createFile (name : string) (s : State) : (Errno + File) * State :=
  match name with
  | EmptyString => (inl ENOENT, s)
  | _ =>
      match lookup name (entries s) with
      | Some (Directory _) => (inl EISDIR, s)
      | Some _ => openFd name s (entries s)
      | None => openFd name s (put name (Regular 0 (stamp s)) (entries s))
      end
  end.

Definition symlink (oldname newname : string) (s : State)
  : option Errno * State :=
  match lookup newname (entries s) with
  | Some _ => (Some EEXIST, s)
  | None =>
      (None,
       mkState (put newname (Link oldname (stamp s)) (entries s))
         (opened s) (nextFd s) (stamp s))
  end.

Definition mkdirAll (path : string) (s : State) : option Errno * State :=
  match lookup path (entries s) with
  | Some (Directory _) => (None, s)
  | Some _ => (Some ENOTDIR, s)
  | None =>
      (None,
       mkState (put path (Directory (stamp s)) (entries s))
         (opened s) (nextFd s) (stamp s))
  end.

Definition rename (oldpath newpath : string) (s : State)
  : option Errno * State :=
  match lookup oldpath (entries s) with
  | None => (Some ENOENT, s)
  | Some n =>
      (None,
       mkState (put newpath n (delete oldpath (entries s)))
         (opened s) (nextFd s) (stamp s))
  end.

Definition remove (name : string) (s : State) : option Errno * State :=
  match lookup name (entries s) with
  | None => (Some ENOENT, s)
  | Some _ =>
      (None,
       mkState (delete name (entries s)) (opened s) (nextFd s) (stamp s))
  end.

Fixpoint fdName (f : File) (l : list (File * string)) : option string :=
  match l with
  | [] => None
  | (g, name) :: rest => if Nat.eqb f g then Some name else fdName f rest
  end.

Definition close (f : File) (s : State) : option Errno * State :=
  match fdName f (opened s) with
  | None => (Some EBADF, s)
  | Some _ =>
      (None,
       mkState (entries s)
         (filter (fun e => negb (Nat.eqb (fst e) f)) (opened s))
         (nextFd s) (stamp s))
  end.

Definition write (f : File) (p : string) (s : State)
  : (Z * option Errno) * State :=
  match fdName f (opened s) with
  | None => ((0, Some EBADF), s)
  | Some name =>
      let n := Z.of_nat (String.length p) in
      match lookup name (entries s) with
      | Some (Regular size _) =>
          ((n, None),
           mkState (put name (Regular (size + n) (stamp s)) (entries s))
             (opened s) (nextFd s) (stamp s))
      | _ => ((n, None), s)
      end
  end.

(** The part of [s] before its last separator. *)
Definition dir (s : string) : string :=
  let i := strings.LastIndex s "/" in
  if i <? 0 then "."
  else if i =? 0 then "/"
  else substring 0 (Z.to_nat i) s.

(** [filepath.Rel] for a target under the base; where the library
    would climb out of the base with [..], this instance gives up with
    an error. *)
Definition rel (basepath targpath : string) : string + string :=
  let pre := basepath ++ "/" in
  if String.eqb basepath "." then inr targpath
  else if String.prefix pre targpath
  then inr (strings.sliceFrom targpath (Z.of_nat (String.length pre)))
  else inl "Rel: can't make the target relative to the base".

(** The patterns of this instance have two conversions of their own:
    [%s], the seconds since the epoch, and [%%].  They stand for the
    conversions of the library, which has others and not [%s]. *)
Fixpoint wellFormed (p : string) : bool :=
  match p with
  | String "%" (String c rest) =>
      (Ascii.eqb c "s" || Ascii.eqb c "%") && wellFormed rest
  | String "%" EmptyString => false
  | String _ rest => wellFormed rest
  | EmptyString => true
  end.

Definition strftimeNew (p : string) : string + string :=
  if wellFormed p then inr p
  else inl "failed to compile pattern: unknown specification".

Fixpoint format (p : string) (seconds : Z) : string :=
  match p with
  | String "%" (String c rest) =>
      (if Ascii.eqb c "s" then strconv.FormatInt seconds else "%")
        ++ format rest seconds
  | String a rest => String a (format rest seconds)
  | EmptyString => EmptyString
  end.

Definition generateFn (p : string) (now : time.Time)
    (rotationTime : time.Duration) : string :=
  let base := if rotationTime <=? 0 then now
              else now - now mod rotationTime in
  format p (time.Unix base).

Definition platform : Platform :=
  {| FSt := State;
     Strftime := string;
     strftime_New := strftimeNew;
     fileutil_GenerateFn := generateFn;
     fileutil_CreateFile := createFile;
     filepath_Glob := glob;
     filepath_Dir := dir;
     filepath_Rel := rel;
     os_Stat := stat;
     os_Lstat := lstat;
     os_OpenFile_excl := openExcl;
     os_Symlink := symlink;
     os_MkdirAll := mkdirAll;
     os_Rename := rename;
     os_Remove := remove;
     file_Close := close;
     file_Write := write |}.

(** A world over this file system whose clocks stand still at [now]. *)
Definition world (files : list (string * Node)) (now : time.Time)
  : World (P := platform) :=
  mkWorld (P := platform) (mkState files [] 3%nat now) [] [] []
    (fun _ => now) 0%nat 0%nat.

(** The detached goroutines, run one after the other; a handler does
    nothing to the file system. *)
Definition runGoroutine (g : Goroutine) (s : State) : State :=
  match g with
  | GoRemove name => snd (remove name s)
  | GoHandle _ _ => s
  end.

Definition settle (w : World (P := platform)) : State :=
  fold_left (fun s g => runGoroutine g s) (goroutines w) (fs w).

Definition exists_ (name : string) (s : State) : bool :=
  match lookup name (entries s) with
  | Some _ => true
  | None => false
  end.

End MemFS.

(** ** Sequences of calls *)

Section Calls.

Context {P : Platform}.

Inductive Call :=
| CallWrite (p : string)
| CallRotate
| CallClose.

(** One call of a public method: the receiver as the call leaves it and
    the error the call returns. *)
Definition call (fuel : nat) (c : Call) (rl : RotateLogs)
  : M (option (RotateLogs * option error)) :=
  match c with
  | CallWrite p =>
      r <- Write fuel rl p ;;
      ret (option_map (fun x => (fst x, snd (snd x))) r)
  | CallRotate => Rotate fuel rl
  | CallClose => r <- Close rl ;; ret (Some r)
  end.

(** The receivers a program can hold: what [New] returned, after any
    number of calls, in any worlds. *)
Inductive reachable (p : string) (options : list Option)
  : RotateLogs -> Prop :=
| reach_New rl :
    New p options = Ok rl -> reachable p options rl
| reach_call rl fuel c w rl' e w' :
    reachable p options rl ->
    call fuel c rl w = (Some (rl', e), w') ->
    reachable p options rl'.

(** Exactly one of [maxAge > 0] and [rotationCount > 0]. *)
Definition exactlyOnePolicy (rl : RotateLogs) : Prop :=
  (0 < maxAge rl /\ ~ (0 < rotationCount rl)%N)
  \/ (~ 0 < maxAge rl /\ (0 < rotationCount rl)%N).

(** The fields that hold the policy. *)
Definition samePolicy (rl rl' : RotateLogs) : Prop :=
  clock rl' = clock rl
  /\ globPattern rl' = globPattern rl
  /\ linkName rl' = linkName rl
  /\ maxAge rl' = maxAge rl
  /\ eventHandler rl' = eventHandler rl
  /\ pattern rl' = pattern rl
  /\ rotationTime rl' = rotationTime rl
  /\ rotationSize rl' = rotationSize rl
  /\ rotationCount rl' = rotationCount rl
  /\ forceNewFile rl' = forceNewFile rl.

(** An option that leaves [maxAge] at 0: not a [MaxAge], or one of zero
    or less. *)
Definition noPositiveMaxAge (o : Option) : Prop :=
  match o with
  | WithMaxAge d => d <= 0
  | _ => True
  end.

(** An option that leaves [rotationCount] at 0. *)
Definition noRotationCount (o : Option) : Prop :=
  match o with
  | WithRotationCount n => n = 0%N
  | _ => True
  end.

(** An option that is not a [MaxAge] of zero or more. *)
Definition maxAgeNegative (o : Option) : Prop :=
  match o with
  | WithMaxAge d => d < 0
  | _ => True
  end.

(** An option other than [RotationCount]. *)
Definition notRotationCount (o : Option) : Prop :=
  match o with
  | WithRotationCount _ => False
  | _ => True
  end.

(** The world after one more file-system call that left the file system
    as it was. *)
Definition logged (c : Syscall) (w : World) : World :=
  mkWorld (fs w) (trace w ++ [c]) (stderr w) (goroutines w)
    (wall w) (wallReads w) (clockReads w).

(** [w'] is [w] after file-system calls that changed nothing. *)
Definition readOnly (w w' : World) : Prop :=
  fs w' = fs w
  /\ stderr w' = stderr w
  /\ goroutines w' = goroutines w
  /\ wall w' = wall w
  /\ wallReads w' = wallReads w
  /\ clockReads w' = clockReads w
  /\ exists calls, trace w' = (trace w ++ calls)%list.

(** An error that does not come from the branch of [rotateNolock] for
    both retention settings being unset. *)
Definition notPanic (e : error) : Prop :=
  errors_Cause e <> errPanicBothUnset.

(** [w'] has the standard error and the goroutines of [w]. *)
Definition quiet (w w' : World) : Prop :=
  stderr w' = stderr w /\ goroutines w' = goroutines w.

(** The standard error of [w'] is that of [w], then errors that do not
    come from that branch. *)
Definition stderrGrows (w w' : World) : Prop :=
  exists l, stderr w' = (stderr w ++ l)%list /\ Forall notPanic l.

(** An error of the platform under one [errors.Wrap]. *)
Definition wrapped (e : error) : Prop :=
  exists c msg,
    e = errors_Wrap c msg
    /\ ((exists op path errno, c = PathError op path errno)
        \/ exists pkg m, c = LibError pkg m).

(** What the first loop of the purge keeps of a name the glob listed:
    the test of its body, on the file system [s]. *)
Definition candidate (rl : RotateLogs) (cutoff : time.Time) (s : FSt)
    (path : string) : bool :=
  negb (strings.HasSuffix path "_lock" || strings.HasSuffix path "_symlink")
  && match os_Stat path s, os_Lstat path s with
     | inr fi, inr fl =>
         negb ((0 <? maxAge rl) && time.After (ModTime fi) cutoff)
         && negb ((0 <? rotationCount rl)%N
                  && (Z.land (Mode fl) ModeSymlink =? ModeSymlink))
     | _, _ => false
     end.

(** The reading of [time.Now()] that follows one call of [clock.Now()]:
    the clocks [Local] and [UTC] read [time.Now()] themselves. *)
Definition wallAfterClock (rl : RotateLogs) (w : World) : time.Time :=
  match clock rl with
  | UserClock _ => wall w (wallReads w)
  | _ => wall w (S (wallReads w))
  end.

End Calls.

(** The number the scan reads off a name: what follows its last dot. *)
Definition generationOf (path : string) : Z :=
  fst (strconv.Atoi (strings.sliceFrom path (strings.LastIndex path "." + 1))).

(** In the words of the specification: the highest generation number
    among the names that carry the marker. *)
Definition highestGeneration (matches : list string) : Z :=
  fold_left Z.max
    (map generationOf
       (filter (fun path => strings.Contains path "rotation") matches))
    0.

(** The value of the digits [d] read after the value [acc]. *)
Fixpoint accValue (d : Decimal.uint) (acc : Z) : Z :=
  match d with
  | Decimal.Nil => acc
  | Decimal.D0 l => accValue l (acc * 10 + 0)
  | Decimal.D1 l => accValue l (acc * 10 + 1)
  | Decimal.D2 l => accValue l (acc * 10 + 2)
  | Decimal.D3 l => accValue l (acc * 10 + 3)
  | Decimal.D4 l => accValue l (acc * 10 + 4)
  | Decimal.D5 l => accValue l (acc * 10 + 5)
  | Decimal.D6 l => accValue l (acc * 10 + 6)
  | Decimal.D7 l => accValue l (acc * 10 + 7)
  | Decimal.D8 l => accValue l (acc * 10 + 8)
  | Decimal.D9 l => accValue l (acc * 10 + 9)
  end.

(** A string without the byte [c]. *)
Fixpoint without (c : ascii) (s : string) : Prop :=
  match s with
  | EmptyString => True
  | String a rest => a <> c /\ without c rest
  end.

(** ** Runs on the file system in memory *)

Module Example.

Definition Logs : Type := RotateLogs (P := MemFS.platform).
Definition W : Type := World (P := MemFS.platform).

Definition second (n : Z) : time.Time := n * time.Second.

(** [New("/log/app.%s", WithMaxAge(time.Hour))]. *)
Definition ageLogs : Logs :=
  mkRotateLogs (P := MemFS.platform) Local "" "" "/log/app.*" 0 ""
    time.Hour None None "/log/app.%s" (24 * time.Hour) 0 0%N false.

(** One day has begun at second 86400; it is second 90000, and the one
    file on disk was last written 25 hours ago. *)
Definition ageWorld : W :=
  MemFS.world [("/log/app.0", MemFS.Regular 10 (second 0))] (second 90000).

(** [New("/log/app.%s", WithRotationCount(1), WithRotationSize(5))]. *)
Definition countLogs : Logs :=
  mkRotateLogs (P := MemFS.platform) Local "" "" "/log/app.*" 0 ""
    0 None None "/log/app.%s" (24 * time.Hour) 5 1%N false.

(** The file of the day is full and was written within this second. *)
Definition countWorld : W :=
  MemFS.world [("/log/app.0", MemFS.Regular 10 (second 7))] (second 7).

(** The same, the file written two seconds ago. *)
Definition countWorldOlder : W :=
  MemFS.world [("/log/app.0", MemFS.Regular 10 (second 5))] (second 7).

(** [New("/log/app.%s", WithRotationSize(1000))]. *)
Definition sizeLogs : Logs :=
  mkRotateLogs (P := MemFS.platform) Local "" "" "/log/app.*" 0 ""
    (7 * 24 * time.Hour) None None "/log/app.%s" (24 * time.Hour)
    1000 0%N false.

(** Generation 1 was written after generation 2. *)
Definition restartWorld : W :=
  MemFS.world
    [("/log/app.0", MemFS.Regular 1000 (second 50));
     ("/log/app.0.rotation.1", MemFS.Regular 10 (second 200));
     ("/log/app.0.rotation.2", MemFS.Regular 10 (second 100))]
    (second 300).

(** [New("/log/app.%s")]. *)
Definition plainLogs : Logs :=
  mkRotateLogs (P := MemFS.platform) Local "" "" "/log/app.*" 0 ""
    (7 * 24 * time.Hour) None None "/log/app.%s" (24 * time.Hour)
    0 0%N false.

Definition emptyWorld : W := MemFS.world [] (second 7).

(** Another holder has the marker of the file of the day. *)
Definition lockedWorld : W :=
  MemFS.world [("/log/app.0_lock", MemFS.Regular 0 (second 7))] (second 7).

(** [New("/log/app.%s", WithRotationSize(8192))]. *)
Definition bigLogs : Logs :=
  mkRotateLogs (P := MemFS.platform) Local "" "" "/log/app.*" 0 ""
    (7 * 24 * time.Hour) None None "/log/app.%s" (24 * time.Hour)
    8192 0%N false.

(** The name of the day is taken by a directory. *)
Definition directoryWorld : W :=
  MemFS.world [("/log/app.0", MemFS.Directory (second 1))] (second 7).

(** The rotation state of a receiver. *)
Definition state (rl : Logs) : string * string * Z * option File :=
  (curBaseFn rl, curFn rl, generation rl, outFh rl).

(** The names on the file system. *)
Definition names (s : MemFS.State) : list string :=
  map fst (MemFS.entries s).

(** The receiver and the world a call leaves; the receiver it was
    given when the call did not return. *)
Definition afterWrite (fuel : nat) (rl : Logs) (p : string) (w : W)
  : Logs * W :=
  match Write fuel rl p w with
  | (Some (rl', _), w') => (rl', w')
  | (None, w') => (rl, w')
  end.

End Example.

(** ** Frames, traces and outcomes *)

Section Effects.

Context {P : Platform}.

(** [w'] is [w] after more file-system calls: the trace is extended. *)
Definition traceGrows (w w' : World) : Prop :=
  exists calls, trace w' = (trace w ++ calls)%list.

(** The receiver after lines 252-255: the new handle, base filename,
    filename and generation. *)
Definition adopted (rl : RotateLogs) (fh : File) (baseFn filename : string)
    (gen : Z) : RotateLogs :=
  mkRotateLogs (clock rl) baseFn filename (globPattern rl) gen (linkName rl)
    (maxAge rl) (eventHandler rl) (Some fh) (pattern rl) (rotationTime rl)
    (rotationSize rl) (rotationCount rl) (forceNewFile rl).

(** The world after [fileutil.CreateFile name]. *)
Definition created (name : string) (w : World) : World :=
  mkWorld (snd (fileutil_CreateFile name (fs w)))
    (trace w ++ [SysCreateFile name]) (stderr w) (goroutines w)
    (wall w) (wallReads w) (clockReads w).

(** Every run of [m] adds to the trace only calls that satisfy [Q]. *)
Definition emits {A : Type} (Q : Syscall -> Prop) (m : M A) : Prop :=
  forall w, exists calls,
    trace (snd (m w)) = (trace w ++ calls)%list /\ Forall Q calls.

(** The file-system calls of an acquisition by the receiver [rl]: reads,
    the creation of the target, the lock marker taken and removed, the
    temporary link made and renamed to [linkName], and handles closed. *)
Definition housekeeping (rl : RotateLogs) (c : Syscall) : Prop :=
  match c with
  | SysStat _ | SysLstat _ | SysCreateFile _ | SysClose _ => True
  | SysGlob pat => pat = globPattern rl
  | SysOpenExcl name | SysRemove name => strings.HasSuffix name "_lock" = true
  | SysSymlink _ newname =>
      linkName rl <> "" /\ strings.HasSuffix newname "_symlink" = true
  | SysMkdirAll path =>
      linkName rl <> "" /\ path = filepath_Dir (linkName rl)
  | SysRename oldpath newpath =>
      linkName rl <> "" /\ strings.HasSuffix oldpath "_symlink" = true
      /\ newpath = linkName rl
  | SysWrite _ => False
  end.

(** An [os.Stat] or an [os.Lstat]. *)
Definition isRead (c : Syscall) : Prop :=
  match c with
  | SysStat _ | SysLstat _ => True
  | _ => False
  end.

(** The world after [os.OpenFile name (O_CREATE|O_EXCL)]. *)
Definition lockTried (name : string) (w : World) : World :=
  mkWorld (snd (os_OpenFile_excl name (fs w)))
    (trace w ++ [SysOpenExcl name]) (stderr w) (goroutines w)
    (wall w) (wallReads w) (clockReads w).

(** The destination of the link: the filename, or the filename relative
    to the directory of [linkName]. *)
Definition linkDestOf (rl : RotateLogs) (filename : string)
  : string + string :=
  if strings.Contains (linkName rl) (filepath_Dir filename)
  then filepath_Rel (filepath_Dir (linkName rl)) filename
  else inr filename.

(** No run of [m] changes the component [f] of the world. *)
Definition keeps {A X : Type} (f : World -> X) (m : M A) : Prop :=
  forall w, f (snd (m w)) = f w.

(** Every run of [m] calls [time.Now()] at most once. *)
Definition readsWallOnce {A : Type} (m : M A) : Prop :=
  forall w, wallReads (snd (m w)) = wallReads w
            \/ wallReads (snd (m w)) = S (wallReads w).

End Effects.

(** ** Options and patterns *)

(** The options [New] handles in the same case of its switch. *)
Definition sameKey (o o' : Option) : bool :=
  match o, o' with
  | WithClock _, WithClock _
  | WithLinkName _, WithLinkName _
  | WithMaxAge _, WithMaxAge _
  | WithRotationTime _, WithRotationTime _
  | WithRotationSize _, WithRotationSize _
  | WithRotationCount _, WithRotationCount _
  | WithHandler _, WithHandler _
  | ForceNewFile, ForceNewFile => true
  | OtherOption a, OtherOption b => String.eqb a b
  | _, _ => false
  end.

(** The variable an option of the key of [o] sets, as an option. *)
Definition readBack (o : Option) (v : newVars) : Option :=
  match o with
  | WithClock _ => WithClock (v_clock v)
  | WithLinkName _ => WithLinkName (v_linkName v)
  | WithMaxAge _ => WithMaxAge (v_maxAge v)
  | WithRotationTime _ => WithRotationTime (v_rotationTime v)
  | WithRotationSize _ => WithRotationSize (v_rotationSize v)
  | WithRotationCount _ => WithRotationCount (v_rotationCount v)
  | WithHandler _ =>
      match v_handler v with
      | Some h => WithHandler h
      | None => OtherOption ""
      end
  | ForceNewFile => if v_forceNewFile v then ForceNewFile else OtherOption ""
  | OtherOption name => OtherOption name
  end.

(** No [%] of the string is followed by a byte of [%+A-Za-z]. *)
Fixpoint noConversion (s : string) : bool :=
  match s with
  | EmptyString => true
  | String a rest =>
      (if Ascii.eqb a "%" then
         match rest with
         | String c _ => negb (isConversionChar c)
         | EmptyString => true
         end
       else true)
      && noConversion rest
  end.

(** ** More runs on the file system in memory *)

Module Sample.

(** [New("/log/app.%s", WithHandler(h))], [h] the handler 7. *)
Definition handlerLogs : Example.Logs :=
  mkRotateLogs (P := MemFS.platform) Local "" "" "/log/app.*" 0 ""
    (7 * 24 * time.Hour) (Some 7%nat) None "/log/app.%s" (24 * time.Hour)
    0 0%N false.

(** [New("/log/app.%s", WithLinkName("/log/current"))]. *)
Definition linkLogs : Example.Logs :=
  mkRotateLogs (P := MemFS.platform) Local "" "" "/log/app.*" 0
    "/log/current" (7 * 24 * time.Hour) None None "/log/app.%s"
    (24 * time.Hour) 0 0%N false.

(** The temporary link of the file of the day was left behind. *)
Definition staleLinkWorld : Example.W :=
  MemFS.world
    [("/log/app.0_symlink", MemFS.Link "app.0" (Example.second 1))]
    (Example.second 7).

(** [New("/log/[app.%s")]: the glob pattern opens a class it does not
    close. *)
Definition bracketLogs : Example.Logs :=
  mkRotateLogs (P := MemFS.platform) Local "" "" "/log/[app.*" 0 ""
    (7 * 24 * time.Hour) None None "/log/[app.%s" (24 * time.Hour)
    0 0%N false.

(** [New("/log/app.%s%s")]. *)
Definition doubleLogs : Example.Logs :=
  mkRotateLogs (P := MemFS.platform) Local "" "" "/log/app.*" 0 ""
    (7 * 24 * time.Hour) None None "/log/app.%s%s" (24 * time.Hour)
    0 0%N false.

(** [New("/log/app.%s", WithClock(c))], [c] a clock that stands at
    second 7. *)
Definition clockLogs : Example.Logs :=
  mkRotateLogs (P := MemFS.platform) (UserClock (fun _ => Example.second 7))
    "" "" "/log/app.*" 0 "" (7 * 24 * time.Hour) None None "/log/app.%s"
    (24 * time.Hour) 0 0%N false.

(** The second day has begun; the file of the first day is on disk. *)
Definition nextDayWorld : Example.W :=
  MemFS.world [("/log/app.0", MemFS.Regular 1 (Example.second 7))]
    (Example.second 90000).

(** Two files of the day, the first written two seconds ago. *)
Definition twoFilesWorld : Example.W :=
  MemFS.world
    [("/log/app.0", MemFS.Regular 10 (Example.second 5));
     ("/log/app.0.rotation.1", MemFS.Regular 10 (Example.second 7))]
    (Example.second 7).

(** Generation 3 of the day is on disk, and a name without the marker
    that the glob lists after it. *)
Definition unmarkedLastWorld : Example.W :=
  MemFS.world
    [("/log/app.0.rotation.3", MemFS.Regular 10 (Example.second 5));
     ("/log/app.5", MemFS.Regular 10 (Example.second 6))]
    (Example.second 7).

(** The receiver and the world after one [Write] of one byte by the
    receiver of [New("/log/app.%s")] on the empty file system. *)
Definition written : Example.Logs * Example.W :=
  Example.afterWrite 10 Example.plainLogs "x" Example.emptyWorld.

(** The same for the receiver with a threshold of 5 bytes and a write of
    5 bytes. *)
Definition filled : Example.Logs * Example.W :=
  Example.afterWrite 10 Example.countLogs "hello" Example.emptyWorld.

End Sample.

(** * Proofs *)

(** ** Construction *)

Section NewFacts.
Context {P : Platform}.

Lemma applyOption_maxAge_nonneg v o :
  0 <= v_maxAge v -> 0 <= v_maxAge (applyOption v o).
Proof.
  intros H. destruct o; cbn; try exact H.
  destruct (d <? 0) eqn:E; [lia | apply Z.ltb_ge in E; exact E].
Qed.

Lemma applyOption_rotationTime_nonneg v o :
  0 <= v_rotationTime v -> 0 <= v_rotationTime (applyOption v o).
Proof.
  intros H. destruct o; cbn; try exact H.
  destruct (d <? 0) eqn:E; [lia | apply Z.ltb_ge in E; exact E].
Qed.

Lemma applyOption_rotationSize_nonneg v o :
  0 <= v_rotationSize v -> 0 <= v_rotationSize (applyOption v o).
Proof.
  intros H. destruct o; cbn; try exact H.
  destruct (s <? 0) eqn:E; [lia | apply Z.ltb_ge in E; exact E].
Qed.

Lemma fold_applyOption_nonneg options : forall v,
  0 <= v_maxAge v /\ 0 <= v_rotationTime v /\ 0 <= v_rotationSize v ->
  let v' := fold_left applyOption options v in
  0 <= v_maxAge v' /\ 0 <= v_rotationTime v' /\ 0 <= v_rotationSize v'.
Proof.
  induction options as [|o options IH]; intros v H; cbn; [exact H|].
  apply IH. destruct H as (H1 & H2 & H3). repeat split.
  - now apply applyOption_maxAge_nonneg.
  - now apply applyOption_rotationTime_nonneg.
  - now apply applyOption_rotationSize_nonneg.
Qed.

Lemma applyOptions_nonneg options :
  let v := applyOptions options in
  0 <= v_maxAge v /\ 0 <= v_rotationTime v /\ 0 <= v_rotationSize v.
Proof.
  apply fold_applyOption_nonneg. cbn. unfold time.Hour, time.Second. lia.
Qed.

Lemma fold_applyOption_maxAge_zero options : forall v,
  Forall noPositiveMaxAge options -> v_maxAge v = 0 ->
  v_maxAge (fold_left applyOption options v) = 0.
Proof.
  induction options as [|o options IH]; intros v HF Hv; cbn; [exact Hv|].
  inversion HF as [|? ? Ho HF']; subst. apply IH; [exact HF'|].
  destruct o; cbn in *; try exact Hv.
  destruct (d <? 0) eqn:E; [reflexivity | apply Z.ltb_ge in E; lia].
Qed.

Lemma fold_applyOption_rotationCount_zero options : forall v,
  Forall noRotationCount options -> v_rotationCount v = 0%N ->
  v_rotationCount (fold_left applyOption options v) = 0%N.
Proof.
  induction options as [|o options IH]; intros v HF Hv; cbn; [exact Hv|].
  inversion HF as [|? ? Ho HF']; subst. apply IH; [exact HF'|].
  destruct o; cbn in *; try exact Hv. exact Ho.
Qed.

Lemma New_Ok_inv p options rl :
  New p options = Ok rl ->
  let v := applyOptions options in
  ((0 <? v_maxAge v) && (0 <? v_rotationCount v)%N = false)
  /\ maxAge rl = (if (v_maxAge v =? 0) && (v_rotationCount v =? 0)%N
                  then 7 * 24 * time.Hour else v_maxAge v)
  /\ rotationCount rl = v_rotationCount v
  /\ rotationTime rl = v_rotationTime v
  /\ rotationSize rl = v_rotationSize v.
Proof.
  unfold New. destruct (strftime_New p) as [msg|pat]; [discriminate|].
  cbv zeta.
  destruct ((0 <? v_maxAge (applyOptions options))
            && (0 <? v_rotationCount (applyOptions options))%N) eqn:E;
    [discriminate|].
  intros H. inversion H; subst; clear H. cbn. auto.
Qed.

Lemma New_exactlyOnePolicy p options rl :
  New p options = Ok rl -> exactlyOnePolicy rl.
Proof.
  intros H. apply New_Ok_inv in H. cbv zeta in H.
  destruct H as (Hb & Hm & Hc & _ & _).
  pose proof (applyOptions_nonneg options) as (Hn & _ & _).
  unfold exactlyOnePolicy. rewrite Hm, Hc.
  set (v := applyOptions options) in *.
  destruct (v_maxAge v =? 0) eqn:E1; destruct (v_rotationCount v =? 0)%N eqn:E2; cbn.
  - apply N.eqb_eq in E2. left. split; [unfold time.Hour, time.Second; lia | lia].
  - apply Z.eqb_eq in E1. apply N.eqb_neq in E2. right. split; lia.
  - apply Z.eqb_neq in E1. apply N.eqb_eq in E2. left. split; lia.
  - apply Z.eqb_neq in E1. apply N.eqb_neq in E2.
    apply andb_false_iff in Hb. destruct Hb as [Hb|Hb].
    + apply Z.ltb_ge in Hb. lia.
    + apply N.ltb_ge in Hb. lia.
Qed.

End NewFacts.

Section NewClaims.
Context {P : Platform}.

Lemma New_both_zero p options pat :
  v_maxAge (applyOptions options) = 0 ->
  v_rotationCount (applyOptions options) = 0%N ->
  strftime_New p = inr pat ->
  exists rl, New p options = Ok rl
             /\ maxAge rl = 7 * 24 * time.Hour
             /\ rotationCount rl = 0%N.
Proof.
  intros Ha Hc E. unfold New. rewrite E. cbv zeta.
  rewrite Ha, Hc. cbn. eexists. split; [reflexivity|]. cbn.
  split; reflexivity.
Qed.

Lemma applyOptions_zero options :
  Forall noPositiveMaxAge options -> Forall noRotationCount options ->
  v_maxAge (applyOptions options) = 0
  /\ v_rotationCount (applyOptions options) = 0%N.
Proof.
  intros H1 H2. split.
  - apply fold_applyOption_maxAge_zero; [exact H1 | reflexivity].
  - apply fold_applyOption_rotationCount_zero; [exact H2 | reflexivity].
Qed.

(** C4. With [v] the values the options leave: when [maxAge > 0] and
    [rotationCount > 0], [New] returns an error, which is "options MaxAge
    and RotationCount cannot be both set" when the pattern compiles; when
    both are 0 and the pattern compiles, [New] returns a receiver whose
    [maxAge] is 7 days; and both are 0 when no option sets [MaxAge] above
    0 or [RotationCount] to a count other than 0. *)
Theorem New_retention_modes (p : string) (options : list Option) :
  let v := applyOptions options in
  (0 < v_maxAge v -> (0 < v_rotationCount v)%N ->
   exists e, New p options = Err e
             /\ (forall pat, strftime_New p = inr pat -> e = errBothSet))
  /\ (v_maxAge v = 0 -> v_rotationCount v = 0%N ->
      forall pat, strftime_New p = inr pat ->
      exists rl, New p options = Ok rl
                 /\ maxAge rl = 7 * 24 * time.Hour
                 /\ rotationCount rl = 0%N)
  /\ (Forall noPositiveMaxAge options -> Forall noRotationCount options ->
      v_maxAge v = 0 /\ v_rotationCount v = 0%N).
Proof.
  cbv zeta. split; [|split].
  - intros Ha Hc. unfold New.
    destruct (strftime_New p) as [msg|pat] eqn:E.
    + eexists. split; [reflexivity|]. intros pat H; discriminate.
    + cbv zeta.
      apply Z.ltb_lt in Ha. apply N.ltb_lt in Hc. rewrite Ha, Hc. cbn.
      eexists. split; [reflexivity|]. reflexivity.
  - intros Ha Hc pat E. now apply (New_both_zero p options pat).
  - apply applyOptions_zero.
Qed.



Lemma maxAgeNegative_noPositive o : maxAgeNegative o -> noPositiveMaxAge o.
Proof. destruct o; cbn; lia || auto. Qed.

Lemma notRotationCount_no o : notRotationCount o -> noRotationCount o.
Proof. destruct o; cbn; tauto. Qed.

(** C9. A negative [MaxAge], [RotationTime] or [RotationSize] option
    leaves 0 in its variable, and no list of options leaves a negative
    value in one of them.  With a pattern that compiles, options whose
    [MaxAge] are all negative and that hold no [RotationCount] give a
    receiver with the 7 days of the default; and options whose [MaxAge]
    are all negative never give the error of the two settings being both
    set, whatever [RotationCount] they hold: the receiver keeps the count
    and, when it is positive, a [maxAge] of 0. *)
Theorem New_clamps_negative_options :
  (forall v d, d < 0 -> v_maxAge (applyOption v (WithMaxAge d)) = 0)
  /\ (forall v d, d < 0 ->
        v_rotationTime (applyOption v (WithRotationTime d)) = 0)
  /\ (forall v s, s < 0 ->
        v_rotationSize (applyOption v (WithRotationSize s)) = 0)
  /\ (forall options,
        0 <= v_maxAge (applyOptions options)
        /\ 0 <= v_rotationTime (applyOptions options)
        /\ 0 <= v_rotationSize (applyOptions options))
  /\ (forall p options pat,
        strftime_New p = inr pat ->
        Forall maxAgeNegative options -> Forall notRotationCount options ->
        exists rl, New p options = Ok rl /\ maxAge rl = 7 * 24 * time.Hour)
  /\ (forall p options,
        Forall maxAgeNegative options ->
        New p options <> Err errBothSet
        /\ (forall pat, strftime_New p = inr pat ->
            exists rl, New p options = Ok rl
                       /\ rotationCount rl = v_rotationCount (applyOptions options)
                       /\ ((0 < rotationCount rl)%N -> maxAge rl = 0))).
Proof.
  repeat split.
  - intros v d H. cbn. apply Z.ltb_lt in H. now rewrite H.
  - intros v d H. cbn. apply Z.ltb_lt in H. now rewrite H.
  - intros v s H. cbn. apply Z.ltb_lt in H. now rewrite H.
  - apply applyOptions_nonneg.
  - apply applyOptions_nonneg.
  - apply applyOptions_nonneg.
  - intros p options pat E H1 H2.
    destruct (applyOptions_zero options) as (Ha & Hc).
    + eapply Forall_impl; [|exact H1]. apply maxAgeNegative_noPositive.
    + eapply Forall_impl; [|exact H2]. apply notRotationCount_no.
    + destruct (New_both_zero p options pat Ha Hc E) as (rl & Hn & Hm & _).
      exists rl. auto.
  - assert (Ha : v_maxAge (applyOptions options) = 0).
    { apply fold_applyOption_maxAge_zero; [|reflexivity].
      eapply Forall_impl; [|exact H]. apply maxAgeNegative_noPositive. }
    unfold New. destruct (strftime_New p); [discriminate|].
    cbv zeta. rewrite Ha. cbn. discriminate.
  - intros pat E.
    assert (Ha : v_maxAge (applyOptions options) = 0).
    { apply fold_applyOption_maxAge_zero; [|reflexivity].
      eapply Forall_impl; [|exact H]. apply maxAgeNegative_noPositive. }
    unfold New. rewrite E. cbv zeta. rewrite Ha. cbn.
    eexists. split; [reflexivity|]. cbn. split; [reflexivity|].
    intros Hc. destruct (v_rotationCount (applyOptions options) =? 0)%N eqn:E2.
    + apply N.eqb_eq in E2. lia.
    + reflexivity.
Qed.



End NewClaims.

Lemma New_retention_modes_witness :
  (exists e, New (P := MemFS.platform) "/log/app.%s"
               [WithMaxAge time.Hour; WithRotationCount 3] = Err e)
  /\ (exists rl, New (P := MemFS.platform) "/log/app.%s" [] = Ok rl
                 /\ maxAge rl = 7 * 24 * time.Hour).
Proof.
  split.
  - destruct (New_retention_modes (P := MemFS.platform) "/log/app.%s"
                [WithMaxAge time.Hour; WithRotationCount 3]) as (H & _ & _).
    destruct H as (e & He & _); [reflexivity | reflexivity |].
    exists e. exact He.
  - destruct (New_retention_modes (P := MemFS.platform) "/log/app.%s" [])
      as (_ & H & _).
    destruct (H eq_refl eq_refl "/log/app.%s" eq_refl) as (rl & H1 & H2 & _).
    exists rl. split; assumption.
Defined.

Lemma New_clamps_negative_options_witness :
  v_maxAge (applyOption newVars0 (WithMaxAge (-5))) = 0
  /\ (exists rl, New (P := MemFS.platform) "/log/app.%s"
                   [WithMaxAge (- time.Hour)] = Ok rl
                 /\ maxAge rl = 7 * 24 * time.Hour)
  /\ New (P := MemFS.platform) "/log/app.%s"
       [WithMaxAge (- time.Hour); WithRotationCount 3] <> Err errBothSet.
Proof.
  destruct (New_clamps_negative_options (P := MemFS.platform))
    as (H1 & _ & _ & _ & H5 & H6).
  split; [|split].
  - apply H1. lia.
  - apply (H5 "/log/app.%s" [WithMaxAge (- time.Hour)] "/log/app.%s").
    + reflexivity.
    + repeat constructor.
    + repeat constructor.
  - apply (H6 "/log/app.%s" [WithMaxAge (- time.Hour); WithRotationCount 3]).
    repeat constructor.
Defined.

(** ** Acquisition *)

Section Frames.
Context {P : Platform}.

Lemma readOnly_refl w : readOnly w w.
Proof. unfold readOnly. repeat split. exists []. now rewrite app_nil_r. Qed.

Lemma readOnly_trans w1 w2 w3 :
  readOnly w1 w2 -> readOnly w2 w3 -> readOnly w1 w3.
Proof.
  intros (A1 & A2 & A3 & A4 & A5 & A6 & c1 & A7)
         (B1 & B2 & B3 & B4 & B5 & B6 & c2 & B7).
  unfold readOnly. repeat split; try congruence.
  exists (c1 ++ c2)%list. rewrite B7, A7. now rewrite app_assoc.
Qed.

Lemma readOnly_logged call w : readOnly w (logged call w).
Proof. unfold readOnly, logged. cbn. repeat split. now exists [call]. Qed.

Lemma bind_run {A B} (m : M A) (k : A -> M B) w :
  bind m k w = k (fst (m w)) (snd (m w)).
Proof. reflexivity. Qed.

Lemma Stat_run name w :
  Stat name w = (pathResult "stat" name (os_Stat name (fs w)), logged (SysStat name) w).
Proof. reflexivity. Qed.

Lemma Lstat_run name w :
  Lstat name w = (pathResult "lstat" name (os_Lstat name (fs w)), logged (SysLstat name) w).
Proof. reflexivity. Qed.

Lemma Glob_run pat w :
  Glob pat w = (match filepath_Glob pat (fs w) with Some m => Ok m | None => Err ErrBadPattern end,
                logged (SysGlob pat) w).
Proof. reflexivity. Qed.

Lemma scanLoop_readOnly matches : forall generation maxFileTime w,
  readOnly w (snd (scanLoop matches generation maxFileTime w)).
Proof.
  induction matches as [|path rest IH]; intros g m w; cbn [scanLoop].
  - apply readOnly_refl.
  - destruct (negb (strings.Contains path "rotation")); [apply IH|].
    rewrite bind_run, Stat_run. cbn [fst snd].
    eapply readOnly_trans; [apply (readOnly_logged (SysStat path))|].
    destruct (os_Stat path (fs w)) as [e|fi]; cbn [pathResult]; [apply IH|].
    destruct (m <=? time.Unix (ModTime fi)); apply IH.
Qed.

Lemma probeLoop_readOnly fuel rl filename : forall generation w,
  readOnly w (snd (probeLoop fuel rl filename generation w)).
Proof.
  induction fuel as [|fuel IH]; intros g w; cbn [probeLoop].
  - apply readOnly_refl.
  - rewrite bind_run, Stat_run. cbn [fst snd].
    eapply readOnly_trans; [apply (readOnly_logged (SysStat (generationName filename g)))|].
    destruct (os_Stat (generationName filename g) (fs w)) as [e|fi]; cbn [pathResult].
    + apply readOnly_refl.
    + destruct (Size fi <? rotationSize rl); [apply readOnly_refl | apply IH].
Qed.

Lemma collectToUnlink_readOnly rl cutoff matches : forall toUnlink w,
  readOnly w (snd (collectToUnlink rl cutoff matches toUnlink w)).
Proof.
  induction matches as [|path rest IH]; intros acc w; cbn [collectToUnlink].
  - apply readOnly_refl.
  - destruct (strings.HasSuffix path "_lock" || strings.HasSuffix path "_symlink"); [apply IH|].
    rewrite bind_run, Stat_run. cbn [fst snd].
    eapply readOnly_trans; [apply (readOnly_logged (SysStat path))|].
    destruct (os_Stat path (fs w)) as [e|fi]; cbn [pathResult]; [apply IH|].
    rewrite bind_run, Lstat_run. cbn [fst snd].
    eapply readOnly_trans; [apply (readOnly_logged (SysLstat path))|].
    destruct (os_Lstat path _) as [e|fl]; cbn [pathResult]; [apply IH|].
    destruct ((0 <? maxAge rl) && time.After (ModTime fi) cutoff); [apply IH|].
    destruct ((0 <? rotationCount rl)%N && (Z.land (Mode fl) ModeSymlink =? ModeSymlink)); apply IH.
Qed.

Lemma oldestLoop_readOnly toUnlink : forall minFileTime toUnlinkfile w,
  readOnly w (snd (oldestLoop toUnlink minFileTime toUnlinkfile w)).
Proof.
  induction toUnlink as [|path rest IH]; intros m f w; cbn [oldestLoop].
  - apply readOnly_refl.
  - rewrite bind_run, Stat_run. cbn [fst snd].
    eapply readOnly_trans; [apply (readOnly_logged (SysStat path))|].
    destruct (os_Stat path (fs w)) as [e|fi]; cbn [pathResult]; [apply IH|].
    destruct (time.Unix (ModTime fi) <? m); apply IH.
Qed.

End Frames.

Section Acquire.
Context {P : Platform}.

Lemma wrap64_id z : int64_range z -> wrap64 z = z.
Proof.
  unfold int64_range, minInt64, maxInt64, wrap64. intros H.
  rewrite Z.mod_small; lia.
Qed.

Lemma sizeRotationOf_false rl name s :
  (forall fi, os_Stat name s = inr fi ->
              rotationSize rl <= 0 \/ Size fi < rotationSize rl) ->
  sizeRotationOf rl (pathResult "stat" name (os_Stat name s)) = false.
Proof.
  intros H. destruct (os_Stat name s) as [e|fi]; cbn; [reflexivity|].
  destruct (H fi eq_refl) as [H0|H0].
  - apply Z.ltb_ge in H0. now rewrite H0.
  - apply Z.leb_gt in H0. rewrite H0. apply andb_false_r.
Qed.

Lemma clock_Now_frame c w :
  let w' := snd (clock_Now c w) in
  fs w' = fs w /\ trace w' = trace w /\ stderr w' = stderr w
  /\ goroutines w' = goroutines w /\ wall w' = wall w.
Proof. destruct c; cbn; auto. Qed.

(** C5, as amended.  In the same bucket (the name generated for the
    clock's reading is [curBaseFn]), without generational names, and when
    the current file cannot be read or is under the threshold, or no
    threshold is set: the acquisition returns the receiver as it was and
    its handle, leaves the file system, the goroutines and the standard
    error as they were, and issues one file-system call, the [os.Stat] of
    the current file. *)
Theorem sameBucket_reuses_handle fuel rl bail w :
  fileutil_GenerateFn (pattern rl) (fst (clock_Now (clock rl) w))
    (rotationTime rl) = curBaseFn rl ->
  (forall fi, os_Stat (curFn rl) (fs w) = inr fi ->
              rotationSize rl <= 0 \/ Size fi < rotationSize rl) ->
  let r := getWriterNolock fuel rl bail false w in
  fst r = Some (rl, Ok (outFh rl))
  /\ fs (snd r) = fs w
  /\ trace (snd r) = (trace w ++ [SysStat (curFn rl)])%list
  /\ goroutines (snd r) = goroutines w
  /\ stderr (snd r) = stderr w.
Proof.
  intros Hb Hs. cbv zeta.
  destruct (clock_Now_frame (clock rl) w) as (F1 & F2 & F3 & F4 & F5).
  unfold getWriterNolock, decide.
  rewrite !bind_run. rewrite Stat_run. cbn [fst snd].
  rewrite Hb, String.eqb_refl. cbn [negb].
  rewrite F1, sizeRotationOf_false by exact Hs.
  cbn. rewrite F1, F2, F3, F4. auto.
Qed.


Lemma CreateFile_run name w :
  CreateFile name w =
  (pathResult "open" name (fst (fileutil_CreateFile name (fs w))),
   mkWorld (snd (fileutil_CreateFile name (fs w)))
     (trace w ++ [SysCreateFile name]) (stderr w) (goroutines w)
     (wall w) (wallReads w) (clockReads w)).
Proof. reflexivity. Qed.

Lemma OpenFile_excl_run name w :
  OpenFile_excl name w =
  (pathResult "open" name (fst (os_OpenFile_excl name (fs w))),
   mkWorld (snd (os_OpenFile_excl name (fs w)))
     (trace w ++ [SysOpenExcl name]) (stderr w) (goroutines w)
     (wall w) (wallReads w) (clockReads w)).
Proof. reflexivity. Qed.

End Acquire.

Section Loops.
Context {P : Platform}.

Lemma probeLoop_selects rl filename k : forall fuel g w,
  minInt64 <= g -> g + Z.of_nat k <= maxInt64 ->
  (forall i, (i < k)%nat ->
     exists fi, os_Stat (generationName filename (g + Z.of_nat i)) (fs w) = inr fi
                /\ rotationSize rl <= Size fi) ->
  (forall fi, os_Stat (generationName filename (g + Z.of_nat k)) (fs w) = inr fi ->
              Size fi < rotationSize rl) ->
  (k < fuel)%nat ->
  fst (probeLoop fuel rl filename g w)
  = Some (generationName filename (g + Z.of_nat k), g + Z.of_nat k).
Proof.
  induction k as [|k IH]; intros fuel g w Hlo Hhi Hskip Hsel Hfuel.
  - destruct fuel as [|fuel]; [lia|]. cbn [probeLoop].
    rewrite bind_run, Stat_run. cbn [fst snd].
    replace (g + Z.of_nat 0) with g in * by lia.
    destruct (os_Stat (generationName filename g) (fs w)) as [e|fi] eqn:E;
      cbn [pathResult]; [reflexivity|].
    specialize (Hsel fi eq_refl). apply Z.ltb_lt in Hsel. now rewrite Hsel.
  - destruct fuel as [|fuel]; [lia|]. cbn [probeLoop].
    rewrite bind_run, Stat_run. cbn [fst snd].
    destruct (Hskip 0%nat ltac:(lia)) as (fi & E & Hsz).
    replace (g + Z.of_nat 0) with g in E by lia.
    rewrite E. cbn [pathResult].
    apply Z.ltb_ge in Hsz. rewrite Hsz.
    rewrite wrap64_id by (unfold int64_range; lia).
    replace (g + Z.of_nat (S k)) with (g + 1 + Z.of_nat k) by lia.
    apply IH; try lia.
    + intros i Hi. destruct (Hskip (S i) ltac:(lia)) as (fi' & E' & Hsz').
      exists fi'. cbn [fs logged].
      replace (g + 1 + Z.of_nat i) with (g + Z.of_nat (S i)) by lia. auto.
    + intros fi'. cbn [fs logged].
      replace (g + 1 + Z.of_nat k) with (g + Z.of_nat (S k)) by lia.
      apply Hsel.
Qed.

(** A target is always the outcome of the loop over the generations:
    [forceNewFile] is true on every path that reaches it. *)
Lemma decide_forces fuel rl useGen w baseFn filename gen :
  fst (decide fuel rl useGen w) = Some (Target baseFn filename gen) ->
  exists g0 w1,
    fs w1 = fs w
    /\ fst (resolveName fuel rl true baseFn g0 w1)
       = Some (Target baseFn filename gen).
Proof.
  unfold decide. rewrite !bind_run, Stat_run. cbn [fst snd].
  destruct (clock_Now_frame (clock rl) w) as (F1 & _).
  set (w0 := snd (clock_Now (clock rl) w)) in *.
  set (b := fileutil_GenerateFn _ _ _).
  assert (Hb : forall g w1,
             fst (resolveName fuel rl true b g w1)
             = Some (Target baseFn filename gen) -> b = baseFn).
  { intros g w1. unfold resolveName. rewrite bind_run.
    destruct (probeLoop fuel rl b g w1) as [[[f g']|] w2]; cbn;
      [|discriminate].
    intros H. now inversion H. }
  destruct (negb (String.eqb b (curBaseFn rl))).
  - destruct (String.eqb (curBaseFn rl) "").
    + rewrite bind_run, Glob_run. cbn [fst snd].
      destruct (filepath_Glob (globPattern rl)
                  (fs (logged (SysStat (curFn rl)) w0))) as [matches|].
      * rewrite bind_run.
        pose proof (scanLoop_readOnly matches (generation rl) 0
                      (logged (SysGlob (globPattern rl))
                         (logged (SysStat (curFn rl)) w0))) as (R1 & _).
        destruct (scanLoop matches (generation rl) 0
                    (logged (SysGlob (globPattern rl))
                       (logged (SysStat (curFn rl)) w0))) as [r w2].
        cbn [fst snd] in *. intros H.
        pose proof (Hb _ _ H) as <-.
        exists (fst r), w2. split; [|exact H].
        rewrite R1. cbn. exact F1.
      * cbn. discriminate.
    + intros H. pose proof (Hb _ _ H) as <-.
      exists 0, (logged (SysStat (curFn rl)) w0). split; [exact F1 | exact H].
  - destruct (negb useGen && negb _).
    + cbn. discriminate.
    + intros H. pose proof (Hb _ _ H) as <-.
      exists (wrap64 (generation rl + 1)), (logged (SysStat (curFn rl)) w0).
      split; [exact F1 | exact H].
Qed.

(** C6. When a new file is forced, from generation [g]: if the names
    of the generations [g], ..., [g + k - 1] are files of at least the
    threshold's size and the name of generation [g + k] is not a file
    that can be read, or is one under the threshold, then that name and
    [g + k] are the resolved filename and generation.  Generation 0 has
    the base filename and a generation [n > 0] has it followed by
    [.rotation.] and [n] in decimal.  Every target the acquisition
    resolves comes out of this probing, from some generation. *)
Theorem forced_name_is_first_free fuel rl filename g k w :
  minInt64 <= g -> g + Z.of_nat k <= maxInt64 ->
  (forall i, (i < k)%nat ->
     exists fi, os_Stat (generationName filename (g + Z.of_nat i)) (fs w) = inr fi
                /\ rotationSize rl <= Size fi) ->
  (forall fi, os_Stat (generationName filename (g + Z.of_nat k)) (fs w) = inr fi ->
              Size fi < rotationSize rl) ->
  (k < fuel)%nat ->
  fst (resolveName fuel rl true filename g w)
  = Some (Target filename (generationName filename (g + Z.of_nat k))
            (g + Z.of_nat k))
  /\ generationName filename 0 = filename
  /\ (forall n, 0 < n ->
        generationName filename n
        = filename ++ ".rotation." ++ strconv.FormatInt n)
  /\ (forall useGen w0 baseFn name gen,
        fst (decide fuel rl useGen w0) = Some (Target baseFn name gen) ->
        exists g0 w1,
          fs w1 = fs w0
          /\ fst (resolveName fuel rl true baseFn g0 w1)
             = Some (Target baseFn name gen)).
Proof.
  intros Hlo Hhi Hskip Hsel Hfuel. split; [|split; [|split]].
  - unfold resolveName. rewrite bind_run.
    rewrite (probeLoop_selects rl filename k fuel g w) by assumption.
    reflexivity.
  - reflexivity.
  - intros n Hn. unfold generationName.
    destruct (n =? 0) eqn:E; [apply Z.eqb_eq in E; lia | reflexivity].
  - intros useGen w0 baseFn name gen. apply decide_forces.
Qed.

Lemma scanLoop_app l1 : forall l2 g m w,
  scanLoop (l1 ++ l2) g m w
  = scanLoop l2 (fst (fst (scanLoop l1 g m w))) (snd (fst (scanLoop l1 g m w)))
      (snd (scanLoop l1 g m w)).
Proof.
  induction l1 as [|p l1 IH]; intros l2 g m w; [reflexivity|].
  cbn [app scanLoop].
  destruct (negb (strings.Contains p "rotation")); [apply IH|].
  rewrite !bind_run, Stat_run. cbn [fst snd].
  destruct (os_Stat p (fs w)) as [e|fi]; cbn [pathResult]; [apply IH|].
  destruct (m <=? time.Unix (ModTime fi)); apply IH.
Qed.

Lemma scanLoop_bound l : forall g m w bound,
  m <= bound ->
  (forall q fq, In q l -> strings.Contains q "rotation" = true ->
                os_Stat q (fs w) = inr fq ->
                time.Unix (ModTime fq) <= bound) ->
  snd (fst (scanLoop l g m w)) <= bound.
Proof.
  induction l as [|p l IH]; intros g m w bound Hm H; cbn [scanLoop];
    [exact Hm|].
  destruct (strings.Contains p "rotation") eqn:Ec; cbn [negb].
  - rewrite bind_run, Stat_run. cbn [fst snd].
    destruct (os_Stat p (fs w)) as [e|fi] eqn:E; cbn [pathResult].
    + apply IH; [exact Hm|]. intros q fq Hq. apply H. now right.
    + destruct (m <=? time.Unix (ModTime fi)).
      * apply IH; [apply (H p fi); auto; now left|].
        intros q fq Hq. apply H. now right.
      * apply IH; [exact Hm|]. intros q fq Hq. apply H. now right.
  - apply IH; [exact Hm|]. intros q fq Hq. apply H. now right.
Qed.

Lemma scanLoop_keep l : forall g m w,
  (forall q, In q l ->
     strings.Contains q "rotation" = true
     /\ forall fq, os_Stat q (fs w) = inr fq -> time.Unix (ModTime fq) < m) ->
  fst (scanLoop l g m w) = (g, m).
Proof.
  induction l as [|p l IH]; intros g m w H; cbn [scanLoop]; [reflexivity|].
  destruct (H p (or_introl eq_refl)) as (Ec & Ht). rewrite Ec. cbn [negb].
  rewrite bind_run, Stat_run. cbn [fst snd].
  destruct (os_Stat p (fs w)) as [e|fi] eqn:E; cbn [pathResult].
  - apply IH. intros q Hq. apply H. now right.
  - specialize (Ht fi eq_refl). apply Z.leb_gt in Ht. rewrite Ht.
    apply IH. intros q Hq. apply H. now right.
Qed.

Lemma scanLoop_most_recent before path after fi g0 w :
  strings.Contains path "rotation" = true ->
  os_Stat path (fs w) = inr fi ->
  0 <= time.Unix (ModTime fi) ->
  (forall q fq, In q before -> strings.Contains q "rotation" = true ->
                os_Stat q (fs w) = inr fq ->
                time.Unix (ModTime fq) <= time.Unix (ModTime fi)) ->
  (forall q, In q after ->
     strings.Contains q "rotation" = true
     /\ forall fq, os_Stat q (fs w) = inr fq ->
                   time.Unix (ModTime fq) < time.Unix (ModTime fi)) ->
  fst (fst (scanLoop (before ++ path :: after) g0 0 w))
  = fst (strconv.Atoi
           (strings.sliceFrom path (strings.LastIndex path "." + 1))).
Proof.
  intros Ec Es H0 Hb Ha.
  rewrite scanLoop_app.
  pose proof (scanLoop_bound before g0 0 w _ H0 Hb) as Hbound.
  pose proof (scanLoop_readOnly before g0 0 w) as (Hfs & _).
  destruct (scanLoop before g0 0 w) as [[g1 m1] w1]. cbn [fst snd] in *.
  cbn [scanLoop]. rewrite Ec. cbn [negb].
  rewrite bind_run, Stat_run. cbn [fst snd]. rewrite Hfs, Es.
  cbn [pathResult]. apply Z.leb_le in Hbound. rewrite Hbound.
  rewrite scanLoop_keep; [reflexivity|].
  cbn [fs logged]. rewrite Hfs. exact Ha.
Qed.

End Loops.

(** ** Decimal numbers in names *)

Section Digits.

Lemma accValue_ge d : forall acc, 0 <= acc -> acc <= accValue d acc.
Proof.
  induction d; intros acc H; cbn [accValue]; try lia;
    (etransitivity; [|apply IHd; lia]; lia).
Qed.

Lemma parseUintLoop_digits d : forall acc,
  0 <= acc -> accValue d acc <= maxUint64 ->
  strconv.parseUintLoop (NilEmpty.string_of_uint d) acc
  = inr (accValue d acc).
Proof.
  induction d; intros acc H0 Hmax;
    cbn [NilEmpty.string_of_uint accValue strconv.parseUintLoop] in *;
    try reflexivity;
    match goal with
    | Hm : accValue ?l ?a <= _ |- _ =>
        pose proof (accValue_ge l a ltac:(lia)) as Hge
    end;
    unfold maxUint64 in *;
    match goal with
    | |- context [Z.of_nat (nat_of_ascii ?c) - 48] =>
        let v := eval vm_compute in (Z.of_nat (nat_of_ascii c) - 48) in
        change (Z.of_nat (nat_of_ascii c) - 48) with v
    end;
    cbn [Z.ltb Z.compare orb Pos.compare Pos.compare_cont];
    change ((2 ^ 64 - 1) / 10 + 1) with 1844674407370955162;
    (destruct (1844674407370955162 <=? acc) eqn:E1;
     [apply Z.leb_le in E1; lia|]);
    match goal with
    | |- context [?a <? ?b] =>
        destruct (a <? b) eqn:E2; [apply Z.ltb_lt in E2; lia|]
    end;
    apply IHd; lia.
Qed.

Lemma accValue_pos d : forall acc,
  accValue d (Z.pos acc) = Z.pos (Pos.of_uint_acc d acc).
Proof.
  induction d; intros acc; cbn [accValue Pos.of_uint_acc];
    try reflexivity;
    rewrite <- IHd; f_equal; lia.
Qed.

Lemma accValue_zero d : accValue d 0 = Z.of_N (Pos.of_uint d).
Proof.
  induction d; cbn [accValue Pos.of_uint]; try reflexivity;
    try (exact IHd);
    cbn [Z.mul Z.add]; rewrite accValue_pos; reflexivity.
Qed.

Lemma digits_without_dot d : without "." (NilEmpty.string_of_uint d).
Proof.
  induction d; cbn [NilEmpty.string_of_uint without]; auto;
    (split; [discriminate | exact IHd]).
Qed.

Lemma Atoi_FormatInt n :
  0 < n <= maxInt64 -> strconv.Atoi (strconv.FormatInt n) = (n, None).
Proof.
  intros [Hlo Hhi]. destruct n as [|p|p]; try lia.
  unfold strconv.FormatInt. cbn [Z.to_int NilZero.string_of_int].
  pose proof (Unsigned.to_uint_nonnil p) as Hnil.
  pose proof (DecimalPos.Unsigned.of_to p) as Hof.
  assert (Hv : accValue (Pos.to_uint p) 0 = Z.pos p).
  { rewrite accValue_zero, Hof. reflexivity. }
  assert (Hp : strconv.parseUintLoop
                 (NilEmpty.string_of_uint (Pos.to_uint p)) 0
               = inr (Z.pos p)).
  { rewrite parseUintLoop_digits; [now rewrite Hv | lia |].
    rewrite Hv. unfold maxInt64, maxUint64 in *. lia. }
  unfold NilZero.string_of_uint.
  destruct (Pos.to_uint p) eqn:E; [contradiction | ..];
    cbn [NilEmpty.string_of_uint] in *;
    unfold strconv.Atoi, strconv.ParseUint;
    cbv iota beta; rewrite Hp;
    (destruct (2 ^ 63 <=? Z.pos p) eqn:E3;
     [apply Z.leb_le in E3; unfold maxInt64 in Hhi; lia | reflexivity]).
Qed.

Lemma lastIndexFrom_without s : forall i acc,
  without "." s -> strings.lastIndexFrom s "." i acc = acc.
Proof.
  induction s as [|a s IH]; intros i acc H; cbn [strings.lastIndexFrom].
  - reflexivity.
  - destruct H as [Ha Hs]. cbn [String.prefix].
    destruct (ascii_dec "." a) as [E|_]; [congruence|].
    now apply IH.
Qed.

Lemma lastIndexFrom_app pre t : forall i acc,
  exists acc',
    strings.lastIndexFrom (pre ++ t) "." i acc
    = strings.lastIndexFrom t "." (i + Z.of_nat (String.length pre)) acc'.
Proof.
  induction pre as [|a pre IH]; intros i acc.
  - exists acc. cbn. now rewrite Z.add_0_r.
  - cbn [String.append strings.lastIndexFrom String.length].
    destruct (IH (i + 1)
                (if String.prefix "." (String a (pre ++ t)) then i else acc))
      as [acc' H].
    exists acc'. rewrite H. f_equal. lia.
Qed.

Lemma lastIndexFrom_rotation ds i acc :
  without "." ds ->
  strings.lastIndexFrom (".rotation." ++ ds) "." i acc = i + 9.
Proof.
  intros H. cbn. rewrite lastIndexFrom_without by exact H.
  assert (E : String.prefix "" ds = true) by (destruct ds; reflexivity).
  rewrite E. lia.
Qed.

Lemma substring_all s : substring 0 (String.length s) s = s.
Proof. induction s; cbn; [reflexivity | now rewrite IHs]. Qed.

Lemma substring_skip a : forall b,
  substring (String.length a) (String.length b) (a ++ b) = b.
Proof.
  induction a as [|c a IH]; intros b; cbn.
  - apply substring_all.
  - apply IH.
Qed.

Lemma length_append a b :
  String.length (a ++ b) = (String.length a + String.length b)%nat.
Proof. induction a; cbn; [reflexivity | now rewrite IHa]. Qed.

Lemma append_assoc a b c : (a ++ b) ++ c = a ++ (b ++ c).
Proof. induction a; cbn; [reflexivity | now rewrite IHa]. Qed.

Lemma digits_of_positive n :
  0 < n ->
  exists d, strconv.FormatInt n = NilEmpty.string_of_uint d.
Proof.
  intros H. destruct n as [|p|p]; try lia.
  exists (Pos.to_uint p). unfold strconv.FormatInt.
  cbn [Z.to_int NilZero.string_of_int]. unfold NilZero.string_of_uint.
  pose proof (Unsigned.to_uint_nonnil p).
  destruct (Pos.to_uint p); [contradiction | reflexivity ..].
Qed.

(** The number read off the name of a generation is the generation. *)
Lemma generationOf_generationName filename n :
  0 < n <= maxInt64 -> generationOf (generationName filename n) = n.
Proof.
  intros Hn. unfold generationOf, generationName.
  destruct (n =? 0) eqn:E; [apply Z.eqb_eq in E; lia|].
  destruct (digits_of_positive n (proj1 Hn)) as [d Hd].
  pose proof (digits_without_dot d) as Hdot. rewrite <- Hd in Hdot.
  set (ds := strconv.FormatInt n) in *.
  assert (Hidx : strings.LastIndex (filename ++ ".rotation." ++ ds) "."
                 = Z.of_nat (String.length filename) + 9).
  { unfold strings.LastIndex.
    destruct (lastIndexFrom_app filename (".rotation." ++ ds) 0 (-1))
      as [acc' H].
    rewrite H, lastIndexFrom_rotation by exact Hdot. lia. }
  rewrite Hidx. unfold strings.sliceFrom.
  replace (filename ++ ".rotation." ++ ds)
    with ((filename ++ ".rotation.") ++ ds) by apply append_assoc.
  replace (Z.to_nat (Z.of_nat (String.length filename) + 9 + 1))
    with (String.length (filename ++ ".rotation.")).
  2:{ rewrite length_append. cbn [String.length]. lia. }
  replace (String.length ((filename ++ ".rotation.") ++ ds)
           - String.length (filename ++ ".rotation."))%nat
    with (String.length ds) by (rewrite (length_append _ ds); lia).
  rewrite substring_skip. subst ds. now rewrite Atoi_FormatInt.
Qed.

End Digits.

Section FirstAcquisition.
Context {P : Platform}.

(** C2, as amended.  On the first acquisition (no base filename
    recorded), when the glob lists a name [path] that carries the marker,
    was modified at [t], not before the epoch, such that no marked name
    listed before it is more recent than [t], and every name listed after
    it is marked and older than [t] or unreadable: the acquisition goes
    on to resolve the name from the generation read off [path], on the
    same file system; and the generation read off the name of a
    generation [n > 0] is [n]. *)
Theorem first_acquisition_resumes_at_most_recent
    fuel rl useGen w before path after fi :
  curBaseFn rl = "" ->
  fileutil_GenerateFn (pattern rl) (fst (clock_Now (clock rl) w))
    (rotationTime rl) <> "" ->
  filepath_Glob (globPattern rl) (fs w) = Some (before ++ path :: after)%list ->
  strings.Contains path "rotation" = true ->
  os_Stat path (fs w) = inr fi ->
  0 <= time.Unix (ModTime fi) ->
  (forall q fq, In q before -> strings.Contains q "rotation" = true ->
                os_Stat q (fs w) = inr fq ->
                time.Unix (ModTime fq) <= time.Unix (ModTime fi)) ->
  (forall q, In q after ->
     strings.Contains q "rotation" = true
     /\ forall fq, os_Stat q (fs w) = inr fq ->
                   time.Unix (ModTime fq) < time.Unix (ModTime fi)) ->
  (exists w1,
      fs w1 = fs w
      /\ decide fuel rl useGen w
         = resolveName fuel rl true
             (fileutil_GenerateFn (pattern rl) (fst (clock_Now (clock rl) w))
                (rotationTime rl))
             (generationOf path) w1)
  /\ (forall filename n,
        0 < n <= maxInt64 -> path = generationName filename n ->
        generationOf path = n).
Proof.
  intros Hcur Hbase Hglob Ec Es H0 Hb Ha.
  split; [|intros filename n Hn ->; now apply generationOf_generationName].
  unfold generationOf.
  destruct (clock_Now_frame (clock rl) w) as (F1 & _).
  unfold decide. rewrite !bind_run, Stat_run. cbn [fst snd].
  rewrite Hcur.
  destruct (String.eqb_spec
              (fileutil_GenerateFn (pattern rl) (fst (clock_Now (clock rl) w))
                 (rotationTime rl)) "") as [E|_]; [contradiction|].
  cbn [negb String.eqb].
  rewrite !bind_run, Glob_run. cbn [fst snd fs logged].
  rewrite F1, Hglob.
  rewrite bind_run.
  set (w0 := logged (SysGlob (globPattern rl))
               (logged (SysStat (curFn rl)) (snd (clock_Now (clock rl) w)))).
  assert (Hw0 : fs w0 = fs w) by (subst w0; cbn; exact F1).
  rewrite (scanLoop_most_recent before path after fi (generation rl) w0);
    try (rewrite Hw0; assumption); try assumption.
  exists (snd (scanLoop (before ++ path :: after)%list (generation rl) 0 w0)).
  split; [|reflexivity].
  pose proof (scanLoop_readOnly (before ++ path :: after) (generation rl) 0 w0)
    as (Hfs & _).
  now rewrite Hfs.
Qed.

End FirstAcquisition.

(** ** Cleanup *)

Section Cleanup.
Context {P : Platform}.

Lemma Symlink_run a b w :
  Symlink a b w =
  (pathError "symlink" b (fst (os_Symlink a b (fs w))),
   mkWorld (snd (os_Symlink a b (fs w))) (trace w ++ [SysSymlink a b])
     (stderr w) (goroutines w) (wall w) (wallReads w) (clockReads w)).
Proof. reflexivity. Qed.

Lemma MkdirAll_run a w :
  MkdirAll a w =
  (pathError "mkdir" a (fst (os_MkdirAll a (fs w))),
   mkWorld (snd (os_MkdirAll a (fs w))) (trace w ++ [SysMkdirAll a])
     (stderr w) (goroutines w) (wall w) (wallReads w) (clockReads w)).
Proof. reflexivity. Qed.

Lemma Rename_run a b w :
  Rename a b w =
  (pathError "rename" b (fst (os_Rename a b (fs w))),
   mkWorld (snd (os_Rename a b (fs w))) (trace w ++ [SysRename a b])
     (stderr w) (goroutines w) (wall w) (wallReads w) (clockReads w)).
Proof. reflexivity. Qed.

Lemma Remove_run a w :
  Remove a w =
  (pathError "remove" a (fst (os_Remove a (fs w))),
   mkWorld (snd (os_Remove a (fs w))) (trace w ++ [SysRemove a])
     (stderr w) (goroutines w) (wall w) (wallReads w) (clockReads w)).
Proof. reflexivity. Qed.


Lemma quiet_refl w : quiet w w.
Proof. split; reflexivity. Qed.

Lemma quiet_trans w1 w2 w3 : quiet w1 w2 -> quiet w2 w3 -> quiet w1 w3.
Proof. intros [A B] [C D]. split; congruence. Qed.

Lemma readOnly_quiet w w' : readOnly w w' -> quiet w w'.
Proof. intros (_ & A & B & _). split; assumption. Qed.

Lemma sys_quiet {A} c (op : FSt -> A * FSt) w : quiet w (snd (sys c op w)).
Proof. split; reflexivity. Qed.

Lemma clock_Now_quiet c w : quiet w (snd (clock_Now c w)).
Proof. destruct c; split; reflexivity. Qed.

Lemma Close_File_quiet f w : quiet w (snd (Close_File f w)).
Proof. destruct f; split; reflexivity. Qed.


Ltac inv_wrapped :=
  let e := fresh "e" in
  let H := fresh "H" in
  cbn; intros e H; inversion H; subst;
  do 2 eexists; split; [reflexivity|]; eauto 6.

Lemma installSymlink_spec rl filename w :
  quiet w (snd (installSymlink rl filename w))
  /\ forall e, fst (installSymlink rl filename w) = Some e -> wrapped e.
Proof.
  unfold installSymlink.
  destruct (if strings.Contains (linkName rl) (filepath_Dir filename)
            then filepath_Rel (filepath_Dir (linkName rl)) filename
            else inr filename) as [msg|linkDest].
  { split; [apply quiet_refl | inv_wrapped]. }
  unfold bind, Symlink, Stat, MkdirAll, Rename, sys, ret.
  cbn [fst snd fs trace stderr goroutines wall wallReads clockReads].
  destruct (os_Symlink linkDest (filename ++ "_symlink") (fs w)) as [[e1|] s1];
    cbn [fst snd fs trace stderr goroutines wall wallReads clockReads pathError].
  { split; [split; reflexivity | inv_wrapped]. }
  destruct (os_Stat (filepath_Dir (linkName rl)) s1) as [e2|fi];
    cbn [fst snd fs trace stderr goroutines wall wallReads clockReads pathResult].
  - destruct (os_MkdirAll (filepath_Dir (linkName rl)) s1) as [[e3|] s3];
      cbn [fst snd fs trace stderr goroutines wall wallReads clockReads pathError].
    { split; [split; reflexivity | inv_wrapped]. }
    destruct (os_Rename (filename ++ "_symlink") (linkName rl) s3)
      as [[e4|] s4];
      cbn [fst snd fs trace stderr goroutines wall wallReads clockReads pathError].
    { split; [split; reflexivity | inv_wrapped]. }
    split; [split; reflexivity|]. cbn. discriminate.
  - destruct (os_Rename (filename ++ "_symlink") (linkName rl) s1)
      as [[e4|] s4];
      cbn [fst snd fs trace stderr goroutines wall wallReads clockReads pathError].
    { split; [split; reflexivity | inv_wrapped]. }
    split; [split; reflexivity|]. cbn. discriminate.
Qed.

Lemma go_run g w :
  go g w = (tt, mkWorld (fs w) (trace w) (stderr w) (goroutines w ++ [g])
                  (wall w) (wallReads w) (clockReads w)).
Proof. reflexivity. Qed.

Lemma time_Now_quiet w : quiet w (snd (time_Now w)).
Proof. split; reflexivity. Qed.

(** What [purge] returns and starts. *)
Lemma purge_cases rl w :
  stderr (snd (purge rl w)) = stderr w
  /\ (((maxAge rl <=? 0) && (rotationCount rl <=? 0)%N = true
       /\ fst (purge rl w) = Some errPanicBothUnset
       /\ goroutines (snd (purge rl w)) = goroutines w)
      \/ ((maxAge rl <=? 0) && (rotationCount rl <=? 0)%N = false
          /\ fst (purge rl w) = Some ErrBadPattern
          /\ goroutines (snd (purge rl w)) = goroutines w)
      \/ ((maxAge rl <=? 0) && (rotationCount rl <=? 0)%N = false
          /\ fst (purge rl w) = None
          /\ (goroutines (snd (purge rl w)) = goroutines w
              \/ exists f,
                  goroutines (snd (purge rl w))
                  = (goroutines w ++ [GoRemove f])%list
                  /\ (rotationCount rl = 0%N -> f = "")))).
Proof.
  unfold purge.
  destruct ((maxAge rl <=? 0) && (rotationCount rl <=? 0)%N) eqn:G.
  { split; [reflexivity|]. left. auto. }
  rewrite bind_run, Glob_run. cbn [fst snd].
  destruct (filepath_Glob (globPattern rl) (fs w)) as [matches|].
  2:{ split; [reflexivity|]. right; left. auto. }
  rewrite bind_run.
  pose proof (clock_Now_quiet (clock rl) (logged (SysGlob (globPattern rl)) w))
    as Q1.
  set (w1 := snd (clock_Now (clock rl) (logged (SysGlob (globPattern rl)) w)))
    in *.
  set (cutoff := time.Add _ _).
  rewrite bind_run.
  pose proof (readOnly_quiet _ _
                (collectToUnlink_readOnly rl cutoff matches [] w1)) as Q2.
  destruct (collectToUnlink rl cutoff matches [] w1) as [toUnlink w2].
  cbn [fst snd] in *.
  assert (Q : quiet w w2).
  { eapply quiet_trans; [|exact Q2]. eapply quiet_trans; [|exact Q1].
    split; reflexivity. }
  destruct Q as [Qe Qg].
  rewrite bind_run.
  destruct (0 <? rotationCount rl)%N eqn:Ec.
  - destruct (N.of_nat (Datatypes.length toUnlink) <=? rotationCount rl)%N.
    + cbn. split; [exact Qe|]. right; right. auto.
    + rewrite !bind_run. cbn [fst snd ret].
      pose proof (readOnly_quiet _ _
                    (oldestLoop_readOnly toUnlink
                       (time.Unix (fst (time_Now w2))) "" (snd (time_Now w2))))
        as Q3.
      destruct (oldestLoop toUnlink (time.Unix (fst (time_Now w2))) ""
                  (snd (time_Now w2))) as [f w3].
      cbn [fst snd] in *. destruct Q3 as [Q3e Q3g]. cbn in Q3e, Q3g.
      cbn. split; [congruence|]. right; right.
      split; [reflexivity|]. split; [reflexivity|]. right. exists f.
      split; [congruence|]. intros Hz. rewrite Hz in Ec. discriminate.
  - cbn. split; [exact Qe|]. right; right.
    split; [reflexivity|]. split; [reflexivity|]. right. exists "".
    split; [congruence | reflexivity].
Qed.

Lemma exactlyOnePolicy_guard rl :
  exactlyOnePolicy rl ->
  (maxAge rl <=? 0) && (rotationCount rl <=? 0)%N = false.
Proof.
  intros [[H1 H2]|[H1 H2]].
  - apply Z.leb_gt in H1. now rewrite H1.
  - apply N.leb_gt in H2. rewrite H2. apply andb_false_r.
Qed.

Lemma wrapped_notPanic e : wrapped e -> notPanic e.
Proof.
  intros (c & msg & -> & [(op & path & errno & ->)|(pkg & m & ->)]);
    unfold notPanic; cbn; discriminate.
Qed.

(** What [rotateNolock] returns and starts. *)
Lemma rotateNolock_cases rl filename w :
  let r := rotateNolock rl filename w in
  stderr (snd r) = stderr w
  /\ (forall e, fst r = Some e ->
        notPanic e
        \/ (e = errPanicBothUnset
            /\ (maxAge rl <=? 0) && (rotationCount rl <=? 0)%N = true))
  /\ (goroutines (snd r) = goroutines w
      \/ exists f,
          goroutines (snd r) = (goroutines w ++ [GoRemove f])%list
          /\ (rotationCount rl = 0%N -> f = "")).
Proof.
  cbv zeta. unfold rotateNolock.
  rewrite bind_run, OpenFile_excl_run. cbn [fst snd].
  destruct (os_OpenFile_excl (filename ++ "_lock") (fs w)) as [[errno|fh] s1];
    cbn [fst snd pathResult].
  { cbn. split; [reflexivity|]. split; [|now left].
    intros e H. inversion H; subst. left. unfold notPanic. cbn. discriminate. }
  set (w1 := mkWorld s1 _ _ _ _ _ _).
  assert (Q1 : quiet w w1) by (split; reflexivity).
  rewrite bind_run.
  set (body := bind (if String.eqb (linkName rl) "" then ret None
                     else installSymlink rl filename) _).
  assert (Hbody :
    stderr (snd (body w1)) = stderr w1
    /\ (forall e, fst (body w1) = Some e ->
          notPanic e
          \/ (e = errPanicBothUnset
              /\ (maxAge rl <=? 0) && (rotationCount rl <=? 0)%N = true))
    /\ (goroutines (snd (body w1)) = goroutines w1
        \/ exists f,
            goroutines (snd (body w1)) = (goroutines w1 ++ [GoRemove f])%list
            /\ (rotationCount rl = 0%N -> f = ""))).
  { subst body. rewrite bind_run.
    assert (Hs :
      quiet w1 (snd ((if String.eqb (linkName rl) "" then ret None
                      else installSymlink rl filename) w1))
      /\ forall e, fst ((if String.eqb (linkName rl) "" then ret None
                         else installSymlink rl filename) w1) = Some e ->
                   wrapped e).
    { destruct (String.eqb (linkName rl) "").
      - split; [apply quiet_refl | cbn; discriminate].
      - apply installSymlink_spec. }
    destruct ((if String.eqb (linkName rl) "" then ret None
               else installSymlink rl filename) w1) as [[e|] w2];
      cbn [fst snd] in *; destruct Hs as [[Qe Qg] Hw].
    - cbn. split; [exact Qe|]. split; [|left; exact Qg].
      intros e' H. inversion H; subst. left. apply wrapped_notPanic.
      now apply Hw.
    - destruct (purge_cases rl w2) as (Pe & Pc).
      split; [congruence|].
      destruct Pc as [(G & R & Pg)|[(G & R & Pg)|(G & R & Pg)]].
      + split; [|left; congruence].
        intros e H. rewrite R in H. inversion H; subst. right. auto.
      + split; [|left; congruence].
        intros e H. rewrite R in H. inversion H; subst. left.
        unfold notPanic. cbn. discriminate.
      + split; [intros e H; rewrite R in H; discriminate|].
        destruct Pg as [Pg|(f & Pg & Hf)]; [left; congruence|].
        right. exists f. split; [congruence | exact Hf]. }
  destruct (body w1) as [r w2]. cbn [fst snd] in *.
  destruct Hbody as (He & Hr & Hg). destruct Q1 as [Q1e Q1g].
  rewrite !bind_run. cbn.
  split; [congruence|]. split; [exact Hr|].
  destruct Hg as [Hg|(f & Hg & Hf)]; [left; congruence|].
  right. exists f. split; [congruence | exact Hf].
Qed.

End Cleanup.

(** ** The policy is invariant *)

Section Invariant.
Context {P : Platform}.

Lemma resolveName_spec fuel rl force baseFn g w :
  quiet w (snd (resolveName fuel rl force baseFn g w))
  /\ forall err, fst (resolveName fuel rl force baseFn g w)
                 <> Some (GlobFailed err).
Proof.
  unfold resolveName. destruct force.
  - rewrite bind_run.
    pose proof (readOnly_quiet _ _ (probeLoop_readOnly fuel rl baseFn g w)) as Q.
    destruct (probeLoop fuel rl baseFn g w) as [[[f g']|] w1];
      cbn [fst snd] in *; split; try exact Q; cbn; discriminate.
  - split; [apply quiet_refl | cbn; discriminate].
Qed.

Lemma decide_spec fuel rl useGen w :
  quiet w (snd (decide fuel rl useGen w))
  /\ forall err, fst (decide fuel rl useGen w) = Some (GlobFailed err) ->
                 notPanic err.
Proof.
  unfold decide. rewrite !bind_run, Stat_run. cbn [fst snd].
  pose proof (clock_Now_quiet (clock rl) w) as Q0.
  set (w0 := snd (clock_Now (clock rl) w)) in *.
  set (baseFn := fileutil_GenerateFn _ _ _).
  assert (Q1 : quiet w (logged (SysStat (curFn rl)) w0)).
  { eapply quiet_trans; [exact Q0|]. split; reflexivity. }
  set (w1 := logged (SysStat (curFn rl)) w0) in *.
  destruct (negb (String.eqb baseFn (curBaseFn rl))).
  - destruct (String.eqb (curBaseFn rl) "").
    + rewrite bind_run, Glob_run. cbn [fst snd].
      destruct (filepath_Glob (globPattern rl) (fs w1)) as [matches|].
      * rewrite bind_run.
        pose proof (readOnly_quiet _ _
                      (scanLoop_readOnly matches (generation rl) 0
                         (logged (SysGlob (globPattern rl)) w1))) as Q2.
        destruct (scanLoop matches (generation rl) 0
                    (logged (SysGlob (globPattern rl)) w1)) as [r w2].
        cbn [fst snd] in *.
        destruct (resolveName_spec fuel rl true baseFn (fst r) w2) as [Q3 N3].
        split.
        -- eapply quiet_trans; [|exact Q3]. eapply quiet_trans; [|exact Q2].
           eapply quiet_trans; [exact Q1|]. split; reflexivity.
        -- intros err H. exfalso. exact (N3 err H).
      * cbn. split.
        -- eapply quiet_trans; [exact Q1|]. split; reflexivity.
        -- intros err H. inversion H; subst. unfold notPanic. cbn. discriminate.
    + destruct (resolveName_spec fuel rl true baseFn 0 w1) as [Q3 N3].
      split; [eapply quiet_trans; eassumption|].
      intros err H. exfalso. exact (N3 err H).
  - destruct (negb useGen && negb _).
    + cbn. split; [exact Q1 | discriminate].
    + destruct (resolveName_spec fuel rl true baseFn
                  (wrap64 (generation rl + 1)) w1) as [Q3 N3].
      split; [eapply quiet_trans; eassumption|].
      intros err H. exfalso. exact (N3 err H).
Qed.

Lemma samePolicy_refl rl : samePolicy rl rl.
Proof. unfold samePolicy. repeat split. Qed.

Lemma samePolicy_trans a b c : samePolicy a b -> samePolicy b c -> samePolicy a c.
Proof.
  unfold samePolicy.
  intros (A1 & A2 & A3 & A4 & A5 & A6 & A7 & A8 & A9 & A10)
         (B1 & B2 & B3 & B4 & B5 & B6 & B7 & B8 & B9 & B10).
  repeat split; congruence.
Qed.

Lemma samePolicy_exactlyOne a b :
  samePolicy a b -> exactlyOnePolicy a -> exactlyOnePolicy b.
Proof.
  unfold samePolicy, exactlyOnePolicy.
  intros (_ & _ & _ & Hm & _ & _ & _ & _ & Hc & _). rewrite Hm, Hc. auto.
Qed.


Lemma stderrGrows_quiet w w' : quiet w w' -> stderrGrows w w'.
Proof. intros [H _]. exists []. rewrite app_nil_r. auto. Qed.

Lemma stderrGrows_trans a b c :
  stderrGrows a b -> stderrGrows b c -> stderrGrows a c.
Proof.
  intros (l1 & H1 & F1) (l2 & H2 & F2). exists (l1 ++ l2)%list.
  rewrite H2, H1, app_assoc. split; [reflexivity|].
  apply Forall_app. auto.
Qed.

Lemma notPanic_Wrap e msg : notPanic e -> notPanic (errors_Wrap e msg).
Proof. unfold notPanic. cbn. auto. Qed.

Lemma stderrGrows_same w w' : stderr w' = stderr w -> stderrGrows w w'.
Proof. intros H. exists []. rewrite app_nil_r. auto. Qed.

Lemma openAndAdopt_spec rl bail previousFn baseFn filename g w :
  (maxAge rl <=? 0) && (rotationCount rl <=? 0)%N = false ->
  let r := openAndAdopt rl bail previousFn baseFn filename g w in
  samePolicy rl (fst (fst r))
  /\ (forall e, snd (fst r) = Err e -> notPanic e)
  /\ stderrGrows w (snd r).
Proof.
  intros G. cbv zeta. unfold openAndAdopt.
  rewrite bind_run, CreateFile_run. cbn [fst snd].
  destruct (fileutil_CreateFile filename (fs w)) as [[errno|fh] s1];
    cbn [fst snd pathResult].
  { cbn. split; [apply samePolicy_refl|]. split.
    - intros e H. inversion H; subst. unfold notPanic. cbn. discriminate.
    - apply stderrGrows_same. reflexivity. }
  set (w1 := mkWorld s1 _ _ _ _ _ _).
  assert (Q1 : stderr w1 = stderr w) by reflexivity.
  rewrite bind_run.
  destruct (rotateNolock_cases rl filename w1) as (Re & Rr & _).
  destruct (rotateNolock rl filename w1) as [rot w2]. cbn [fst snd] in *.
  assert (Hrot : forall e, rot = Some e -> notPanic e).
  { intros e H. destruct (Rr e H) as [Hn|[_ Hg]]; [exact Hn|congruence]. }
  assert (G2 : stderr w2 = stderr w) by congruence.
  clearbody w1. clear Rr Re Q1.
  destruct rot as [err0|].
  - specialize (Hrot err0 eq_refl).
    destruct bail.
    + rewrite !bind_run. cbn.
      split; [apply samePolicy_refl|]. split.
      * intros e H. inversion H; subst. now apply notPanic_Wrap.
      * apply stderrGrows_same. exact G2.
    + rewrite !bind_run. cbn [fst snd ret Fprintf_Stderr].
      split; [unfold samePolicy; cbn; repeat split|]. split.
      * cbn. discriminate.
      * exists [errors_Wrap err0 "failed to rotate"]. split.
        -- destruct (outFh rl); destruct (eventHandler rl); cbn; congruence.
        -- constructor; [now apply notPanic_Wrap | constructor].
  - rewrite !bind_run. cbn [fst snd ret].
    split; [unfold samePolicy; cbn; repeat split|]. split.
    + cbn. discriminate.
    + apply stderrGrows_same.
      destruct (outFh rl); destruct (eventHandler rl); cbn; congruence.
Qed.

Lemma getWriterNolock_spec fuel rl bail useGen w rl' r w' :
  (maxAge rl <=? 0) && (rotationCount rl <=? 0)%N = false ->
  getWriterNolock fuel rl bail useGen w = (Some (rl', r), w') ->
  samePolicy rl rl'
  /\ (forall e, r = Err e -> notPanic e)
  /\ stderrGrows w w'.
Proof.
  intros G. unfold getWriterNolock. rewrite bind_run.
  destruct (decide_spec fuel rl useGen w) as [Qd Nd].
  destruct (decide fuel rl useGen w) as [[d|] w1]; cbn [fst snd] in *.
  2:{ cbn. discriminate. }
  destruct d as [|err|baseFn filename g].
  - cbn. intros H. inversion H; subst.
    split; [apply samePolicy_refl|]. split; [discriminate|].
    apply stderrGrows_quiet. exact Qd.
  - cbn. intros H. inversion H; subst.
    split; [apply samePolicy_refl|]. split.
    + intros e He. inversion He; subst. now apply Nd.
    + apply stderrGrows_quiet. exact Qd.
  - rewrite bind_run.
    pose proof (openAndAdopt_spec rl bail (curFn rl) baseFn filename g w1 G)
      as Ho. cbv zeta in Ho.
    destruct (openAndAdopt rl bail (curFn rl) baseFn filename g w1)
      as [[rl1 r1] w2]. cbn [fst snd] in *.
    cbn. intros H. inversion H; subst.
    destruct Ho as (Hp & He & Hs).
    split; [exact Hp|]. split; [exact He|].
    eapply stderrGrows_trans; [apply stderrGrows_quiet; exact Qd | exact Hs].
Qed.

Lemma call_spec fuel c rl w rl' e w' :
  (maxAge rl <=? 0) && (rotationCount rl <=? 0)%N = false ->
  call fuel c rl w = (Some (rl', e), w') ->
  samePolicy rl rl'
  /\ (forall err, e = Some err -> notPanic err)
  /\ stderrGrows w w'.
Proof.
  intros G. destruct c as [p| |]; cbn [call].
  - rewrite bind_run. unfold Write. rewrite bind_run.
    destruct (getWriterNolock fuel rl false false w) as [[[rl1 r1]|] w1] eqn:E;
      cbn [fst snd].
    2:{ cbn. discriminate. }
    destruct (getWriterNolock_spec _ _ _ _ _ _ _ _ G E) as (Hp & He & Hs).
    destruct r1 as [out|err1].
    + rewrite bind_run.
      destruct out as [fh|]; cbn.
      * intros H. inversion H; subst. split; [exact Hp|]. split.
        -- intros err Herr.
           destruct (snd (fst (file_Write fh p (fs w1)))); cbn in Herr;
             [|discriminate].
           inversion Herr; subst. unfold notPanic. cbn. discriminate.
        -- eapply stderrGrows_trans; [exact Hs|].
           apply stderrGrows_same. reflexivity.
      * intros H. inversion H; subst. split; [exact Hp|]. split.
        -- intros err Herr. inversion Herr; subst. unfold notPanic. cbn.
           discriminate.
        -- exact Hs.
    + cbn. intros H. inversion H; subst. split; [exact Hp|]. split.
      * intros err Herr. inversion Herr; subst. apply notPanic_Wrap.
        now apply He.
      * exact Hs.
  - unfold Rotate. rewrite bind_run.
    destruct (getWriterNolock fuel rl true true w) as [[[rl1 r1]|] w1] eqn:E;
      cbn [fst snd].
    2:{ cbn. discriminate. }
    destruct (getWriterNolock_spec _ _ _ _ _ _ _ _ G E) as (Hp & He & Hs).
    destruct r1 as [out|err1]; cbn; intros H; inversion H; subst.
    + split; [exact Hp|]. split; [discriminate | exact Hs].
    + split; [exact Hp|]. split; [|exact Hs].
      intros err Herr. inversion Herr; subst. now apply He.
  - rewrite bind_run. unfold Close.
    destruct (outFh rl) as [fh|]; cbn; intros H; inversion H; subst.
    + split; [unfold samePolicy; cbn; repeat split|].
      split; [discriminate|]. apply stderrGrows_same. reflexivity.
    + split; [apply samePolicy_refl|].
      split; [discriminate|]. apply stderrGrows_same. reflexivity.
Qed.

End Invariant.

Section PolicyInvariant.
Context {P : Platform}.

Lemma New_deterministic p options rl rl0 :
  New p options = Ok rl -> New p options = Ok rl0 -> rl0 = rl.
Proof. intros H H0. rewrite H in H0. now inversion H0. Qed.

Lemma reachable_policy p options rl :
  reachable p options rl ->
  exactlyOnePolicy rl
  /\ forall rl0, New p options = Ok rl0 -> samePolicy rl0 rl.
Proof.
  induction 1 as [rl HN | rl fuel c w rl' e w' Hr [IH1 IH2] Hc].
  - split; [eapply New_exactlyOnePolicy; eassumption|].
    intros rl0 H0. rewrite (New_deterministic _ _ _ _ HN H0).
    apply samePolicy_refl.
  - destruct (call_spec fuel c rl w rl' e w'
                (exactlyOnePolicy_guard rl IH1) Hc) as (Hp & _ & _).
    split; [eapply samePolicy_exactlyOne; eassumption|].
    intros rl0 H0. eapply samePolicy_trans; [apply IH2; exact H0 | exact Hp].
Qed.

(** C10. A receiver that [New] returned, after any calls of [Write],
    [Rotate] and [Close]: exactly one of [maxAge > 0] and
    [rotationCount > 0] holds; its policy fields are those [New] gave it
    and every call leaves them as they are; the test that guards the
    branch of [rotateNolock] for both settings unset is false, so
    [rotateNolock] never returns that branch's error, and no call returns
    it or prints it to the standard error. *)
Theorem policy_is_invariant p options rl :
  reachable p options rl ->
  exactlyOnePolicy rl
  /\ (forall rl0, New p options = Ok rl0 -> samePolicy rl0 rl)
  /\ (maxAge rl <=? 0) && (rotationCount rl <=? 0)%N = false
  /\ (forall filename w,
        fst (rotateNolock rl filename w) <> Some errPanicBothUnset)
  /\ (forall fuel c w rl' e w',
        call fuel c rl w = (Some (rl', e), w') ->
        samePolicy rl rl'
        /\ (forall err, e = Some err -> notPanic err)
        /\ stderrGrows w w').
Proof.
  intros Hr. destruct (reachable_policy p options rl Hr) as [H1 H2].
  pose proof (exactlyOnePolicy_guard rl H1) as G.
  split; [exact H1|]. split; [exact H2|]. split; [exact G|]. split.
  - intros filename w H.
    destruct (rotateNolock_cases rl filename w) as (_ & Hc & _).
    destruct (Hc _ H) as [Hn|[_ Hg]].
    + apply Hn. reflexivity.
    + congruence.
  - intros fuel c w rl' e w' Hc. exact (call_spec fuel c rl w rl' e w' G Hc).
Qed.

End PolicyInvariant.

Lemma policy_is_invariant_witness :
  exactlyOnePolicy Example.countLogs
  /\ (maxAge Example.ageLogs <=? 0) && (rotationCount Example.ageLogs <=? 0)%N
     = false
  /\ exists rl',
       option_map fst
         (fst (call 10 (CallWrite "hello") Example.countLogs
                 Example.countWorld)) = Some rl'
       /\ exactlyOnePolicy rl'.
Proof.
  split; [|split].
  - apply (policy_is_invariant (P := MemFS.platform) "/log/app.%s"
             [WithRotationCount 1; WithRotationSize 5]).
    apply reach_New. reflexivity.
  - apply (policy_is_invariant (P := MemFS.platform) "/log/app.%s"
             [WithMaxAge time.Hour]).
    apply reach_New. reflexivity.
  - assert (H : match fst (call 10 (CallWrite "hello") Example.countLogs
                             Example.countWorld) with
                | Some _ => true
                | None => false
                end = true) by (vm_compute; reflexivity).
    destruct (call 10 (CallWrite "hello") Example.countLogs
                Example.countWorld) as [[[rl' e]|] w'] eqn:E;
      cbn [fst] in H; [|discriminate H].
    exists rl'. split; [reflexivity|].
    apply (policy_is_invariant (P := MemFS.platform) "/log/app.%s"
             [WithRotationCount 1; WithRotationSize 5]).
    apply (reach_call "/log/app.%s" [WithRotationCount 1; WithRotationSize 5]
             Example.countLogs 10%nat (CallWrite "hello") Example.countWorld
             rl' e w'); [|exact E].
    apply reach_New. reflexivity.
Defined.

Section AcquisitionFailures.
Context {P : Platform}.

(** C8. When the lines before [fileutil.CreateFile] have resolved a
    target and [CreateFile] fails on it, the acquisition returns that
    error, wrapped, and the receiver as it was given: handle, base
    filename, resolved filename and generation are those before the call.
    Nothing is printed and no goroutine is started. *)
Theorem createFile_failure_leaves_state
    fuel rl bail useGen w baseFn filename gen errno :
  fst (decide fuel rl useGen w) = Some (Target baseFn filename gen) ->
  fst (fileutil_CreateFile filename (fs (snd (decide fuel rl useGen w))))
  = inl errno ->
  let r := getWriterNolock fuel rl bail useGen w in
  fst r = Some (rl, Err (errors_Wrap (PathError "open" filename errno)
                           ("failed to create a new file " ++ filename)))
  /\ goroutines (snd r) = goroutines w
  /\ stderr (snd r) = stderr w.
Proof.
  intros Hd Hc. cbv zeta.
  destruct (decide_spec fuel rl useGen w) as [[Qe Qg] _].
  unfold getWriterNolock. rewrite bind_run.
  destruct (decide fuel rl useGen w) as [d w1]. cbn [fst snd] in *.
  subst d. unfold openAndAdopt. rewrite !bind_run, CreateFile_run.
  destruct (fileutil_CreateFile filename (fs w1)) as [c s1].
  cbn [fst snd] in *. subst c. cbn. auto.
Qed.

(** C3, as amended.  When the exclusive creation of the lock marker
    fails, [rotateNolock] returns that error at once: it issues no other
    call, starts no goroutine and prints nothing.  A forced acquisition
    (as [Rotate] makes it) then fails with that error, wrapped, and leaves
    the receiver as it was; it closes the handle it has just opened: its
    calls after the target was resolved are the creation of the file, the
    attempt at the marker and the closing of the new handle, and nothing
    is printed or started.  An acquisition that is not forced (as [Write]
    makes it) prints the error to the standard error, adopts the file it
    opened and succeeds; the handle it closes is the previous one, if
    there was one, not the new one. *)
Theorem lock_failure_is_returned :
  (forall rl filename w errno,
      fst (os_OpenFile_excl (filename ++ "_lock") (fs w)) = inl errno ->
      let r := rotateNolock rl filename w in
      fst r = Some (PathError "open" (filename ++ "_lock") errno)
      /\ trace (snd r) = (trace w ++ [SysOpenExcl (filename ++ "_lock")])%list
      /\ fs (snd r) = snd (os_OpenFile_excl (filename ++ "_lock") (fs w))
      /\ goroutines (snd r) = goroutines w
      /\ stderr (snd r) = stderr w)
  /\ (forall fuel rl useGen w baseFn filename gen fh errno,
      fst (decide fuel rl useGen w) = Some (Target baseFn filename gen) ->
      let created :=
        fileutil_CreateFile filename (fs (snd (decide fuel rl useGen w))) in
      fst created = inr fh ->
      fst (os_OpenFile_excl (filename ++ "_lock") (snd created)) = inl errno ->
      let err := errors_Wrap (PathError "open" (filename ++ "_lock") errno)
                   "failed to rotate" in
      (let r := getWriterNolock fuel rl true useGen w in
       fst r = Some (rl, Err err) /\ stderr (snd r) = stderr w
       /\ goroutines (snd r) = goroutines w
       /\ trace (snd r)
          = (trace (snd (decide fuel rl useGen w))
               ++ [SysCreateFile filename; SysOpenExcl (filename ++ "_lock");
                   SysClose fh])%list
       /\ fs (snd r)
          = snd (file_Close fh
                   (snd (os_OpenFile_excl (filename ++ "_lock")
                           (snd created)))))
      /\ (let r := getWriterNolock fuel rl false useGen w in
          exists rl',
            fst r = Some (rl', Ok (Some fh))
            /\ outFh rl' = Some fh
            /\ curFn rl' = filename
            /\ curBaseFn rl' = baseFn
            /\ generation rl' = gen
            /\ stderr (snd r) = (stderr w ++ [err])%list
            /\ trace (snd r)
               = (trace (snd (decide fuel rl useGen w))
                    ++ [SysCreateFile filename;
                        SysOpenExcl (filename ++ "_lock")]
                    ++ match outFh rl with
                       | Some old => [SysClose old]
                       | None => []
                       end)%list)).
Proof.
  split.
  - intros rl filename w errno H. cbv zeta. unfold rotateNolock.
    rewrite bind_run, OpenFile_excl_run.
    destruct (os_OpenFile_excl (filename ++ "_lock") (fs w)) as [l s1].
    cbn [fst snd] in *. subst l. cbn. auto.
  - intros fuel rl useGen w baseFn filename gen fh errno Hd.
    cbv zeta. intros Hc Hl.
    destruct (decide_spec fuel rl useGen w) as [[Qe Qg] _].
    unfold getWriterNolock. rewrite !bind_run.
    destruct (decide fuel rl useGen w) as [d w1]. cbn [fst snd] in *.
    subst d. unfold openAndAdopt. rewrite !bind_run, CreateFile_run.
    destruct (fileutil_CreateFile filename (fs w1)) as [c s1].
    cbn [fst snd] in *. subst c. cbn [fst snd pathResult].
    unfold rotateNolock. rewrite !bind_run, OpenFile_excl_run.
    cbn [fst snd fs].
    destruct (os_OpenFile_excl (filename ++ "_lock") s1) as [l s2].
    cbn [fst snd] in *. subst l. cbn [fst snd pathResult]. split.
    + cbn. rewrite <- !app_assoc. auto.
    + eexists. split; [reflexivity|].
      cbn [outFh curFn curBaseFn generation]. repeat split.
      * destruct (outFh rl); destruct (eventHandler rl); cbn; congruence.
      * destruct (outFh rl); destruct (eventHandler rl); cbn;
          rewrite <- ?app_assoc; rewrite ?app_nil_r; reflexivity.
Qed.

End AcquisitionFailures.

(** ** The oldest file *)

Section Oldest.
Context {P : Platform}.

(** When no file of the list was modified before the second
    [minFileTime], the loop leaves [toUnlinkfile] as it was. *)
Lemma oldestLoop_none toUnlink : forall minFileTime toUnlinkfile w,
  (forall path fi, In path toUnlink -> os_Stat path (fs w) = inr fi ->
                   minFileTime <= time.Unix (ModTime fi)) ->
  fst (oldestLoop toUnlink minFileTime toUnlinkfile w) = toUnlinkfile.
Proof.
  induction toUnlink as [|p rest IH]; intros m f w H; cbn [oldestLoop];
    [reflexivity|].
  rewrite bind_run, Stat_run. cbn [fst snd].
  destruct (os_Stat p (fs w)) as [e|fi] eqn:E; cbn [pathResult].
  - apply IH. intros path fi Hin. apply H. now right.
  - pose proof (H p fi (or_introl eq_refl) E) as Hm.
    apply Z.ltb_ge in Hm. rewrite Hm.
    apply IH. intros path fi' Hin. apply H. now right.
Qed.

(** What the loop selects: the file it was given, when no file of the
    list is older than [minFileTime]; otherwise a file of the list that
    is older than [minFileTime] and no younger than any other. *)
Lemma oldestLoop_min toUnlink : forall minFileTime toUnlinkfile w,
  let f := fst (oldestLoop toUnlink minFileTime toUnlinkfile w) in
  (f = toUnlinkfile
   /\ forall path fi, In path toUnlink -> os_Stat path (fs w) = inr fi ->
                      minFileTime <= time.Unix (ModTime fi))
  \/ (exists fi,
        In f toUnlink /\ os_Stat f (fs w) = inr fi
        /\ time.Unix (ModTime fi) < minFileTime
        /\ forall path fp, In path toUnlink -> os_Stat path (fs w) = inr fp ->
                           time.Unix (ModTime fi) <= time.Unix (ModTime fp)).
Proof.
  induction toUnlink as [|p rest IH]; intros m f0 w; cbv zeta;
    cbn [oldestLoop].
  - left. split; [reflexivity|]. intros path fi [].
  - rewrite bind_run, Stat_run. cbn [fst snd].
    destruct (os_Stat p (fs w)) as [e|fi] eqn:E; cbn [pathResult].
    + destruct (IH m f0 (logged (SysStat p) w)) as [[Hf Hall]|(fi & Hin & Hs & Hlt & Hmin)].
      * left. split; [exact Hf|]. intros path fi [<-|Hin] Hs; [congruence|].
        now apply (Hall path fi).
      * right. exists fi. split; [now right|]. split; [exact Hs|].
        split; [exact Hlt|]. intros path fp [<-|Hin'] Hs'; [congruence|].
        now apply (Hmin path fp).
    + destruct (time.Unix (ModTime fi) <? m) eqn:Em.
      * apply Z.ltb_lt in Em.
        destruct (IH (time.Unix (ModTime fi)) p (logged (SysStat p) w))
          as [[Hf Hall]|(fi' & Hin & Hs & Hlt & Hmin)].
        -- right. exists fi. rewrite Hf. split; [now left|].
           split; [exact E|]. split; [exact Em|].
           intros path fp [<-|Hin'] Hs'.
           ++ assert (fp = fi) by congruence. subst. lia.
           ++ now apply (Hall path fp).
        -- right. exists fi'. split; [now right|]. split; [exact Hs|].
           split; [lia|]. intros path fp [<-|Hin'] Hs'.
           ++ assert (fp = fi) by (cbn in Hs'; congruence). subst. lia.
           ++ now apply (Hmin path fp).
      * apply Z.ltb_ge in Em.
        destruct (IH m f0 (logged (SysStat p) w))
          as [[Hf Hall]|(fi' & Hin & Hs & Hlt & Hmin)].
        -- left. split; [exact Hf|]. intros path fp [<-|Hin'] Hs'.
           ++ assert (fp = fi) by congruence. subst. exact Em.
           ++ now apply (Hall path fp).
        -- right. exists fi'. split; [now right|]. split; [exact Hs|].
           split; [exact Hlt|]. intros path fp [<-|Hin'] Hs'.
           ++ assert (fp = fi) by (cbn in Hs'; congruence). subst. lia.
           ++ now apply (Hmin path fp).
Qed.

End Oldest.

(** ** The purge *)

Section Purge.
Context {P : Platform}.

Lemma collectToUnlink_filter rl cutoff matches : forall toUnlink w,
  fst (collectToUnlink rl cutoff matches toUnlink w)
  = (toUnlink ++ filter (candidate rl cutoff (fs w)) matches)%list.
Proof.
  induction matches as [|path rest IH]; intros acc w;
    cbn [collectToUnlink filter].
  - cbn. now rewrite app_nil_r.
  - unfold candidate at 1.
    destruct (strings.HasSuffix path "_lock"
              || strings.HasSuffix path "_symlink"); cbn [negb andb];
      [apply IH|].
    rewrite bind_run, Stat_run. cbn [fst snd].
    destruct (os_Stat path (fs w)) as [e|fi]; cbn [pathResult];
      [apply (IH acc (logged (SysStat path) w))|].
    rewrite bind_run, Lstat_run. cbn [fst snd fs logged].
    destruct (os_Lstat path (fs w)) as [e|fl]; cbn [pathResult];
      [apply (IH acc (logged (SysLstat path) (logged (SysStat path) w)))|].
    destruct ((0 <? maxAge rl) && time.After (ModTime fi) cutoff);
      cbn [negb andb];
      [apply (IH acc (logged (SysLstat path) (logged (SysStat path) w)))|].
    destruct ((0 <? rotationCount rl)%N
              && (Z.land (Mode fl) ModeSymlink =? ModeSymlink));
      cbn [negb].
    + apply (IH acc (logged (SysLstat path) (logged (SysStat path) w))).
    + rewrite (IH (acc ++ [path])%list
                 (logged (SysLstat path) (logged (SysStat path) w))).
      cbn [fs logged]. now rewrite <- app_assoc.
Qed.

(** Under a count-based policy no symbolic link is a candidate. *)
Lemma candidate_not_symlink rl cutoff s path fl :
  (0 < rotationCount rl)%N ->
  candidate rl cutoff s path = true ->
  os_Lstat path s = inr fl ->
  Z.land (Mode fl) ModeSymlink <> ModeSymlink.
Proof.
  intros Hk Hc Hl. unfold candidate in Hc. rewrite Hl in Hc.
  apply andb_prop in Hc. destruct Hc as [_ Hc].
  destruct (os_Stat path s) as [e|fi]; [discriminate|].
  apply andb_prop in Hc. destruct Hc as [_ Hc].
  apply N.ltb_lt in Hk. rewrite Hk in Hc. cbn [andb] in Hc.
  intros E. apply Z.eqb_eq in E. rewrite E in Hc. discriminate.
Qed.

(** Under an age-based policy the candidates are the names, other than
    lock markers and temporary links, that can be read and were modified
    at or before the cutoff. *)
Lemma candidate_age_mode rl cutoff s path :
  rotationCount rl = 0%N -> 0 < maxAge rl ->
  candidate rl cutoff s path = true
  <-> (strings.HasSuffix path "_lock" = false
       /\ strings.HasSuffix path "_symlink" = false
       /\ exists fi fl, os_Stat path s = inr fi /\ os_Lstat path s = inr fl
                        /\ ModTime fi <= cutoff).
Proof.
  intros Hk Ha. unfold candidate. rewrite Hk.
  apply Z.ltb_lt in Ha. rewrite Ha. cbn [N.ltb N.compare andb negb].
  unfold time.After. split.
  - intros H. apply andb_prop in H. destruct H as [H1 H2].
    apply negb_true_iff, orb_false_iff in H1. destruct H1 as [H1 H1'].
    split; [exact H1|]. split; [exact H1'|].
    destruct (os_Stat path s) as [e|fi]; [discriminate|].
    destruct (os_Lstat path s) as [e|fl]; [discriminate|].
    exists fi, fl. split; [reflexivity|]. split; [reflexivity|].
    rewrite andb_true_r in H2. apply negb_true_iff, Z.ltb_ge in H2. exact H2.
  - intros (H1 & H1' & fi & fl & Hs & Hl & Hm).
    rewrite H1, H1', Hs, Hl. cbn [orb negb andb].
    rewrite andb_true_r. apply negb_true_iff, Z.ltb_ge. exact Hm.
Qed.

(** The purge under a count-based policy, when the glob succeeds: with
    [cands] the names the first loop keeps, nothing is started when they
    number at most [rotationCount]; otherwise one removal is started, of
    the empty name when no candidate is older than the second of
    [time.Now()], and else of a candidate older than that second and as
    old as any. *)
Lemma purge_count_mode rl w matches :
  (0 < rotationCount rl)%N ->
  filepath_Glob (globPattern rl) (fs w) = Some matches ->
  let now := fst (clock_Now (clock rl) w) in
  let cutoff := time.Add now (wrap64 (-1 * maxAge rl)) in
  let cands := filter (candidate rl cutoff (fs w)) matches in
  let r := purge rl w in
  fst r = None
  /\ ((N.of_nat (List.length cands) <= rotationCount rl)%N ->
      goroutines (snd r) = goroutines w)
  /\ ((rotationCount rl < N.of_nat (List.length cands))%N ->
      exists f,
        goroutines (snd r) = (goroutines w ++ [GoRemove f])%list
        /\ ((f = ""
             /\ forall path fi, In path cands ->
                  os_Stat path (fs w) = inr fi ->
                  time.Unix (wallAfterClock rl w) <= time.Unix (ModTime fi))
            \/ exists fi,
                 In f cands /\ os_Stat f (fs w) = inr fi
                 /\ time.Unix (ModTime fi) < time.Unix (wallAfterClock rl w)
                 /\ forall path fp, In path cands ->
                      os_Stat path (fs w) = inr fp ->
                      time.Unix (ModTime fi) <= time.Unix (ModTime fp))).
Proof.
  intros Hk Hglob. cbv zeta. unfold purge.
  assert (G : (maxAge rl <=? 0) && (rotationCount rl <=? 0)%N = false).
  { apply N.leb_gt in Hk. rewrite Hk. apply andb_false_r. }
  rewrite G. rewrite bind_run, Glob_run, Hglob. cbn [fst snd].
  rewrite bind_run.
  assert (Hclock :
    fst (clock_Now (clock rl) (logged (SysGlob (globPattern rl)) w))
    = fst (clock_Now (clock rl) w)
    /\ fs (snd (clock_Now (clock rl) (logged (SysGlob (globPattern rl)) w)))
       = fs w
    /\ goroutines (snd (clock_Now (clock rl)
                          (logged (SysGlob (globPattern rl)) w)))
       = goroutines w
    /\ wall (snd (clock_Now (clock rl) (logged (SysGlob (globPattern rl)) w)))
         (wallReads (snd (clock_Now (clock rl)
                            (logged (SysGlob (globPattern rl)) w))))
       = wallAfterClock rl w).
  { unfold wallAfterClock. destruct (clock rl); cbn; auto. }
  destruct Hclock as (Hc1 & Hc2 & Hc3 & Hc4).
  set (w1 := snd (clock_Now (clock rl) (logged (SysGlob (globPattern rl)) w)))
    in *.
  rewrite Hc1.
  set (cutoff := time.Add _ _).
  rewrite bind_run.
  pose proof (collectToUnlink_filter rl cutoff matches [] w1) as Hf.
  pose proof (collectToUnlink_readOnly rl cutoff matches [] w1)
    as (R1 & _ & R3 & R4 & R5 & _).
  destruct (collectToUnlink rl cutoff matches [] w1) as [toUnlink w2].
  cbn [fst snd app] in *. rewrite Hc2 in Hf. subst toUnlink.
  set (cands := filter (candidate rl cutoff (fs w)) matches).
  rewrite bind_run. apply N.ltb_lt in Hk. rewrite Hk.
  destruct (N.of_nat (Datatypes.length cands) <=? rotationCount rl)%N eqn:E.
  - apply N.leb_le in E. cbn. split; [reflexivity|]. split.
    + intros _. congruence.
    + intros Hlt. lia.
  - apply N.leb_gt in E. rewrite !bind_run. cbn [fst snd ret time_Now].
    set (w3 := mkWorld _ _ _ _ _ _ _).
    assert (Hw3 : fs w3 = fs w) by (subst w3; cbn; congruence).
    assert (Hwall : wall w2 (wallReads w2) = wallAfterClock rl w).
    { rewrite R4, R5. exact Hc4. }
    rewrite Hwall.
    pose proof (oldestLoop_min cands (time.Unix (wallAfterClock rl w)) "" w3)
      as Hmin. cbv zeta in Hmin. rewrite Hw3 in Hmin.
    pose proof (oldestLoop_readOnly cands
                  (time.Unix (wallAfterClock rl w)) "" w3)
      as (_ & _ & R3' & _).
    destruct (oldestLoop cands (time.Unix (wallAfterClock rl w)) "" w3)
      as [f w4]. cbn [fst snd] in *.
    cbn. split; [reflexivity|]. split; [intros Hle; lia|].
    intros _. exists f. split.
    + rewrite R3'. subst w3. cbn. congruence.
    + exact Hmin.
Qed.

(** The purge under an age-based policy, when the glob succeeds: the one
    removal it starts is of the empty name, whatever the first loop has
    kept. *)
Lemma purge_age_mode rl w matches :
  rotationCount rl = 0%N ->
  0 < maxAge rl ->
  filepath_Glob (globPattern rl) (fs w) = Some matches ->
  fst (purge rl w) = None
  /\ goroutines (snd (purge rl w)) = (goroutines w ++ [GoRemove ""])%list.
Proof.
  intros Hk Ha Hglob. unfold purge.
  apply Z.leb_gt in Ha. rewrite Ha. cbn [andb].
  rewrite bind_run, Glob_run, Hglob. cbn [fst snd].
  rewrite bind_run.
  pose proof (clock_Now_quiet (clock rl) (logged (SysGlob (globPattern rl)) w))
    as [_ Q].
  set (w1 := snd (clock_Now (clock rl) (logged (SysGlob (globPattern rl)) w)))
    in *.
  set (cutoff := time.Add _ _).
  rewrite bind_run.
  pose proof (collectToUnlink_readOnly rl cutoff matches [] w1)
    as (_ & _ & R3 & _).
  destruct (collectToUnlink rl cutoff matches [] w1) as [toUnlink w2].
  cbn [fst snd] in *.
  rewrite bind_run, Hk. cbn. split; [reflexivity|].
  rewrite R3, Q. reflexivity.
Qed.

End Purge.

(** ** Runs *)

Example ageLogs_New :
  New (P := MemFS.platform) "/log/app.%s" [WithMaxAge time.Hour]
  = Ok Example.ageLogs.
Proof. reflexivity. Qed.

Example countLogs_New :
  New (P := MemFS.platform) "/log/app.%s"
    [WithRotationCount 1; WithRotationSize 5]
  = Ok Example.countLogs.
Proof. reflexivity. Qed.

Example sizeLogs_New :
  New (P := MemFS.platform) "/log/app.%s" [WithRotationSize 1000]
  = Ok Example.sizeLogs.
Proof. reflexivity. Qed.

Example plainLogs_New :
  New (P := MemFS.platform) "/log/app.%s" [] = Ok Example.plainLogs.
Proof. reflexivity. Qed.

Example bigLogs_New :
  New (P := MemFS.platform) "/log/app.%s" [WithRotationSize 8192]
  = Ok Example.bigLogs.
Proof. reflexivity. Qed.

(** C1: the code does not do what the claim says.  Under an age-based
    policy ([rotationCount = 0]) the only goroutine [rotateNolock] starts
    removes the empty name, on every platform, and the purge starts it
    whenever the glob succeeds.  In the run: the policy is
    one hour, the file [/log/app.0] matches the glob and was modified 25
    hours before the clock's reading, the write succeeds, and once the
    goroutine has run the file is still there. *)
Theorem maxAge_expired_file_is_kept :
  (forall (P : Platform) (rl : RotateLogs) filename w,
      rotationCount rl = 0%N ->
      goroutines (snd (rotateNolock rl filename w)) = goroutines w
      \/ goroutines (snd (rotateNolock rl filename w))
         = (goroutines w ++ [GoRemove ""])%list)
  /\ (forall (P : Platform) (rl : RotateLogs) w matches,
      rotationCount rl = 0%N ->
      0 < maxAge rl ->
      filepath_Glob (globPattern rl) (fs w) = Some matches ->
      fst (purge rl w) = None
      /\ goroutines (snd (purge rl w)) = (goroutines w ++ [GoRemove ""])%list)
  /\ (let r := Write 10 Example.ageLogs "hello" Example.ageWorld in
      MemFS.glob "/log/app.*" (fs Example.ageWorld) = Some ["/log/app.0"]
      /\ MemFS.stat "/log/app.0" (fs Example.ageWorld)
         = inr (mkFileInfo 10 (Example.second 0) 420)
      /\ time.After (Example.second 0)
           (time.Add (Example.second 90000)
              (wrap64 (-1 * maxAge Example.ageLogs))) = false
      /\ option_map (fun x => (Example.state (fst x), snd x)) (fst r)
         = Some (("/log/app.86400", "/log/app.86400", 0, Some 3%nat),
                 (5, None))
      /\ goroutines (snd r) = [GoRemove ""]
      /\ Example.names (MemFS.settle (snd r))
         = ["/log/app.0"; "/log/app.86400"]).
Proof.
  split; [|split].
  - intros P rl filename w Hc.
    destruct (rotateNolock_cases rl filename w) as (_ & _ & [H|(f & H & Hf)]).
    + now left.
    + right. rewrite H, (Hf Hc). reflexivity.
  - intros P rl w matches. apply purge_age_mode.
  - cbv zeta. repeat split; vm_compute; reflexivity.
Qed.

(** C7: the code does not do what the claim says.  The loop that looks
    for the oldest file starts from the second of [time.Now()] and takes
    a file only when it is older: on every platform, when the candidates
    outnumber [rotationCount] and none was modified before the current
    second, the one removal the purge starts is of the empty name.  In the
    first run the count is 1, the two candidates were written within the
    current second, and both are still there once the goroutine has run;
    in the second run the older candidate was written two seconds before
    and is removed. *)
Theorem count_mode_same_second_keeps_all :
  (forall (P : Platform) (rl : RotateLogs) w matches,
      (0 < rotationCount rl)%N ->
      filepath_Glob (globPattern rl) (fs w) = Some matches ->
      let cutoff :=
        time.Add (fst (clock_Now (clock rl) w)) (wrap64 (-1 * maxAge rl)) in
      let cands := filter (candidate rl cutoff (fs w)) matches in
      (rotationCount rl < N.of_nat (List.length cands))%N ->
      (forall path fi, In path cands -> os_Stat path (fs w) = inr fi ->
                       time.Unix (wallAfterClock rl w)
                       <= time.Unix (ModTime fi)) ->
      fst (purge rl w) = None
      /\ goroutines (snd (purge rl w)) = (goroutines w ++ [GoRemove ""])%list)
  /\ (let r := Write 10 Example.countLogs "hello" Example.countWorld in
      option_map (fun x => (Example.state (fst x), snd x)) (fst r)
      = Some (("/log/app.0", "/log/app.0.rotation.1", 1, Some 3%nat),
              (5, None))
      /\ MemFS.glob "/log/app.*" (fs (snd r))
         = Some ["/log/app.0"; "/log/app.0.rotation.1"]
      /\ rotationCount Example.countLogs = 1%N
      /\ goroutines (snd r) = [GoRemove ""]
      /\ Example.names (MemFS.settle (snd r))
         = ["/log/app.0"; "/log/app.0.rotation.1"])
  /\ (let r := Write 10 Example.countLogs "hello" Example.countWorldOlder in
      goroutines (snd r) = [GoRemove "/log/app.0"]
      /\ Example.names (MemFS.settle (snd r)) = ["/log/app.0.rotation.1"]).
Proof.
  split; [|split].
  - intros P rl w matches Hk Hglob. cbv zeta. intros Hlt Hall.
    pose proof (purge_count_mode rl w matches Hk Hglob) as H.
    cbv zeta in H. destruct H as (Hr & _ & Hmore).
    split; [exact Hr|].
    destruct (Hmore Hlt) as (f & Hg & [[-> _]|(fi & Hin & Hs & Hold & _)]).
    + exact Hg.
    + specialize (Hall f fi Hin Hs). lia.
  - cbv zeta. repeat split; vm_compute; reflexivity.
  - cbv zeta. repeat split; vm_compute; reflexivity.
Qed.

(** C2 fails as stated: generations 1 and 2 are on disk, generation 1
    was modified last, and the first write resumes at generation 1, in
    [/log/app.0.rotation.1], while the highest generation is 2. *)
Lemma first_acquisition_not_highest :
  let r := Write 10 Example.sizeLogs "hello" Example.restartWorld in
  curBaseFn Example.sizeLogs = ""
  /\ MemFS.glob (globPattern Example.sizeLogs) (fs Example.restartWorld)
     = Some ["/log/app.0"; "/log/app.0.rotation.1"; "/log/app.0.rotation.2"]
  /\ highestGeneration
       ["/log/app.0"; "/log/app.0.rotation.1"; "/log/app.0.rotation.2"] = 2
  /\ fst (fst (scanLoop (P := MemFS.platform)
                 ["/log/app.0"; "/log/app.0.rotation.1";
                  "/log/app.0.rotation.2"] 0 0 Example.restartWorld)) = 1
  /\ option_map (fun x => (Example.state (fst x), snd x)) (fst r)
     = Some (("/log/app.0", "/log/app.0.rotation.1", 1, Some 3%nat),
             (5, None)).
Proof. cbv zeta. repeat split; vm_compute; reflexivity. Qed.

(** C3 fails as stated: another holder has the lock marker;
    [rotateNolock] returns the error of the failed creation and [Rotate]
    fails with it. *)
Lemma lock_held_rotate_fails :
  MemFS.exists_ "/log/app.0_lock" (fs Example.lockedWorld) = true
  /\ fst (rotateNolock Example.plainLogs "/log/app.0" Example.lockedWorld)
     = Some (PathError "open" "/log/app.0_lock" EEXIST)
  /\ option_map (fun x => (Example.state (fst x), snd x))
       (fst (Rotate 10 Example.plainLogs Example.lockedWorld))
     = Some (("", "", 0, None),
             Some (errors_Wrap (PathError "open" "/log/app.0_lock" EEXIST)
                     "failed to rotate")).
Proof. repeat split; vm_compute; reflexivity. Qed.

(** C5 fails as stated: a second acquisition in the same bucket, with no
    threshold set, returns the handle and leaves the state, and it has
    issued a file-system call, the [os.Stat] of the current file. *)
Lemma sameBucket_acquisition_stats_the_file :
  let rl := fst (Example.afterWrite 10 Example.plainLogs "x"
                   Example.emptyWorld) in
  let w := snd (Example.afterWrite 10 Example.plainLogs "x"
                  Example.emptyWorld) in
  let r := getWriterNolock 10 rl false false w in
  Example.state rl = ("/log/app.0", "/log/app.0", 0, Some 3%nat)
  /\ fileutil_GenerateFn (pattern rl) (fst (clock_Now (clock rl) w))
       (rotationTime rl) = curBaseFn rl
  /\ rotationSize rl = 0
  /\ option_map (fun x => (Example.state (fst x), snd x)) (fst r)
     = Some (("/log/app.0", "/log/app.0", 0, Some 3%nat), Ok (Some 3%nat))
  /\ trace (snd r) = (trace w ++ [SysStat "/log/app.0"])%list
  /\ List.length (trace (snd r)) = S (List.length (trace w)).
Proof. cbv zeta. repeat split; vm_compute; reflexivity. Qed.

(** ** The theorems at work on the file system in memory *)

Lemma sameBucket_reuses_handle_witness :
  let rl := fst (Example.afterWrite 10 Example.plainLogs "x"
                   Example.emptyWorld) in
  let w := snd (Example.afterWrite 10 Example.plainLogs "x"
                  Example.emptyWorld) in
  let r := getWriterNolock 10 rl false false w in
  fst r = Some (rl, Ok (outFh rl))
  /\ fs (snd r) = fs w
  /\ trace (snd r) = (trace w ++ [SysStat (curFn rl)])%list
  /\ goroutines (snd r) = goroutines w
  /\ stderr (snd r) = stderr w.
Proof.
  apply (sameBucket_reuses_handle (P := MemFS.platform) 10
           (fst (Example.afterWrite 10 Example.plainLogs "x"
                   Example.emptyWorld))
           false
           (snd (Example.afterWrite 10 Example.plainLogs "x"
                   Example.emptyWorld))).
  - vm_compute. reflexivity.
  - intros fi _. left. vm_compute. discriminate.
Defined.

Lemma createFile_failure_leaves_state_witness :
  let r := getWriterNolock 10 Example.bigLogs false false
             Example.directoryWorld in
  fst r = Some (Example.bigLogs,
                Err (errors_Wrap (PathError "open" "/log/app.0" EISDIR)
                       ("failed to create a new file " ++ "/log/app.0")))
  /\ goroutines (snd r) = goroutines Example.directoryWorld
  /\ stderr (snd r) = stderr Example.directoryWorld.
Proof.
  apply (createFile_failure_leaves_state (P := MemFS.platform) 10
           Example.bigLogs false false Example.directoryWorld
           "/log/app.0" "/log/app.0" 0 EISDIR).
  - vm_compute. reflexivity.
  - vm_compute. reflexivity.
Defined.

Lemma lock_failure_is_returned_witness :
  fst (rotateNolock Example.plainLogs "/log/app.0" Example.lockedWorld)
  = Some (PathError "open" ("/log/app.0" ++ "_lock") EEXIST)
  /\ fst (getWriterNolock 10 Example.plainLogs true true Example.lockedWorld)
     = Some (Example.plainLogs,
             Err (errors_Wrap (PathError "open" ("/log/app.0" ++ "_lock") EEXIST)
                    "failed to rotate"))
  /\ trace (snd (getWriterNolock 10 Example.plainLogs true true
                   Example.lockedWorld))
     = (trace (snd (decide 10 Example.plainLogs true Example.lockedWorld))
          ++ [SysCreateFile "/log/app.0"; SysOpenExcl ("/log/app.0" ++ "_lock");
              SysClose 3%nat])%list
  /\ exists rl',
       fst (getWriterNolock 10 Example.plainLogs false true Example.lockedWorld)
       = Some (rl', Ok (Some 3%nat))
       /\ curFn rl' = "/log/app.0".
Proof.
  destruct (lock_failure_is_returned (P := MemFS.platform)) as [H1 H2].
  split; [|split; [|split]].
  - apply (H1 Example.plainLogs "/log/app.0" Example.lockedWorld EEXIST).
    vm_compute. reflexivity.
  - apply (H2 10%nat Example.plainLogs true Example.lockedWorld
             "/log/app.0" "/log/app.0" 0 3%nat EEXIST);
      vm_compute; reflexivity.
  - destruct (H2 10%nat Example.plainLogs true Example.lockedWorld
                "/log/app.0" "/log/app.0" 0 3%nat EEXIST)
      as ((_ & _ & _ & Ht & _) & _).
    + vm_compute. reflexivity.
    + vm_compute. reflexivity.
    + vm_compute. reflexivity.
    + exact Ht.
  - destruct (H2 10%nat Example.plainLogs true Example.lockedWorld
                "/log/app.0" "/log/app.0" 0 3%nat EEXIST)
      as (_ & rl' & Hr & _ & Hf & _).
    + vm_compute. reflexivity.
    + vm_compute. reflexivity.
    + vm_compute. reflexivity.
    + exists rl'. split; assumption.
Defined.

Lemma forced_name_is_first_free_witness :
  fst (resolveName 10 Example.countLogs true "/log/app.0" 0
         Example.countWorld)
  = Some (Target "/log/app.0"
            (generationName "/log/app.0" (0 + Z.of_nat 1)) (0 + Z.of_nat 1))
  /\ generationName "/log/app.0" 0 = "/log/app.0"
  /\ (forall n, 0 < n ->
        generationName "/log/app.0" n
        = "/log/app.0" ++ ".rotation." ++ strconv.FormatInt n)
  /\ (forall useGen w0 baseFn name gen,
        fst (decide 10 Example.countLogs useGen w0)
        = Some (Target baseFn name gen) ->
        exists g0 w1,
          fs w1 = fs w0
          /\ fst (resolveName 10 Example.countLogs true baseFn g0 w1)
             = Some (Target baseFn name gen)).
Proof.
  apply (forced_name_is_first_free (P := MemFS.platform) 10
           Example.countLogs "/log/app.0" 0 1 Example.countWorld).
  - vm_compute. discriminate.
  - vm_compute. discriminate.
  - intros i Hi. assert (i = 0%nat) by lia. subst i.
    exists (mkFileInfo 10 (Example.second 7) 420).
    split; [vm_compute; reflexivity | vm_compute; discriminate].
  - intros fi H. vm_compute in H. discriminate.
  - lia.
Defined.

Lemma first_acquisition_resumes_at_most_recent_witness :
  (exists w1,
      fs w1 = fs Example.restartWorld
      /\ decide 10 Example.sizeLogs false Example.restartWorld
         = resolveName 10 Example.sizeLogs true
             (fileutil_GenerateFn (pattern Example.sizeLogs)
                (fst (clock_Now (clock Example.sizeLogs) Example.restartWorld))
                (rotationTime Example.sizeLogs))
             (generationOf "/log/app.0.rotation.1") w1)
  /\ (forall filename n,
        0 < n <= maxInt64 ->
        "/log/app.0.rotation.1" = generationName filename n ->
        generationOf "/log/app.0.rotation.1" = n).
Proof.
  apply (first_acquisition_resumes_at_most_recent (P := MemFS.platform) 10
           Example.sizeLogs false Example.restartWorld
           ["/log/app.0"] "/log/app.0.rotation.1" ["/log/app.0.rotation.2"]
           (mkFileInfo 10 (Example.second 200) 420)).
  - reflexivity.
  - vm_compute. discriminate.
  - vm_compute. reflexivity.
  - vm_compute. reflexivity.
  - vm_compute. reflexivity.
  - vm_compute. discriminate.
  - intros q fq [<-|[]] Hc. vm_compute in Hc. discriminate.
  - intros q [<-|[]]. split; [vm_compute; reflexivity|].
    intros fq H. vm_compute in H. inversion H; subst. vm_compute. reflexivity.
Defined.

(** * Further properties *)

(** ** Traces *)

Section Traces.
Context {P : Platform}.

Lemma traceGrows_refl w : traceGrows w w.
Proof. exists []. now rewrite app_nil_r. Qed.

Lemma traceGrows_trans a b c :
  traceGrows a b -> traceGrows b c -> traceGrows a c.
Proof.
  intros [l1 H1] [l2 H2]. exists (l1 ++ l2)%list.
  now rewrite H2, H1, app_assoc.
Qed.

Lemma readOnly_traceGrows w w' : readOnly w w' -> traceGrows w w'.
Proof. intros (_ & _ & _ & _ & _ & _ & H). exact H. Qed.

Lemma sys_traceGrows {A} c (op : FSt -> A * FSt) w :
  traceGrows w (snd (sys c op w)).
Proof. exists [c]. reflexivity. Qed.

Lemma clock_Now_traceGrows c w : traceGrows w (snd (clock_Now c w)).
Proof. destruct c; exists []; cbn; now rewrite app_nil_r. Qed.

End Traces.

(** ** [Close] *)

Section CloseFacts.
Context {P : Platform}.

(** X5. [Close] never returns an error.  It closes the handle if there
    is one, with that one file-system call, and clears it; the current
    filename, the base filename, the generation and the policy stay.  A
    second [Close] does nothing at all. *)
Theorem Close_is_idempotent rl w :
  let r1 := Close rl w in
  let r2 := Close (fst (fst r1)) (snd r1) in
  snd (fst r1) = None
  /\ outFh (fst (fst r1)) = None
  /\ curFn (fst (fst r1)) = curFn rl
  /\ curBaseFn (fst (fst r1)) = curBaseFn rl
  /\ generation (fst (fst r1)) = generation rl
  /\ samePolicy rl (fst (fst r1))
  /\ trace (snd r1)
     = (trace w ++ match outFh rl with
                   | Some fh => [SysClose fh]
                   | None => []
                   end)%list
  /\ r2 = (fst (fst r1), None, snd r1).
Proof.
  cbv zeta. unfold Close. destruct (outFh rl) as [fh|] eqn:E.
  - rewrite !bind_run. cbn. unfold samePolicy. cbn. repeat split.
  - cbn. rewrite E. cbn. rewrite app_nil_r.
    repeat split; try assumption; try apply samePolicy_refl.
Qed.

End CloseFacts.

(** ** The outcomes of an acquisition *)

Section Adoption.
Context {P : Platform}.

Lemma rotateNolock_error_quiet rl filename w e :
  fst (rotateNolock rl filename w) = Some e ->
  goroutines (snd (rotateNolock rl filename w)) = goroutines w.
Proof.
  unfold rotateNolock. rewrite bind_run, OpenFile_excl_run. cbn [fst snd].
  destruct (os_OpenFile_excl (filename ++ "_lock") (fs w)) as [[errno|fh] s1];
    cbn [fst snd pathResult]; [reflexivity|].
  set (w1 := mkWorld s1 _ _ _ _ _ _).
  rewrite !bind_run.
  assert (Hs : quiet w1
                 (snd ((if String.eqb (linkName rl) "" then ret None
                        else installSymlink rl filename) w1))).
  { destruct (String.eqb (linkName rl) "");
      [apply quiet_refl | apply installSymlink_spec]. }
  destruct ((if String.eqb (linkName rl) "" then ret None
             else installSymlink rl filename) w1) as [[e1|] w2];
    cbn [fst snd] in *; destruct Hs as [_ Hg].
  - cbn. intros _. exact Hg.
  - destruct (purge_cases rl w2) as (_ & Hc).
    destruct (purge rl w2) as [r w3]. cbn [fst snd] in *.
    cbn. intros H. subst r.
    subst w1. cbn [goroutines] in Hg.
    destruct Hc as [(_ & _ & G)|[(_ & _ & G)|(_ & R & _)]];
      [congruence | congruence | discriminate R].
Qed.

(** The outcomes of the lines from [fileutil.CreateFile] on. *)
Lemma openAndAdopt_cases rl bail previousFn baseFn filename gen w :
  let r := openAndAdopt rl bail previousFn baseFn filename gen w in
  let w1 := created filename w in
  match fst (fileutil_CreateFile filename (fs w)) with
  | inl errno =>
      r = (rl, Err (errors_Wrap (PathError "open" filename errno)
                      ("failed to create a new file " ++ filename)), w1)
  | inr fh =>
      let w2 := snd (rotateNolock rl filename w1) in
      let finish (w3 : World) :=
        snd ((match eventHandler rl with
              | Some h => go (GoHandle h (mkEvent previousFn filename))
              | None => ret tt
              end) (snd (Close_File (outFh rl) w3))) in
      match fst (rotateNolock rl filename w1) with
      | Some err0 =>
          let err := errors_Wrap err0 "failed to rotate" in
          if bail
          then r = (rl, Err err, snd (Close_File (Some fh) w2))
          else r = (adopted rl fh baseFn filename gen, Ok (Some fh),
                    finish (snd (Fprintf_Stderr err w2)))
      | None =>
          r = (adopted rl fh baseFn filename gen, Ok (Some fh), finish w2)
      end
  end.
Proof.
  cbv zeta. unfold openAndAdopt, created.
  rewrite bind_run, CreateFile_run.
  destruct (fileutil_CreateFile filename (fs w)) as [[errno|fh] s1];
    cbn [fst snd pathResult]; [reflexivity|].
  rewrite bind_run.
  destruct (rotateNolock rl filename _) as [[err0|] w2]; cbn [fst snd].
  - destruct bail; rewrite !bind_run; reflexivity.
  - rewrite !bind_run. reflexivity.
Qed.

End Adoption.

(** ** The trace of [rotateNolock] *)

Section MoreTraces.
Context {P : Platform}.

Lemma logged_traceGrows c w : traceGrows w (logged c w).
Proof. exists [c]. reflexivity. Qed.

Lemma resolveName_traceGrows fuel rl force baseFn g w :
  traceGrows w (snd (resolveName fuel rl force baseFn g w)).
Proof.
  unfold resolveName. destruct force; [|apply traceGrows_refl].
  rewrite bind_run.
  pose proof (readOnly_traceGrows _ _ (probeLoop_readOnly fuel rl baseFn g w))
    as H.
  destruct (probeLoop fuel rl baseFn g w) as [[[f g']|] w1]; exact H.
Qed.

Lemma decide_traceGrows fuel rl useGen w :
  traceGrows w (snd (decide fuel rl useGen w)).
Proof.
  unfold decide. rewrite !bind_run, Stat_run. cbn [fst snd].
  pose proof (clock_Now_traceGrows (clock rl) w) as Q0.
  set (w0 := snd (clock_Now (clock rl) w)) in *.
  set (baseFn := fileutil_GenerateFn _ _ _).
  assert (Q1 : traceGrows w (logged (SysStat (curFn rl)) w0)).
  { eapply traceGrows_trans; [exact Q0 | apply logged_traceGrows]. }
  set (w1 := logged (SysStat (curFn rl)) w0) in *.
  destruct (negb (String.eqb baseFn (curBaseFn rl))).
  - destruct (String.eqb (curBaseFn rl) "").
    + rewrite bind_run, Glob_run. cbn [fst snd].
      assert (Q2 : traceGrows w (logged (SysGlob (globPattern rl)) w1)).
      { eapply traceGrows_trans; [exact Q1 | apply logged_traceGrows]. }
      destruct (filepath_Glob (globPattern rl) (fs w1)) as [matches|];
        [|exact Q2].
      rewrite bind_run.
      pose proof (readOnly_traceGrows _ _
                    (scanLoop_readOnly matches (generation rl) 0
                       (logged (SysGlob (globPattern rl)) w1))) as Q3.
      destruct (scanLoop matches (generation rl) 0
                  (logged (SysGlob (globPattern rl)) w1)) as [r w2].
      cbn [fst snd] in *.
      eapply traceGrows_trans; [|apply resolveName_traceGrows].
      eapply traceGrows_trans; eassumption.
    + eapply traceGrows_trans; [exact Q1 | apply resolveName_traceGrows].
  - destruct (negb useGen && negb _); [exact Q1|].
    eapply traceGrows_trans; [exact Q1 | apply resolveName_traceGrows].
Qed.

Lemma installSymlink_traceGrows rl filename w :
  traceGrows w (snd (installSymlink rl filename w)).
Proof.
  unfold installSymlink.
  destruct (if strings.Contains (linkName rl) (filepath_Dir filename)
            then filepath_Rel (filepath_Dir (linkName rl)) filename
            else inr filename) as [msg|linkDest];
    [apply traceGrows_refl|].
  unfold bind, Symlink, Stat, MkdirAll, Rename, sys, ret.
  cbn [fst snd fs trace stderr goroutines wall wallReads clockReads].
  destruct (os_Symlink linkDest (filename ++ "_symlink") (fs w)) as [[e1|] s1];
    cbn [fst snd fs trace stderr goroutines wall wallReads clockReads pathError].
  { eexists. cbn. reflexivity. }
  destruct (os_Stat (filepath_Dir (linkName rl)) s1) as [e2|fi];
    cbn [fst snd fs trace stderr goroutines wall wallReads clockReads pathResult].
  - destruct (os_MkdirAll (filepath_Dir (linkName rl)) s1) as [[e3|] s3];
      cbn [fst snd fs trace stderr goroutines wall wallReads clockReads pathError].
    { eexists. cbn. rewrite <- !app_assoc. reflexivity. }
    destruct (os_Rename (filename ++ "_symlink") (linkName rl) s3)
      as [[e4|] s4];
      cbn [fst snd fs trace stderr goroutines wall wallReads clockReads pathError];
      eexists; cbn; rewrite <- !app_assoc; reflexivity.
  - destruct (os_Rename (filename ++ "_symlink") (linkName rl) s1)
      as [[e4|] s4];
      cbn [fst snd fs trace stderr goroutines wall wallReads clockReads pathError];
      eexists; cbn; rewrite <- !app_assoc; reflexivity.
Qed.

Lemma time_Now_traceGrows w : traceGrows w (snd (time_Now w)).
Proof. exists []. cbn. now rewrite app_nil_r. Qed.

Lemma go_traceGrows g w : traceGrows w (snd (go g w)).
Proof. exists []. cbn. now rewrite app_nil_r. Qed.

Lemma purge_traceGrows rl w : traceGrows w (snd (purge rl w)).
Proof.
  unfold purge.
  destruct ((maxAge rl <=? 0) && (rotationCount rl <=? 0)%N);
    [apply traceGrows_refl|].
  rewrite bind_run, Glob_run. cbn [fst snd].
  pose proof (logged_traceGrows (SysGlob (globPattern rl)) w) as Q0.
  destruct (filepath_Glob (globPattern rl) (fs w)) as [matches|]; [|exact Q0].
  rewrite bind_run.
  pose proof (clock_Now_traceGrows (clock rl)
                (logged (SysGlob (globPattern rl)) w)) as Q1.
  set (w1 := snd (clock_Now (clock rl) (logged (SysGlob (globPattern rl)) w)))
    in *.
  set (cutoff := time.Add _ _).
  rewrite bind_run.
  pose proof (readOnly_traceGrows _ _
                (collectToUnlink_readOnly rl cutoff matches [] w1)) as Q2.
  destruct (collectToUnlink rl cutoff matches [] w1) as [toUnlink w2].
  cbn [fst snd] in *.
  assert (Q : traceGrows w w2).
  { eapply traceGrows_trans; [exact Q0|].
    eapply traceGrows_trans; eassumption. }
  rewrite bind_run.
  destruct (0 <? rotationCount rl)%N.
  - destruct (N.of_nat (Datatypes.length toUnlink) <=? rotationCount rl)%N;
      [exact Q|].
    rewrite !bind_run. cbn [fst snd ret].
    pose proof (readOnly_traceGrows _ _
                  (oldestLoop_readOnly toUnlink
                     (time.Unix (fst (time_Now w2))) "" (snd (time_Now w2))))
      as Q3.
    destruct (oldestLoop toUnlink (time.Unix (fst (time_Now w2))) ""
                (snd (time_Now w2))) as [f w3].
    cbn [fst snd] in *.
    eapply traceGrows_trans; [exact Q|].
    eapply traceGrows_trans; [apply time_Now_traceGrows|].
    eapply traceGrows_trans; [exact Q3|]. apply go_traceGrows.
  - cbn [fst snd ret]. rewrite bind_run.
    eapply traceGrows_trans; [exact Q | apply go_traceGrows].
Qed.

(** The lock marker is released on every path that took it: the last
    two calls close its handle and remove it. *)
Lemma rotateNolock_releases rl filename w fh :
  fst (os_OpenFile_excl (filename ++ "_lock") (fs w)) = inr fh ->
  exists calls,
    trace (snd (rotateNolock rl filename w))
    = (trace w ++ SysOpenExcl (filename ++ "_lock") :: calls
         ++ [SysClose fh; SysRemove (filename ++ "_lock")])%list.
Proof.
  intros Hl. unfold rotateNolock.
  rewrite bind_run, OpenFile_excl_run.
  destruct (os_OpenFile_excl (filename ++ "_lock") (fs w)) as [l s1].
  cbn [fst snd] in *. subst l. cbn [pathResult].
  set (w1 := mkWorld s1 _ _ _ _ _ _).
  rewrite bind_run.
  set (body := bind (if String.eqb (linkName rl) "" then ret None
                     else installSymlink rl filename) _).
  assert (Hb : traceGrows w1 (snd (body w1))).
  { subst body. rewrite bind_run.
    assert (Hs : traceGrows w1
                   (snd ((if String.eqb (linkName rl) "" then ret None
                          else installSymlink rl filename) w1))).
    { destruct (String.eqb (linkName rl) "");
        [apply traceGrows_refl | apply installSymlink_traceGrows]. }
    destruct ((if String.eqb (linkName rl) "" then ret None
               else installSymlink rl filename) w1) as [[e|] w2];
      cbn [fst snd] in *; [exact Hs|].
    eapply traceGrows_trans; [exact Hs | apply purge_traceGrows]. }
  destruct (body w1) as [r w2]. cbn [fst snd] in *.
  destruct Hb as [calls Hc]. exists calls.
  rewrite !bind_run. cbn. rewrite Hc. subst w1. cbn.
  rewrite <- !app_assoc. reflexivity.
Qed.

Lemma rotateNolock_traceGrows rl filename w :
  traceGrows w (snd (rotateNolock rl filename w)).
Proof.
  destruct (fst (os_OpenFile_excl (filename ++ "_lock") (fs w))) as [errno|fh]
    eqn:E.
  - unfold rotateNolock. rewrite bind_run, OpenFile_excl_run, E.
    cbn. eexists. reflexivity.
  - destruct (rotateNolock_releases rl filename w fh E) as [calls H].
    eexists. rewrite H. reflexivity.
Qed.

End MoreTraces.

(** ** Errors, adoption and the handler *)

Section AcquisitionOutcomes.
Context {P : Platform}.

Lemma rotateNolock_stderr rl filename w :
  stderr (snd (rotateNolock rl filename w)) = stderr w.
Proof. apply rotateNolock_cases. Qed.

Lemma rotateNolock_goroutines rl filename w :
  exists removals,
    goroutines (snd (rotateNolock rl filename w))
    = (goroutines w ++ removals)%list
    /\ (removals = [] \/ exists f, removals = [GoRemove f]).
Proof.
  destruct (rotateNolock_cases rl filename w) as (_ & _ & [H|(f & H & _)]).
  - exists []. rewrite app_nil_r. auto.
  - exists [GoRemove f]. split; [exact H|]. right. now exists f.
Qed.

(** X9. An acquisition that returns an error leaves the receiver as it
    was, starts no goroutine and prints nothing.  The error is the failed
    glob of the first acquisition, the failed creation of the target, or,
    when the caller asked to bail out, the failed rotation. *)
Theorem acquisition_error_changes_nothing fuel rl bail useGen w rl' e :
  fst (getWriterNolock fuel rl bail useGen w) = Some (rl', Err e) ->
  rl' = rl
  /\ goroutines (snd (getWriterNolock fuel rl bail useGen w)) = goroutines w
  /\ stderr (snd (getWriterNolock fuel rl bail useGen w)) = stderr w
  /\ (e = errors_Wrap ErrBadPattern
            ("failed to glob directory " ++ globPattern rl)
      \/ (exists name errno,
             e = errors_Wrap (PathError "open" name errno)
                   ("failed to create a new file " ++ name))
      \/ (bail = true /\ exists e0, e = errors_Wrap e0 "failed to rotate")).
Proof.
  unfold getWriterNolock. rewrite bind_run.
  destruct (decide_spec fuel rl useGen w) as [[Qe Qg] _].
  assert (Hglob : forall err,
             fst (decide fuel rl useGen w) = Some (GlobFailed err) ->
             err = errors_Wrap ErrBadPattern
                     ("failed to glob directory " ++ globPattern rl)).
  { intros err. unfold decide. rewrite !bind_run, Stat_run. cbn [fst snd].
    destruct (negb _).
    - destruct (String.eqb (curBaseFn rl) "").
      + rewrite bind_run, Glob_run. cbn [fst snd].
        destruct (filepath_Glob _ _) as [matches|].
        * rewrite bind_run. intros H.
          exfalso. eapply resolveName_spec. exact H.
        * cbn. intros H. now inversion H.
      + intros H. exfalso. eapply resolveName_spec. exact H.
    - destruct (negb useGen && negb _); [cbn; discriminate|].
      intros H. exfalso. eapply resolveName_spec. exact H. }
  destruct (decide fuel rl useGen w) as [[d|] w1]; cbn [fst snd] in *;
    [|cbn; discriminate].
  destruct d as [|err|baseFn filename g].
  - cbn. discriminate.
  - cbn. intros H. inversion H; subst.
    split; [reflexivity|]. split; [exact Qg|]. split; [exact Qe|].
    left. now apply Hglob.
  - rewrite bind_run.
    pose proof (openAndAdopt_cases rl bail (curFn rl) baseFn filename g w1)
      as Hc. cbv zeta in Hc.
    pose proof (rotateNolock_error_quiet rl filename (created filename w1))
      as Hq.
    pose proof (rotateNolock_stderr rl filename (created filename w1)) as Hs.
    destruct (fst (fileutil_CreateFile filename (fs w1))) as [errno|fh].
    + rewrite Hc. cbn. intros H. inversion H; subst.
      split; [reflexivity|]. split; [exact Qg|]. split; [exact Qe|].
      right; left. eauto.
    + destruct (fst (rotateNolock rl filename (created filename w1)))
        as [err0|].
      * destruct bail; rewrite Hc; cbn; intros H; inversion H; subst.
        split; [reflexivity|].
        rewrite (Hq err0 eq_refl), Hs. cbn.
        split; [exact Qg|]. split; [exact Qe|].
        right; right. split; [reflexivity|]. eauto.
      * rewrite Hc. cbn. discriminate.
Qed.

(** X10. An acquisition that resolved a target and succeeds returns the
    handle [fileutil.CreateFile] gave for it and adopts it: handle, base
    filename, filename and generation are those of the target.  After at
    most one removal started by the purge, it starts the handler, if there
    is one, exactly once, with the previous and the new filename; the
    last file-system call closes the previous handle, if there was one. *)
Theorem rotation_adopts_and_notifies
    fuel rl bail useGen w baseFn filename gen rl' out :
  fst (decide fuel rl useGen w) = Some (Target baseFn filename gen) ->
  fst (getWriterNolock fuel rl bail useGen w) = Some (rl', Ok out) ->
  exists fh,
    fst (fileutil_CreateFile filename (fs (snd (decide fuel rl useGen w))))
    = inr fh
    /\ out = Some fh
    /\ rl' = adopted rl fh baseFn filename gen
    /\ (exists removals,
          goroutines (snd (getWriterNolock fuel rl bail useGen w))
          = (goroutines w ++ removals
               ++ match eventHandler rl with
                  | Some h => [GoHandle h (mkEvent (curFn rl) filename)]
                  | None => []
                  end)%list
          /\ (removals = [] \/ exists f, removals = [GoRemove f]))
    /\ (exists calls,
          trace (snd (getWriterNolock fuel rl bail useGen w))
          = (trace w ++ calls
               ++ match outFh rl with
                  | Some old => [SysClose old]
                  | None => []
                  end)%list).
Proof.
  intros Hd. unfold getWriterNolock. rewrite bind_run.
  destruct (decide_spec fuel rl useGen w) as [[Qe Qg] _].
  destruct (decide_traceGrows fuel rl useGen w) as [c0 Qt].
  destruct (decide fuel rl useGen w) as [d w1]. cbn [fst snd] in *.
  subst d. rewrite bind_run.
  pose proof (openAndAdopt_cases rl bail (curFn rl) baseFn filename gen w1)
    as Hc. cbv zeta in Hc.
  destruct (rotateNolock_goroutines rl filename (created filename w1))
    as (removals & Hrem & Hone).
  destruct (rotateNolock_traceGrows rl filename (created filename w1))
    as [c1 Ht].
  destruct (fst (fileutil_CreateFile filename (fs w1))) as [errno|fh].
  { rewrite Hc. cbn. discriminate. }
  assert (Hfin : forall w3,
    goroutines w3 = goroutines (snd (rotateNolock rl filename
                                       (created filename w1))) ->
    trace w3 = trace (snd (rotateNolock rl filename (created filename w1))) ->
    let wf := snd ((match eventHandler rl with
                    | Some h => go (GoHandle h (mkEvent (curFn rl) filename))
                    | None => ret tt
                    end) (snd (Close_File (outFh rl) w3))) in
    (exists removals0,
        goroutines wf
        = (goroutines w ++ removals0
             ++ match eventHandler rl with
                | Some h => [GoHandle h (mkEvent (curFn rl) filename)]
                | None => []
                end)%list
        /\ (removals0 = [] \/ exists f, removals0 = [GoRemove f]))
    /\ (exists calls,
          trace wf
          = (trace w ++ calls
               ++ match outFh rl with
                  | Some old => [SysClose old]
                  | None => []
                  end)%list)).
  { intros w3 Hg3 Ht3. cbv zeta. split.
    - exists removals. split; [|exact Hone].
      destruct (outFh rl); destruct (eventHandler rl); cbn;
        rewrite Hg3, Hrem; cbn; rewrite Qg, ?app_nil_r, <- ?app_assoc;
        reflexivity.
    - exists (c0 ++ SysCreateFile filename :: c1)%list.
      destruct (outFh rl); destruct (eventHandler rl); cbn;
        rewrite Ht3, Ht; cbn; rewrite Qt, ?app_nil_r, <- ?app_assoc;
        cbn; rewrite <- ?app_assoc; reflexivity. }
  destruct (fst (rotateNolock rl filename (created filename w1))) as [err0|].
  - destruct bail; rewrite Hc; cbn [fst snd]; [cbn; discriminate|].
    intros H. inversion H; subst. exists fh.
    split; [reflexivity|]. split; [reflexivity|]. split; [reflexivity|].
    apply Hfin; reflexivity.
  - rewrite Hc. cbn [fst snd]. intros H. inversion H; subst. exists fh.
    split; [reflexivity|]. split; [reflexivity|]. split; [reflexivity|].
    apply Hfin; reflexivity.
Qed.

(** X11. When [rotateNolock] fails for a target that was created,
    whatever the failure: a caller that bails out ([Rotate]) gets the
    error under "failed to rotate" and the receiver as it was, nothing is
    printed, and the last file-system call closes the new handle; a
    caller that does not ([Write]) gets the new handle, adopted, and the
    error is printed to the standard error. *)
Theorem rotate_failure_policy
    fuel rl useGen w baseFn filename gen fh err0 :
  fst (decide fuel rl useGen w) = Some (Target baseFn filename gen) ->
  let w1 := snd (decide fuel rl useGen w) in
  fst (fileutil_CreateFile filename (fs w1)) = inr fh ->
  fst (rotateNolock rl filename (created filename w1)) = Some err0 ->
  let err := errors_Wrap err0 "failed to rotate" in
  (let r := getWriterNolock fuel rl true useGen w in
   fst r = Some (rl, Err err)
   /\ stderr (snd r) = stderr w
   /\ exists calls, trace (snd r) = (trace w ++ calls ++ [SysClose fh])%list)
  /\ (let r := getWriterNolock fuel rl false useGen w in
      fst r = Some (adopted rl fh baseFn filename gen, Ok (Some fh))
      /\ stderr (snd r) = (stderr w ++ [err])%list).
Proof.
  intros Hd. cbv zeta. intros Hcr Hrot.
  destruct (decide_spec fuel rl useGen w) as [[Qe Qg] _].
  destruct (decide_traceGrows fuel rl useGen w) as [c0 Qt].
  unfold getWriterNolock. rewrite !bind_run.
  destruct (decide fuel rl useGen w) as [d w1]. cbn [fst snd] in *.
  subst d. rewrite !bind_run.
  pose proof (rotateNolock_stderr rl filename (created filename w1)) as Hs.
  destruct (rotateNolock_traceGrows rl filename (created filename w1))
    as [c1 Ht].
  split.
  - pose proof (openAndAdopt_cases rl true (curFn rl) baseFn filename gen w1)
      as Hc. cbv zeta in Hc. rewrite Hcr, Hrot in Hc. rewrite Hc.
    cbn [fst snd]. split; [reflexivity|]. split.
    + cbn. rewrite Hs. cbn. exact Qe.
    + exists (c0 ++ SysCreateFile filename :: c1)%list.
      cbn. rewrite Ht. cbn. rewrite Qt, <- ?app_assoc. cbn.
      rewrite <- ?app_assoc. reflexivity.
  - pose proof (openAndAdopt_cases rl false (curFn rl) baseFn filename gen w1)
      as Hc. cbv zeta in Hc. rewrite Hcr, Hrot in Hc. rewrite Hc.
    cbn [fst snd]. split; [reflexivity|].
    destruct (outFh rl); destruct (eventHandler rl); cbn;
      rewrite Hs; cbn; rewrite Qe; reflexivity.
Qed.

End AcquisitionOutcomes.

(** ** The file-system calls of an acquisition *)

Section Emits.
Context {P : Platform}.

Lemma emits_ret {A} Q (a : A) : emits Q (ret a).
Proof. intros w. exists []. cbn. rewrite app_nil_r. auto. Qed.

Lemma emits_bind {A B} Q (m : M A) (k : A -> M B) :
  emits Q m -> (forall a, emits Q (k a)) -> emits Q (bind m k).
Proof.
  intros Hm Hk w. rewrite bind_run.
  destruct (Hm w) as (c1 & H1 & F1).
  destruct (Hk (fst (m w)) (snd (m w))) as (c2 & H2 & F2).
  exists (c1 ++ c2)%list. split.
  - rewrite H2, H1. now rewrite app_assoc.
  - apply Forall_app. auto.
Qed.

Lemma emits_sys {A} (Q : Syscall -> Prop) c (op : FSt -> A * FSt) :
  Q c -> emits Q (sys c op).
Proof. intros H w. exists [c]. cbn. auto. Qed.

Lemma emits_weaken {A} (Q R : Syscall -> Prop) (m : M A) :
  (forall c, Q c -> R c) -> emits Q m -> emits R m.
Proof.
  intros H Hm w. destruct (Hm w) as (c & E & F). exists c. split; [exact E|].
  eapply Forall_impl; eassumption.
Qed.

Lemma emits_time_Now Q : emits Q time_Now.
Proof. intros w. exists []. cbn. rewrite app_nil_r. auto. Qed.

Lemma emits_clock_Now Q c : emits Q (clock_Now c).
Proof.
  destruct c; intros w; exists []; cbn; rewrite app_nil_r; auto.
Qed.

Lemma emits_go Q g : emits Q (go g).
Proof. intros w. exists []. cbn. rewrite app_nil_r. auto. Qed.

Lemma emits_Fprintf Q e : emits Q (Fprintf_Stderr e).
Proof. intros w. exists []. cbn. rewrite app_nil_r. auto. Qed.

Lemma emits_Close_File (Q : Syscall -> Prop) f :
  (forall fh, Q (SysClose fh)) -> emits Q (Close_File f).
Proof.
  intros H. destruct f; [apply emits_sys, H | apply emits_ret].
Qed.

Lemma emits_scanLoop matches : forall g m, emits isRead (scanLoop matches g m).
Proof.
  induction matches as [|path rest IH]; intros g m; cbn [scanLoop].
  - apply emits_ret.
  - destruct (negb _); [apply IH|].
    apply emits_bind; [apply emits_sys; exact I|].
    intros [fi|e]; [|apply IH]. destruct (_ <=? _); apply IH.
Qed.

Lemma emits_probeLoop fuel rl filename :
  forall g, emits isRead (probeLoop fuel rl filename g).
Proof.
  induction fuel as [|fuel IH]; intros g; cbn [probeLoop].
  - apply emits_ret.
  - apply emits_bind; [apply emits_sys; exact I|].
    intros st. destruct (match st with Ok _ => _ | Err _ => _ end);
      [apply emits_ret | apply IH].
Qed.

Lemma emits_collectToUnlink rl cutoff matches :
  forall acc, emits isRead (collectToUnlink rl cutoff matches acc).
Proof.
  induction matches as [|path rest IH]; intros acc; cbn [collectToUnlink].
  - apply emits_ret.
  - destruct (_ || _); [apply IH|].
    apply emits_bind; [apply emits_sys; exact I|].
    intros [fi|e]; [|apply IH].
    apply emits_bind; [apply emits_sys; exact I|].
    intros [fl|e]; [|apply IH].
    destruct (_ && _); [apply IH|]. destruct (_ && _); apply IH.
Qed.

Lemma emits_oldestLoop toUnlink :
  forall m f, emits isRead (oldestLoop toUnlink m f).
Proof.
  induction toUnlink as [|path rest IH]; intros m f; cbn [oldestLoop].
  - apply emits_ret.
  - apply emits_bind; [apply emits_sys; exact I|].
    intros [fi|e]; [|apply IH]. destruct (_ <? _); apply IH.
Qed.

Lemma isRead_housekeeping rl c : isRead c -> housekeeping rl c.
Proof. destruct c; cbn; tauto. Qed.

Lemma HasSuffix_app a b : strings.HasSuffix (a ++ b) b = true.
Proof.
  unfold strings.HasSuffix. rewrite length_append.
  replace (String.length a + String.length b - String.length b)%nat
    with (String.length a) by lia.
  rewrite substring_skip, String.eqb_refl.
  rewrite andb_true_r. apply Nat.leb_le. lia.
Qed.

Lemma emits_resolveName fuel rl force baseFn g :
  emits (housekeeping rl) (resolveName fuel rl force baseFn g).
Proof.
  unfold resolveName. destruct force; [|apply emits_ret].
  apply emits_bind.
  - eapply emits_weaken; [apply isRead_housekeeping | apply emits_probeLoop].
  - intros [[f g']|]; apply emits_ret.
Qed.

Lemma emits_decide fuel rl useGen :
  emits (housekeeping rl) (decide fuel rl useGen).
Proof.
  unfold decide.
  apply emits_bind; [apply emits_clock_Now|]. intros now.
  apply emits_bind; [apply emits_sys; exact I|]. intros st.
  destruct (negb _).
  - destruct (String.eqb _ _); [|apply emits_resolveName].
    apply emits_bind; [apply emits_sys; reflexivity|].
    intros [matches|e]; [|apply emits_ret].
    apply emits_bind; [|intros r; apply emits_resolveName].
    eapply emits_weaken; [apply isRead_housekeeping | apply emits_scanLoop].
  - destruct (_ && _); [apply emits_ret | apply emits_resolveName].
Qed.

Lemma emits_installSymlink rl filename :
  linkName rl <> "" ->
  emits (housekeeping rl) (installSymlink rl filename).
Proof.
  intros Hl. unfold installSymlink.
  destruct (if strings.Contains _ _ then _ else _) as [msg|linkDest];
    [apply emits_ret|].
  apply emits_bind.
  { apply emits_sys. split; [exact Hl | apply HasSuffix_app]. }
  intros [e1|]; [apply emits_ret|].
  apply emits_bind; [apply emits_sys; exact I|]. intros st.
  apply emits_bind.
  { destruct st; [apply emits_ret|]. apply emits_sys. split; auto. }
  intros [e2|]; [apply emits_ret|].
  apply emits_bind.
  { apply emits_sys. split; [exact Hl|]. split; [apply HasSuffix_app | auto]. }
  intros [e3|]; apply emits_ret.
Qed.

Lemma emits_purge rl : emits (housekeeping rl) (purge rl).
Proof.
  unfold purge. destruct (_ && _); [apply emits_ret|].
  apply emits_bind; [apply emits_sys; reflexivity|].
  intros [matches|e]; [|apply emits_ret].
  apply emits_bind; [apply emits_clock_Now|]. intros now.
  apply emits_bind.
  { eapply emits_weaken; [apply isRead_housekeeping|].
    apply emits_collectToUnlink. }
  intros toUnlink.
  apply emits_bind.
  - destruct (0 <? rotationCount rl)%N; [|apply emits_ret].
    destruct (_ <=? _)%N; [apply emits_ret|].
    apply emits_bind; [apply emits_time_Now|]. intros t.
    apply emits_bind; [|intros f; apply emits_ret].
    eapply emits_weaken; [apply isRead_housekeeping | apply emits_oldestLoop].
  - intros [f|]; [|apply emits_ret].
    apply emits_bind; [apply emits_go | intros _; apply emits_ret].
Qed.

Lemma emits_rotateNolock rl filename :
  emits (housekeeping rl) (rotateNolock rl filename).
Proof.
  unfold rotateNolock.
  apply emits_bind; [apply emits_sys; apply HasSuffix_app|].
  intros [fh|e]; [|apply emits_ret].
  apply emits_bind.
  - apply emits_bind.
    + destruct (String.eqb_spec (linkName rl) "") as [E|N];
        [apply emits_ret | now apply emits_installSymlink].
    + intros [e|]; [apply emits_ret | apply emits_purge].
  - intros r.
    apply emits_bind; [apply emits_Close_File; intros; exact I|]. intros _.
    apply emits_bind; [apply emits_sys; apply HasSuffix_app|]. intros _.
    apply emits_ret.
Qed.

Lemma emits_openAndAdopt rl bail previousFn baseFn filename g :
  emits (housekeeping rl) (openAndAdopt rl bail previousFn baseFn filename g).
Proof.
  unfold openAndAdopt.
  apply emits_bind; [apply emits_sys; exact I|].
  intros [fh|e]; [|apply emits_ret].
  apply emits_bind; [apply emits_rotateNolock|]. intros rot.
  apply emits_bind.
  - destruct rot as [err0|]; [|apply emits_ret].
    destruct bail.
    + apply emits_bind; [apply emits_Close_File; intros; exact I|].
      intros _. apply emits_ret.
    + apply emits_bind; [apply emits_Fprintf | intros _; apply emits_ret].
  - intros [err|]; [apply emits_ret|].
    apply emits_bind; [apply emits_Close_File; intros; exact I|]. intros _.
    apply emits_bind; [|intros _; apply emits_ret].
    destruct (eventHandler rl); [apply emits_go | apply emits_ret].
Qed.

Lemma emits_getWriterNolock fuel rl bail useGen :
  emits (housekeeping rl) (getWriterNolock fuel rl bail useGen).
Proof.
  unfold getWriterNolock.
  apply emits_bind; [apply emits_decide|].
  intros [[|err|baseFn filename g]|]; try apply emits_ret.
  apply emits_bind; [apply emits_openAndAdopt | intros r; apply emits_ret].
Qed.

Lemma getWriterNolock_started fuel rl bail useGen w :
  exists removals handlers,
    goroutines (snd (getWriterNolock fuel rl bail useGen w))
    = (goroutines w ++ removals ++ handlers)%list
    /\ (removals = []
        \/ exists f, removals = [GoRemove f]
                     /\ (rotationCount rl = 0%N -> f = ""))
    /\ (handlers = []
        \/ exists h filename,
             handlers = [GoHandle h (mkEvent (curFn rl) filename)]
             /\ eventHandler rl = Some h).
Proof.
  unfold getWriterNolock. rewrite bind_run.
  destruct (decide_spec fuel rl useGen w) as [[_ Qg] _].
  assert (Hnone : forall w', goroutines w' = goroutines w ->
            exists removals handlers,
              goroutines w' = (goroutines w ++ removals ++ handlers)%list
              /\ (removals = []
                  \/ exists f, removals = [GoRemove f]
                               /\ (rotationCount rl = 0%N -> f = ""))
              /\ (handlers = []
                  \/ exists h filename,
                       handlers = [GoHandle h (mkEvent (curFn rl) filename)]
                       /\ eventHandler rl = Some h)).
  { intros w' H. exists [], []. rewrite H, !app_nil_r. auto. }
  destruct (decide fuel rl useGen w) as [[d|] w1]; cbn [fst snd] in *;
    [|now apply Hnone].
  destruct d as [|err|baseFn filename g]; [now apply Hnone..|].
  rewrite bind_run.
  pose proof (openAndAdopt_cases rl bail (curFn rl) baseFn filename g w1)
    as Hc. cbv zeta in Hc.
  pose proof (rotateNolock_error_quiet rl filename (created filename w1))
    as Hq.
  destruct (rotateNolock_cases rl filename (created filename w1))
    as (_ & _ & Hrot).
  cbn [goroutines created] in Hq, Hrot.
  assert (Hrem : exists removals,
            goroutines (snd (rotateNolock rl filename (created filename w1)))
            = (goroutines w ++ removals)%list
            /\ (removals = []
                \/ exists f, removals = [GoRemove f]
                             /\ (rotationCount rl = 0%N -> f = ""))).
  { destruct Hrot as [H|(f & H & Hf)].
    - exists []. rewrite H, Qg, app_nil_r. auto.
    - exists [GoRemove f]. rewrite H, Qg. split; [reflexivity|].
      right. exists f. auto. }
  destruct Hrem as (removals & Hrem & Hone).
  assert (Hfin : forall w3,
    goroutines w3
    = goroutines (snd (rotateNolock rl filename (created filename w1))) ->
    exists removals0 handlers,
      goroutines
        (snd ((match eventHandler rl with
               | Some h => go (GoHandle h (mkEvent (curFn rl) filename))
               | None => ret tt
               end) (snd (Close_File (outFh rl) w3))))
      = (goroutines w ++ removals0 ++ handlers)%list
      /\ (removals0 = []
          \/ exists f, removals0 = [GoRemove f]
                       /\ (rotationCount rl = 0%N -> f = ""))
      /\ (handlers = []
          \/ exists h filename0,
               handlers = [GoHandle h (mkEvent (curFn rl) filename0)]
               /\ eventHandler rl = Some h)).
  { intros w3 H3. exists removals.
    destruct (eventHandler rl) as [h|] eqn:Eh.
    - exists [GoHandle h (mkEvent (curFn rl) filename)].
      split; [|split; [exact Hone|]].
      + destruct (outFh rl); cbn; rewrite H3, Hrem, <- app_assoc;
          reflexivity.
      + right. exists h, filename. auto.
    - exists []. split; [|split; [exact Hone | now left]].
      destruct (outFh rl); cbn; rewrite H3, Hrem, app_nil_r; reflexivity. }
  destruct (fst (fileutil_CreateFile filename (fs w1))) as [errno|fh].
  { rewrite Hc. cbn. now apply Hnone. }
  destruct (fst (rotateNolock rl filename (created filename w1)))
    as [err0|].
  - destruct bail; rewrite Hc; cbn [fst snd ret].
    + apply Hnone. cbn. rewrite (Hq err0 eq_refl). exact Qg.
    + apply Hfin. reflexivity.
  - rewrite Hc. cbn [fst snd ret]. apply Hfin. reflexivity.
Qed.

(** X8. What an acquisition does itself and what it leaves to
    goroutines.  The file-system calls it issues before it returns are
    housekeeping calls: none writes to a file; a name such a call
    removes ends in [_lock]; a rename moves a name ending in [_symlink]
    to [linkName]; without a link name there is no symbolic link, no
    directory made and no rename; every glob is of the receiver's glob
    pattern.  The removal of a log file is never among them: it is left
    to a goroutine.  The acquisition starts at most one removal, of the
    empty name when no rotation count is set, and after it at most one
    handler, the receiver's, with the current filename as the previous
    one. *)
Theorem acquisition_calls fuel rl bail useGen w :
  let r := getWriterNolock fuel rl bail useGen w in
  exists calls removals handlers,
    trace (snd r) = (trace w ++ calls)%list
    /\ Forall (housekeeping rl) calls
    /\ (forall fh, ~ In (SysWrite fh) calls)
    /\ (forall name, In (SysRemove name) calls ->
          strings.HasSuffix name "_lock" = true)
    /\ (forall a b, In (SysRename a b) calls ->
          strings.HasSuffix a "_symlink" = true /\ b = linkName rl)
    /\ (forall pat, In (SysGlob pat) calls -> pat = globPattern rl)
    /\ (linkName rl = "" ->
        (forall a b, ~ In (SysSymlink a b) calls)
        /\ (forall a, ~ In (SysMkdirAll a) calls)
        /\ (forall a b, ~ In (SysRename a b) calls))
    /\ goroutines (snd r) = (goroutines w ++ removals ++ handlers)%list
    /\ (removals = []
        \/ exists f, removals = [GoRemove f]
                     /\ (rotationCount rl = 0%N -> f = ""))
    /\ (handlers = []
        \/ exists h filename,
             handlers = [GoHandle h (mkEvent (curFn rl) filename)]
             /\ eventHandler rl = Some h).
Proof.
  cbv zeta.
  destruct (emits_getWriterNolock fuel rl bail useGen w) as (calls & Ht & Hf).
  destruct (getWriterNolock_started fuel rl bail useGen w)
    as (removals & handlers & Hg & Hr & Hh).
  exists calls, removals, handlers.
  pose proof (proj1 (Forall_forall _ _) Hf) as Hin.
  split; [exact Ht|]. split; [exact Hf|].
  split; [|split; [|split; [|split; [|split]]]].
  - intros fh H. exact (Hin _ H).
  - intros name H. exact (Hin _ H).
  - intros a b H. destruct (Hin _ H) as (_ & H1 & H2). auto.
  - intros pat H. exact (Hin _ H).
  - intros E. split; [|split]; intros; intros H;
      apply Hin in H; cbn in H; tauto.
  - auto.
Qed.

End Emits.

(** ** [Write] and the buckets *)

Section WriteFacts.
Context {P : Platform}.

(** X7. [Write] acquires, then writes once.  The calls of the
    acquisition are housekeeping calls; when it returns a handle, the
    write to that handle is the last file-system call and its result is
    what [Write] returns; when it returns the cleared handle, nothing is
    written and the error is [os.ErrInvalid]; when it fails, nothing is
    written, the file system is as the acquisition left it, and the
    result is 0 and the error under "failed to acquite target
    io.Writer". *)
Theorem Write_writes_last fuel rl p w :
  let g := getWriterNolock fuel rl false false w in
  exists calls,
    Forall (housekeeping rl) calls
    /\ match fst g with
       | Some (rl', Ok (Some fh)) =>
           trace (snd (Write fuel rl p w))
           = (trace w ++ calls ++ [SysWrite fh])%list
           /\ fst (Write fuel rl p w)
              = Some (rl',
                      (fst (fst (file_Write fh p (fs (snd g)))),
                       pathError "write" ""
                         (snd (fst (file_Write fh p (fs (snd g)))))))
       | Some (rl', Ok None) =>
           trace (snd (Write fuel rl p w)) = (trace w ++ calls)%list
           /\ fst (Write fuel rl p w) = Some (rl', (0, Some ErrInvalid))
       | Some (rl', Err err) =>
           trace (snd (Write fuel rl p w)) = (trace w ++ calls)%list
           /\ fs (snd (Write fuel rl p w)) = fs (snd g)
           /\ fst (Write fuel rl p w)
              = Some (rl',
                      (0, Some (errors_Wrap err
                                  "failed to acquite target io.Writer")))
       | None =>
           trace (snd (Write fuel rl p w)) = (trace w ++ calls)%list
           /\ fst (Write fuel rl p w) = None
       end.
Proof.
  cbv zeta. unfold Write. rewrite bind_run.
  destruct (emits_getWriterNolock fuel rl false false w) as (calls & Ht & Hf).
  exists calls. split; [exact Hf|].
  destruct (getWriterNolock fuel rl false false w) as [[[rl' [[fh|]|err]]|] w1];
    cbn [fst snd] in *.
  - rewrite bind_run. cbn. rewrite Ht, <- app_assoc. auto.
  - rewrite bind_run. cbn. auto.
  - cbn. auto.
  - cbn. auto.
Qed.

Lemma decide_cases fuel rl useGen w :
  let baseFn := fileutil_GenerateFn (pattern rl) (fst (clock_Now (clock rl) w))
                  (rotationTime rl) in
  let w0 := logged (SysStat (curFn rl)) (snd (clock_Now (clock rl) w)) in
  decide fuel rl useGen w
  = if negb (String.eqb baseFn (curBaseFn rl)) then
      if String.eqb (curBaseFn rl) "" then
        match filepath_Glob (globPattern rl) (fs w) with
        | None =>
            (Some (GlobFailed
                     (errors_Wrap ErrBadPattern
                        ("failed to glob directory " ++ globPattern rl))),
             logged (SysGlob (globPattern rl)) w0)
        | Some matches =>
            let r := scanLoop matches (generation rl) 0
                       (logged (SysGlob (globPattern rl)) w0) in
            resolveName fuel rl true baseFn (fst (fst r)) (snd r)
        end
      else resolveName fuel rl true baseFn 0 w0
    else
      if negb useGen
         && negb (sizeRotationOf rl
                    (pathResult "stat" (curFn rl) (os_Stat (curFn rl) (fs w))))
      then (Some Reuse, w0)
      else resolveName fuel rl true baseFn (wrap64 (generation rl + 1)) w0.
Proof.
  cbv zeta. destruct (clock_Now_frame (clock rl) w) as (F1 & _).
  unfold decide. rewrite !bind_run, Stat_run. cbn [fst snd].
  rewrite F1.
  destruct (negb _).
  - destruct (String.eqb _ _); [|reflexivity].
    rewrite bind_run, Glob_run. cbn [fst snd fs logged]. rewrite F1.
    destruct (filepath_Glob _ _); [|reflexivity].
    rewrite bind_run. reflexivity.
  - destruct (negb useGen && _); reflexivity.
Qed.

Lemma Reuse_outcome fuel rl bail useGen w :
  fst (decide fuel rl useGen w) = Some Reuse ->
  getWriterNolock fuel rl bail useGen w
  = (Some (rl, Ok (outFh rl)), snd (decide fuel rl useGen w)).
Proof.
  intros H. unfold getWriterNolock. rewrite bind_run.
  destruct (decide fuel rl useGen w) as [d w1]. cbn [fst snd] in *.
  subst d. reflexivity.
Qed.

(** X6. A [Write] after [Close] in the same bucket, when the size
    threshold does not force a rotation: the acquisition takes the path
    of "nothing to do" and returns the handle [Close] has cleared, so the
    call writes nothing and returns 0 and [os.ErrInvalid]; its one
    file-system call is the [os.Stat] of the current file, and the
    receiver stays without a handle. *)
Theorem Write_after_Close fuel rl p w :
  let rl1 := fst (fst (Close rl w)) in
  let w1 := snd (Close rl w) in
  fileutil_GenerateFn (pattern rl) (fst (clock_Now (clock rl) w1))
    (rotationTime rl) = curBaseFn rl ->
  (forall fi, os_Stat (curFn rl) (fs w1) = inr fi ->
              rotationSize rl <= 0 \/ Size fi < rotationSize rl) ->
  fst (Write fuel rl1 p w1) = Some (rl1, (0, Some ErrInvalid))
  /\ outFh rl1 = None
  /\ fs (snd (Write fuel rl1 p w1)) = fs w1
  /\ trace (snd (Write fuel rl1 p w1))
     = (trace w1 ++ [SysStat (curFn rl)])%list.
Proof.
  cbv zeta.
  set (rl1 := fst (fst (Close rl w))). set (w1 := snd (Close rl w)).
  assert (Hrl : outFh rl1 = None /\ curFn rl1 = curFn rl
                /\ curBaseFn rl1 = curBaseFn rl /\ samePolicy rl rl1).
  { subst rl1. unfold Close. destruct (outFh rl) eqn:E.
    - rewrite bind_run. cbn. repeat split.
    - cbn. repeat split; try assumption. }
  destruct Hrl as (Ho & Hc & Hb & Hp).
  destruct Hp as (P1 & _ & _ & _ & _ & P6 & P7 & P8 & _).
  clearbody rl1 w1. intros Hbase Hsize.
  destruct (clock_Now_frame (clock rl1) w1) as (F1 & F2 & _).
  assert (Hd : decide fuel rl1 false w1
               = (Some Reuse,
                  logged (SysStat (curFn rl1)) (snd (clock_Now (clock rl1) w1)))).
  { rewrite decide_cases. cbv zeta.
    rewrite P1, P6, P7, Hb, Hbase, String.eqb_refl. cbn [negb].
    rewrite Hc, sizeRotationOf_false; [reflexivity|].
    intros fi Hfi. rewrite P8. now apply Hsize. }
  unfold Write. rewrite bind_run.
  rewrite (Reuse_outcome fuel rl1 false false w1) by (now rewrite Hd).
  rewrite Hd. cbn [fst snd]. rewrite Ho. cbn.
  rewrite F1, F2, Hc. auto.
Qed.

(** X15. When the clock has moved to another bucket (the base filename
    generated differs from the recorded one, which is not empty), the
    acquisition probes the new base filename from generation 0, whatever
    the generation was, for [Write] and [Rotate] alike, without a glob:
    its only call before the probing is the [os.Stat] of the current
    file.  If the new base filename is free, it is the target. *)
Theorem new_bucket_restarts_generations fuel rl useGen w :
  let baseFn := fileutil_GenerateFn (pattern rl) (fst (clock_Now (clock rl) w))
                  (rotationTime rl) in
  let w0 := logged (SysStat (curFn rl)) (snd (clock_Now (clock rl) w)) in
  curBaseFn rl <> "" ->
  baseFn <> curBaseFn rl ->
  decide fuel rl useGen w = resolveName fuel rl true baseFn 0 w0
  /\ fs w0 = fs w
  /\ trace w0 = (trace w ++ [SysStat (curFn rl)])%list
  /\ ((0 < fuel)%nat ->
      (forall fi, os_Stat baseFn (fs w) = inr fi -> Size fi < rotationSize rl) ->
      fst (decide fuel rl useGen w) = Some (Target baseFn baseFn 0)).
Proof.
  cbv zeta. intros Hcur Hnew.
  destruct (clock_Now_frame (clock rl) w) as (F1 & F2 & _).
  assert (Hd : decide fuel rl useGen w
               = resolveName fuel rl true
                   (fileutil_GenerateFn (pattern rl)
                      (fst (clock_Now (clock rl) w)) (rotationTime rl)) 0
                   (logged (SysStat (curFn rl)) (snd (clock_Now (clock rl) w)))).
  { rewrite decide_cases. cbv zeta.
    destruct (String.eqb_spec
                (fileutil_GenerateFn (pattern rl)
                   (fst (clock_Now (clock rl) w)) (rotationTime rl))
                (curBaseFn rl)) as [E|_]; [contradiction|].
    destruct (String.eqb_spec (curBaseFn rl) "") as [E|_]; [contradiction|].
    reflexivity. }
  split; [exact Hd|]. split; [exact F1|].
  split; [cbn; now rewrite F2|].
  intros Hfuel Hfree. rewrite Hd. unfold resolveName. rewrite bind_run.
  rewrite (probeLoop_selects rl _ 0 fuel 0); cbn [fs logged].
  - reflexivity.
  - unfold minInt64. lia.
  - unfold maxInt64. lia.
  - intros i Hi. lia.
  - rewrite F1. exact Hfree.
  - exact Hfuel.
Qed.

Lemma bail_is_idle_on_success fuel rl useGen w rl' out :
  fst (getWriterNolock fuel rl true useGen w) = Some (rl', Ok out) ->
  getWriterNolock fuel rl false useGen w = getWriterNolock fuel rl true useGen w.
Proof.
  unfold getWriterNolock. rewrite !bind_run.
  destruct (decide fuel rl useGen w) as [[d|] w1]; cbn [fst snd];
    [|reflexivity].
  destruct d as [|err|baseFn filename g]; [reflexivity | reflexivity |].
  rewrite !bind_run.
  pose proof (openAndAdopt_cases rl true (curFn rl) baseFn filename g w1)
    as Ht. cbv zeta in Ht.
  pose proof (openAndAdopt_cases rl false (curFn rl) baseFn filename g w1)
    as Hf. cbv zeta in Hf.
  destruct (fst (fileutil_CreateFile filename (fs w1))) as [errno|fh].
  { rewrite Ht, Hf. reflexivity. }
  destruct (fst (rotateNolock rl filename (created filename w1))) as [err0|].
  - rewrite Ht. cbn. discriminate.
  - rewrite Ht, Hf. reflexivity.
Qed.

(** X16. Once the current file has reached the size threshold, the flag
    [useGenerationalNames] makes no difference in the same bucket: with
    or without it the acquisition goes on from the next generation, so
    the acquisition of [Write] resolves the target that of [Rotate]
    resolves.  The two acquisitions still differ in [bailOnRotateFail]:
    they are the same acquisition when that of [Rotate] succeeds, and
    need not be when [rotateNolock] fails. *)
Theorem full_file_write_rotates fuel rl bail w fi :
  fileutil_GenerateFn (pattern rl) (fst (clock_Now (clock rl) w))
    (rotationTime rl) = curBaseFn rl ->
  os_Stat (curFn rl) (fs w) = inr fi ->
  0 < rotationSize rl <= Size fi ->
  getWriterNolock fuel rl bail false w = getWriterNolock fuel rl bail true w
  /\ (exists w0,
        fs w0 = fs w
        /\ decide fuel rl false w
           = resolveName fuel rl true (curBaseFn rl)
               (wrap64 (generation rl + 1)) w0)
  /\ decide fuel rl false w = decide fuel rl true w
  /\ (forall rl' out,
        fst (getWriterNolock fuel rl true true w) = Some (rl', Ok out) ->
        getWriterNolock fuel rl false false w
        = getWriterNolock fuel rl true true w).
Proof.
  intros Hb Hs [Hpos Hfull].
  destruct (clock_Now_frame (clock rl) w) as (F1 & _).
  assert (Hsz : sizeRotationOf rl
                  (pathResult "stat" (curFn rl) (os_Stat (curFn rl) (fs w)))
                = true).
  { rewrite Hs. cbn. apply andb_true_intro. split.
    - now apply Z.ltb_lt.
    - now apply Z.leb_le. }
  assert (Hd : forall useGen,
             decide fuel rl useGen w
             = resolveName fuel rl true (curBaseFn rl)
                 (wrap64 (generation rl + 1))
                 (logged (SysStat (curFn rl)) (snd (clock_Now (clock rl) w)))).
  { intros useGen. rewrite decide_cases. cbv zeta.
    rewrite Hb, String.eqb_refl, Hsz. cbn [negb].
    rewrite andb_false_r. reflexivity. }
  assert (Hg : forall b,
             getWriterNolock fuel rl b false w
             = getWriterNolock fuel rl b true w).
  { intros b. unfold getWriterNolock. rewrite !bind_run, !Hd. reflexivity. }
  split; [apply Hg|]. split; [|split].
  - eexists. split; [|apply Hd]. exact F1.
  - now rewrite !Hd.
  - intros rl' out H. rewrite Hg.
    eapply bail_is_idle_on_success. exact H.
Qed.

(** X17. On the first acquisition, when the glob lists no name that
    carries the marker [rotation]: the scan issues no call, and the
    probing starts at generation 0 if the glob listed a name, and at the
    receiver's generation if it listed none. *)
Theorem first_acquisition_without_marked_files fuel rl useGen w matches :
  let baseFn := fileutil_GenerateFn (pattern rl) (fst (clock_Now (clock rl) w))
                  (rotationTime rl) in
  curBaseFn rl = "" ->
  baseFn <> "" ->
  filepath_Glob (globPattern rl) (fs w) = Some matches ->
  (forall q, In q matches -> strings.Contains q "rotation" = false) ->
  exists w1,
    fs w1 = fs w
    /\ trace w1
       = (trace w ++ [SysStat (curFn rl); SysGlob (globPattern rl)])%list
    /\ decide fuel rl useGen w
       = resolveName fuel rl true baseFn
           (match matches with [] => generation rl | _ => 0 end) w1.
Proof.
  cbv zeta. intros Hcur Hbase Hglob Hnone.
  destruct (clock_Now_frame (clock rl) w) as (F1 & F2 & _).
  rewrite decide_cases. cbv zeta. rewrite Hcur.
  destruct (String.eqb_spec
              (fileutil_GenerateFn (pattern rl)
                 (fst (clock_Now (clock rl) w)) (rotationTime rl)) "")
    as [E|_]; [contradiction|].
  cbn [negb String.eqb]. rewrite Hglob.
  set (w0 := logged (SysGlob (globPattern rl))
               (logged (SysStat (curFn rl)) (snd (clock_Now (clock rl) w)))).
  assert (Hscan : forall l g,
             (forall q, In q l -> strings.Contains q "rotation" = false) ->
             scanLoop l g 0 w0
             = (match l with [] => g | _ => 0 end, 0, w0)).
  { induction l as [|q l IH]; intros g H; [reflexivity|].
    cbn [scanLoop]. rewrite (H q (or_introl eq_refl)). cbn [negb].
    rewrite IH by (intros q' Hq'; apply H; now right).
    destruct l; reflexivity. }
  rewrite (Hscan matches (generation rl) Hnone). cbn [fst snd].
  exists w0. split; [exact F1|]. split; [|reflexivity].
  subst w0. cbn. rewrite F2, <- app_assoc. reflexivity.
Qed.

(** X18. When the glob of the first acquisition fails, [Write] returns 0
    and [Rotate] returns the error, [filepath.ErrBadPattern] under "failed
    to glob directory"; the receiver is as it was, no file is created:
    the calls are the [os.Stat] of the current file and the glob, and the
    file system is untouched. *)
Theorem bad_glob_pattern_fails_first_write fuel rl p w :
  curBaseFn rl = "" ->
  fileutil_GenerateFn (pattern rl) (fst (clock_Now (clock rl) w))
    (rotationTime rl) <> "" ->
  filepath_Glob (globPattern rl) (fs w) = None ->
  let err := errors_Wrap ErrBadPattern
               ("failed to glob directory " ++ globPattern rl) in
  fst (Write fuel rl p w)
  = Some (rl, (0, Some (errors_Wrap err "failed to acquite target io.Writer")))
  /\ fst (Rotate fuel rl w) = Some (rl, Some err)
  /\ fs (snd (Write fuel rl p w)) = fs w
  /\ trace (snd (Write fuel rl p w))
     = (trace w ++ [SysStat (curFn rl); SysGlob (globPattern rl)])%list.
Proof.
  intros Hcur Hbase Hglob. cbv zeta.
  destruct (clock_Now_frame (clock rl) w) as (F1 & F2 & _).
  assert (Hd : forall useGen,
             decide fuel rl useGen w
             = (Some (GlobFailed
                        (errors_Wrap ErrBadPattern
                           ("failed to glob directory " ++ globPattern rl))),
                logged (SysGlob (globPattern rl))
                  (logged (SysStat (curFn rl))
                     (snd (clock_Now (clock rl) w))))).
  { intros useGen. rewrite decide_cases. cbv zeta. rewrite Hcur.
    destruct (String.eqb_spec
                (fileutil_GenerateFn (pattern rl)
                   (fst (clock_Now (clock rl) w)) (rotationTime rl)) "")
      as [E|_]; [contradiction|].
    cbn [negb String.eqb]. now rewrite Hglob. }
  unfold Write, Rotate, getWriterNolock. rewrite !bind_run, !Hd.
  cbn. rewrite F1, F2, <- app_assoc. auto.
Qed.

End WriteFacts.

(** ** The loop over the generations *)

Section Probe.
Context {P : Platform}.

Lemma wrap64_range z : int64_range (wrap64 z).
Proof.
  unfold int64_range, wrap64, minInt64, maxInt64.
  pose proof (Z.mod_pos_bound (z + 2 ^ 63) (2 ^ 64) ltac:(lia)). lia.
Qed.

(** What the loop returns is the name of the generation it returns, a
    name that cannot be read or is under the threshold. *)
Lemma probeLoop_name rl filename : forall fuel g w name g',
  fst (probeLoop fuel rl filename g w) = Some (name, g') ->
  name = generationName filename g'
  /\ (forall fi, os_Stat name (fs w) = inr fi -> Size fi < rotationSize rl)
  /\ (int64_range g -> int64_range g').
Proof.
  induction fuel as [|fuel IH]; intros g w name g'; cbn [probeLoop];
    [cbn; discriminate|].
  rewrite bind_run, Stat_run. cbn [fst snd].
  destruct (os_Stat (generationName filename g) (fs w)) as [e|fi] eqn:E;
    cbn [pathResult].
  - cbn. intros H. inversion H; subst. split; [reflexivity|].
    split; [|auto]. intros fi. rewrite E. discriminate.
  - destruct (Size fi <? rotationSize rl) eqn:Es.
    + cbn. intros H. inversion H; subst. split; [reflexivity|].
      split; [|auto]. intros fi'. rewrite E. intros H'. inversion H'; subst.
      now apply Z.ltb_lt.
    + intros H. destruct (IH _ _ _ _ H) as (H1 & H2 & H3).
      split; [exact H1|]. split; [exact H2|]. intros _. apply H3.
      apply wrap64_range.
Qed.

Lemma probeLoop_sound rl filename : forall fuel g w,
  minInt64 <= g -> g + Z.of_nat fuel <= maxInt64 ->
  match fst (probeLoop fuel rl filename g w) with
  | Some (name, g') =>
      exists k, (k < fuel)%nat /\ g' = g + Z.of_nat k
        /\ forall i, (i < k)%nat ->
             exists fi,
               os_Stat (generationName filename (g + Z.of_nat i)) (fs w)
               = inr fi
               /\ rotationSize rl <= Size fi
  | None =>
      forall i, (i < fuel)%nat ->
        exists fi,
          os_Stat (generationName filename (g + Z.of_nat i)) (fs w) = inr fi
          /\ rotationSize rl <= Size fi
  end.
Proof.
  induction fuel as [|fuel IH]; intros g w Hlo Hhi; cbn [probeLoop].
  - cbn. intros i Hi. lia.
  - rewrite bind_run, Stat_run. cbn [fst snd].
    destruct (os_Stat (generationName filename g) (fs w)) as [e|fi] eqn:E;
      cbn [pathResult].
    + cbn. exists 0%nat. split; [lia|]. split; [lia|]. intros i Hi. lia.
    + destruct (Size fi <? rotationSize rl) eqn:Es.
      * cbn. exists 0%nat. split; [lia|]. split; [lia|]. intros i Hi. lia.
      * apply Z.ltb_ge in Es.
        rewrite wrap64_id by (unfold int64_range; lia).
        specialize (IH (g + 1) (logged (SysStat (generationName filename g)) w)
                      ltac:(lia) ltac:(lia)).
        cbn [fs logged] in IH.
        assert (Hstep : forall i,
                   (exists fi0,
                       os_Stat (generationName filename
                                  (g + 1 + Z.of_nat i)) (fs w) = inr fi0
                       /\ rotationSize rl <= Size fi0) ->
                   exists fi0,
                     os_Stat (generationName filename
                                (g + Z.of_nat (S i))) (fs w) = inr fi0
                     /\ rotationSize rl <= Size fi0).
        { intros i. replace (g + Z.of_nat (S i)) with (g + 1 + Z.of_nat i)
            by lia. auto. }
        destruct (fst (probeLoop fuel rl filename (g + 1)
                         (logged (SysStat (generationName filename g)) w)))
          as [[name g']|].
        -- destruct IH as (k & Hk & Hg & Hall).
           exists (S k). split; [lia|]. split; [lia|].
           intros [|i] Hi.
           ++ exists fi. replace (g + Z.of_nat 0) with g by lia. auto.
           ++ apply Hstep, Hall. lia.
        -- intros [|i] Hi.
           ++ exists fi. replace (g + Z.of_nat 0) with g by lia. auto.
           ++ apply Hstep, IH. lia.
Qed.

(** X19. What the loop over the generations returns is the name of the
    generation it returns, and that name cannot be read or is a file
    under the threshold; without a threshold, and sizes being no less
    than 0, it cannot be read.  As long as the counter does not overflow,
    the generation is the first such from the start: every generation
    passed over is a file of at least the threshold's size. *)
Theorem probe_result_is_first_free fuel rl filename g w name g' :
  fst (probeLoop fuel rl filename g w) = Some (name, g') ->
  name = generationName filename g'
  /\ (forall fi, os_Stat name (fs w) = inr fi -> Size fi < rotationSize rl)
  /\ (rotationSize rl <= 0 ->
      (forall fi, os_Stat name (fs w) = inr fi -> 0 <= Size fi) ->
      exists errno, os_Stat name (fs w) = inl errno)
  /\ (minInt64 <= g -> g + Z.of_nat fuel <= maxInt64 ->
      exists k, (k < fuel)%nat /\ g' = g + Z.of_nat k
        /\ forall i, (i < k)%nat ->
             exists fi,
               os_Stat (generationName filename (g + Z.of_nat i)) (fs w)
               = inr fi
               /\ rotationSize rl <= Size fi).
Proof.
  intros H. destruct (probeLoop_name rl filename fuel g w name g' H)
    as (Hn & Hfree & _).
  split; [exact Hn|]. split; [exact Hfree|]. split.
  - intros Hz Hnn. destruct (os_Stat name (fs w)) as [errno|fi] eqn:E.
    + now exists errno.
    + specialize (Hfree fi eq_refl). specialize (Hnn fi eq_refl). lia.
  - intros Hlo Hhi. pose proof (probeLoop_sound rl filename fuel g w Hlo Hhi)
      as Hs. rewrite H in Hs. exact Hs.
Qed.

End Probe.

(** ** The names of the generations *)

Section Names.

Lemma append_inj_l a : forall b c, a ++ b = a ++ c -> b = c.
Proof.
  induction a as [|x a IH]; intros b c H; cbn in H; [exact H|].
  inversion H. now apply IH.
Qed.

Lemma append_longer a b : b <> "" -> a <> a ++ b.
Proof.
  intros Hb H. apply (f_equal String.length) in H.
  rewrite length_append in H. destruct b; [contradiction|]. cbn in H. lia.
Qed.

Lemma FormatInt_inj a b :
  strconv.FormatInt a = strconv.FormatInt b -> a = b.
Proof.
  unfold strconv.FormatInt. intros H.
  assert (Hn : forall z, Z.to_int z <> Decimal.Pos Decimal.Nil
                         /\ Z.to_int z <> Decimal.Neg Decimal.Nil).
  { intros [|p|p]; cbn; split; try discriminate;
      intros E; inversion E as [E'];
      exact (Unsigned.to_uint_nonnil p E'). }
  apply (f_equal NilZero.int_of_string) in H.
  rewrite !NilZero.isi in H by apply Hn.
  inversion H as [H'].
  rewrite <- (DecimalZ.of_to a), <- (DecimalZ.of_to b). now rewrite H'.
Qed.

Lemma generationName_inj filename a b :
  generationName filename a = generationName filename b -> a = b.
Proof.
  unfold generationName.
  destruct (a =? 0) eqn:Ea; destruct (b =? 0) eqn:Eb;
    try apply Z.eqb_eq in Ea; try apply Z.eqb_eq in Eb.
  - congruence.
  - intros H. exfalso. revert H. apply append_longer. discriminate.
  - intros H. exfalso. symmetry in H. revert H. apply append_longer.
    discriminate.
  - intros H. apply append_inj_l in H.
    apply (append_inj_l ".rotation.") in H. now apply FormatInt_inj.
Qed.

Lemma Atoi_FormatInt_neg n :
  minInt64 <= n < 0 -> strconv.Atoi (strconv.FormatInt n) = (n, None).
Proof.
  intros [Hlo Hhi]. destruct n as [|p|p]; try lia.
  unfold strconv.FormatInt. cbn [Z.to_int NilZero.string_of_int].
  pose proof (Unsigned.to_uint_nonnil p) as Hnil.
  pose proof (DecimalPos.Unsigned.of_to p) as Hof.
  assert (Hv : accValue (Pos.to_uint p) 0 = Z.pos p).
  { rewrite accValue_zero, Hof. reflexivity. }
  assert (Hp : strconv.parseUintLoop
                 (NilEmpty.string_of_uint (Pos.to_uint p)) 0
               = inr (Z.pos p)).
  { rewrite parseUintLoop_digits; [now rewrite Hv | lia |].
    rewrite Hv. unfold minInt64, maxUint64 in *. lia. }
  unfold NilZero.string_of_uint.
  destruct (Pos.to_uint p) eqn:E; [contradiction | ..];
    cbn [NilEmpty.string_of_uint] in *;
    unfold strconv.Atoi, strconv.ParseUint;
    cbv iota beta; rewrite Hp;
    (destruct (2 ^ 63 <? Z.pos p) eqn:E3;
     [apply Z.ltb_lt in E3; unfold minInt64 in Hlo; lia | reflexivity]).
Qed.

Lemma digits_of_negative n :
  n < 0 ->
  exists d, strconv.FormatInt n = String "-" (NilEmpty.string_of_uint d).
Proof.
  intros H. destruct n as [|p|p]; try lia.
  exists (Pos.to_uint p). unfold strconv.FormatInt.
  cbn [Z.to_int NilZero.string_of_int]. unfold NilZero.string_of_uint.
  pose proof (Unsigned.to_uint_nonnil p).
  destruct (Pos.to_uint p); [contradiction | reflexivity ..].
Qed.

(** X20. Generations and their names.  Two generations with the same
    name under one base filename are the same generation; the number the
    scan reads off the name of a generation other than 0, negative ones
    included, is that generation; such a name starts with the base
    filename and ends with [.rotation.] and the number. *)
Theorem generation_names_are_faithful filename :
  (forall a b,
      generationName filename a = generationName filename b -> a = b)
  /\ (forall n, n <> 0 -> int64_range n ->
        generationOf (generationName filename n) = n)
  /\ (forall n, n <> 0 ->
        strings.HasSuffix (generationName filename n)
          (".rotation." ++ strconv.FormatInt n) = true
        /\ String.prefix filename (generationName filename n) = true).
Proof.
  split; [|split].
  - apply generationName_inj.
  - intros n Hn [Hlo Hhi].
    destruct (Z.lt_total n 0) as [Hneg|[H0|Hpos]]; [|contradiction|].
    + unfold generationOf, generationName.
      destruct (n =? 0) eqn:E; [apply Z.eqb_eq in E; lia|].
      destruct (digits_of_negative n Hneg) as [d Hd].
      assert (Hdot : without "." (strconv.FormatInt n)).
      { rewrite Hd. cbn [without]. split; [discriminate|].
        apply digits_without_dot. }
      set (ds := strconv.FormatInt n) in *.
      assert (Hidx : strings.LastIndex (filename ++ ".rotation." ++ ds) "."
                     = Z.of_nat (String.length filename) + 9).
      { unfold strings.LastIndex.
        destruct (lastIndexFrom_app filename (".rotation." ++ ds) 0 (-1))
          as [acc' H].
        rewrite H, lastIndexFrom_rotation by exact Hdot. lia. }
      rewrite Hidx. unfold strings.sliceFrom.
      replace (filename ++ ".rotation." ++ ds)
        with ((filename ++ ".rotation.") ++ ds) by apply append_assoc.
      replace (Z.to_nat (Z.of_nat (String.length filename) + 9 + 1))
        with (String.length (filename ++ ".rotation.")).
      2:{ rewrite length_append. cbn [String.length]. lia. }
      replace (String.length ((filename ++ ".rotation.") ++ ds)
               - String.length (filename ++ ".rotation."))%nat
        with (String.length ds) by (rewrite (length_append _ ds); lia).
      rewrite substring_skip. subst ds. rewrite Atoi_FormatInt_neg; auto.
    + apply generationOf_generationName. auto.
  - intros n Hn. unfold generationName.
    destruct (n =? 0) eqn:E; [apply Z.eqb_eq in E; contradiction|].
    split; [apply HasSuffix_app|].
    generalize (".rotation." ++ strconv.FormatInt n). intros t.
    induction filename as [|c f IH]; cbn.
    + destruct t; reflexivity.
    + destruct (ascii_dec c c) as [_|N]; [exact IH | contradiction].
Qed.

End Names.

(** ** The current filename *)

Section Naming.
Context {P : Platform}.

Lemma parseUintLoop_nonneg s : forall n v,
  0 <= n -> strconv.parseUintLoop s n = inr v -> 0 <= v.
Proof.
  induction s as [|c s IH]; intros n v Hn; cbn [strconv.parseUintLoop].
  - intros H. inversion H. now subst.
  - destruct ((Z.of_nat (nat_of_ascii c) - 48 <? 0)
              || (9 <? Z.of_nat (nat_of_ascii c) - 48)) eqn:E;
      [discriminate|].
    apply orb_false_iff in E. destruct E as [E _]. apply Z.ltb_ge in E.
    destruct (_ <=? n); [discriminate|].
    destruct (_ <? _); [discriminate|].
    apply IH. lia.
Qed.

Lemma Atoi_range s : int64_range (fst (strconv.Atoi s)).
Proof.
  assert (R0 : int64_range 0) by (unfold int64_range, minInt64, maxInt64; lia).
  assert (Rmin : int64_range minInt64)
    by (unfold int64_range, minInt64, maxInt64; lia).
  assert (Rmax : int64_range maxInt64)
    by (unfold int64_range, minInt64, maxInt64; lia).
  assert (H : forall neg digits,
             int64_range
               (fst (match strconv.ParseUint digits with
                     | inl strconv.ErrSyntax => (0, Some strconv.ErrSyntax)
                     | inl strconv.ErrRange =>
                         (if neg : bool then minInt64 else maxInt64,
                          Some strconv.ErrRange)
                     | inr un =>
                         if neg then
                           if 2 ^ 63 <? un
                           then (minInt64, Some strconv.ErrRange)
                           else (- un, None)
                         else
                           if 2 ^ 63 <=? un
                           then (maxInt64, Some strconv.ErrRange)
                           else (un, None)
                     end))).
  { intros neg digits.
    destruct (strconv.ParseUint digits) as [[|]|un] eqn:E; cbn [fst].
    - exact R0.
    - destruct neg; assumption.
    - assert (0 <= un).
      { unfold strconv.ParseUint in E. destruct digits; [discriminate|].
        eapply parseUintLoop_nonneg; [|exact E]. lia. }
      destruct neg.
      + destruct (2 ^ 63 <? un) eqn:E1; cbn [fst]; [exact Rmin|].
        apply Z.ltb_ge in E1. unfold int64_range, minInt64, maxInt64. lia.
      + destruct (2 ^ 63 <=? un) eqn:E1; cbn [fst]; [exact Rmax|].
        apply Z.leb_gt in E1. unfold int64_range, minInt64, maxInt64. lia. }
  unfold strconv.Atoi.
  destruct s as [|c s]; [apply (H false)|].
  destruct c as [[] [] [] [] [] [] [] []]; cbv beta iota zeta;
    match goal with
    | |- context [strconv.ParseUint ?d] =>
        first [exact (H false d) | exact (H true d)]
    end.
Qed.

Lemma scanLoop_range l : forall g m w,
  int64_range g -> int64_range (fst (fst (scanLoop l g m w))).
Proof.
  induction l as [|path l IH]; intros g m w Hg; cbn [scanLoop]; [exact Hg|].
  destruct (negb _).
  - apply IH. unfold int64_range, minInt64, maxInt64. lia.
  - rewrite bind_run, Stat_run. cbn [fst snd].
    destruct (os_Stat path (fs w)); cbn [pathResult]; [now apply IH|].
    destruct (_ <=? _); [|now apply IH].
    apply IH, Atoi_range.
Qed.

Lemma resolveName_target fuel rl baseFn g w b filename gen :
  fst (resolveName fuel rl true baseFn g w) = Some (Target b filename gen) ->
  int64_range g ->
  b = baseFn /\ filename = generationName baseFn gen /\ int64_range gen.
Proof.
  unfold resolveName. rewrite bind_run.
  destruct (probeLoop fuel rl baseFn g w) as [[[name g']|] w1] eqn:E;
    cbn [fst snd]; [|cbn; discriminate].
  cbn. intros H Hg. inversion H as [[Hb Hf Hgen]].
  destruct (probeLoop_name rl baseFn fuel g w name g') as (H1 & _ & H3).
  { now rewrite E. }
  subst. auto.
Qed.

Lemma decide_target fuel rl useGen w baseFn filename gen :
  fst (decide fuel rl useGen w) = Some (Target baseFn filename gen) ->
  int64_range (generation rl) ->
  filename = generationName baseFn gen /\ int64_range gen.
Proof.
  rewrite decide_cases. cbv zeta. intros H Hg.
  assert (R0 : int64_range 0) by (unfold int64_range, minInt64, maxInt64; lia).
  destruct (negb _).
  - destruct (String.eqb _ _).
    + destruct (filepath_Glob _ _) as [matches|]; [|cbn in H; discriminate].
      cbv zeta in H. apply resolveName_target in H;
        [destruct H as (Hb & Hf & Hr); subst; auto|].
      now apply scanLoop_range.
    + apply resolveName_target in H;
        [destruct H as (Hb & Hf & Hr); subst; auto | exact R0].
  - destruct (_ && _); [cbn in H; discriminate|].
    apply resolveName_target in H;
      [destruct H as (Hb & Hf & Hr); subst; auto | apply wrap64_range].
Qed.

(** What an acquisition returns: the receiver as it was with its handle
    or with an error, or the receiver that has adopted the target. *)
Lemma getWriterNolock_outcomes fuel rl bail useGen w rl' r :
  fst (getWriterNolock fuel rl bail useGen w) = Some (rl', r) ->
  (rl' = rl /\ exists e, r = Err e)
  \/ (rl' = rl /\ r = Ok (outFh rl)
      /\ fst (decide fuel rl useGen w) = Some Reuse)
  \/ (exists fh baseFn filename gen,
         fst (decide fuel rl useGen w) = Some (Target baseFn filename gen)
         /\ rl' = adopted rl fh baseFn filename gen
         /\ r = Ok (Some fh)).
Proof.
  unfold getWriterNolock. rewrite bind_run.
  destruct (decide fuel rl useGen w) as [[d|] w1]; cbn [fst snd];
    [|cbn; discriminate].
  destruct d as [|err|baseFn filename g].
  - cbn. intros H. inversion H; subst. right; left. auto.
  - cbn. intros H. inversion H; subst. left. eauto.
  - rewrite bind_run.
    pose proof (openAndAdopt_cases rl bail (curFn rl) baseFn filename g w1)
      as Hc. cbv zeta in Hc.
    destruct (fst (fileutil_CreateFile filename (fs w1))) as [errno|fh].
    + rewrite Hc. cbn. intros H. inversion H; subst. left. eauto.
    + destruct (fst (rotateNolock rl filename (created filename w1)))
        as [err0|].
      * destruct bail; rewrite Hc; cbn; intros H; inversion H; subst.
        -- left. eauto.
        -- right; right. exists fh, baseFn, filename, g. auto.
      * rewrite Hc. cbn. intros H. inversion H; subst.
        right; right. exists fh, baseFn, filename, g. auto.
Qed.

Lemma getWriterNolock_named fuel rl bail useGen w rl' r :
  fst (getWriterNolock fuel rl bail useGen w) = Some (rl', r) ->
  curFn rl = generationName (curBaseFn rl) (generation rl) ->
  int64_range (generation rl) ->
  curFn rl' = generationName (curBaseFn rl') (generation rl')
  /\ int64_range (generation rl').
Proof.
  intros H Hn Hg.
  destruct (getWriterNolock_outcomes _ _ _ _ _ _ _ H)
    as [[-> _]|[(-> & _)|(fh & baseFn & filename & gen & Hd & -> & _)]];
    auto.
  cbn. eapply decide_target; eassumption.
Qed.

Lemma call_named fuel c rl w rl' e w' :
  call fuel c rl w = (Some (rl', e), w') ->
  curFn rl = generationName (curBaseFn rl) (generation rl) ->
  int64_range (generation rl) ->
  curFn rl' = generationName (curBaseFn rl') (generation rl')
  /\ int64_range (generation rl').
Proof.
  destruct c as [p| |]; cbn [call].
  - unfold Write. rewrite !bind_run.
    pose proof (getWriterNolock_named fuel rl false false w) as Hn.
    destruct (getWriterNolock fuel rl false false w) as [[[rl1 [out|err]]|] w1];
      cbn [fst snd] in *.
    + rewrite bind_run. cbn. intros H. inversion H; subst. eapply Hn; eauto.
    + cbn. intros H. inversion H; subst. eapply Hn; eauto.
    + cbn. discriminate.
  - unfold Rotate. rewrite !bind_run.
    pose proof (getWriterNolock_named fuel rl true true w) as Hn.
    destruct (getWriterNolock fuel rl true true w) as [[[rl1 [out|err]]|] w1];
      cbn [fst snd] in *.
    + cbn. intros H. inversion H; subst. eapply Hn; eauto.
    + cbn. intros H. inversion H; subst. eapply Hn; eauto.
    + cbn. discriminate.
  - rewrite bind_run. unfold Close. destruct (outFh rl).
    + rewrite bind_run. cbn. intros H. inversion H; subst. cbn. auto.
    + cbn. intros H. inversion H; subst. auto.
Qed.

Lemma New_Ok_fresh p options rl :
  New p options = Ok rl ->
  let v := applyOptions options in
  curBaseFn rl = "" /\ curFn rl = "" /\ generation rl = 0 /\ outFh rl = None
  /\ globPattern rl = collapseStars (replaceConversions p)
  /\ strftime_New p = inr (pattern rl)
  /\ clock rl = v_clock v /\ linkName rl = v_linkName v
  /\ eventHandler rl = v_handler v /\ forceNewFile rl = v_forceNewFile v.
Proof.
  unfold New. destruct (strftime_New p) as [msg|pat]; [discriminate|].
  cbv zeta. destruct (_ && _); [discriminate|].
  intros H. inversion H; subst; clear H. cbn. repeat split.
Qed.

(** X21. For every receiver a program can hold, [CurrentFileName]
    returns the name of the recorded generation under the recorded base
    filename, and the generation is an [int64]; before the first
    successful acquisition it returns the empty string. *)
Theorem current_file_name_is_generation_name p options rl :
  reachable p options rl ->
  CurrentFileName rl = generationName (curBaseFn rl) (generation rl)
  /\ int64_range (generation rl)
  /\ (curBaseFn rl = "" -> generation rl = 0 -> CurrentFileName rl = "").
Proof.
  intros H.
  assert (Hn : curFn rl = generationName (curBaseFn rl) (generation rl)
               /\ int64_range (generation rl)).
  { induction H as [rl H|rl fuel c w rl' e w' _ IH Hc].
    - apply New_Ok_fresh in H. destruct H as (Hb & Hf & Hg & _).
      rewrite Hb, Hf, Hg. split; [reflexivity|].
      unfold int64_range, minInt64, maxInt64. lia.
    - destruct IH as [IH1 IH2]. eapply call_named; eassumption. }
  destruct Hn as [H1 H2]. unfold CurrentFileName.
  split; [exact H1|]. split; [exact H2|].
  intros Hb Hg. rewrite H1, Hb, Hg. reflexivity.
Qed.

(** X22. A [Rotate] that succeeds in the same bucket moves to a later
    generation of the same base filename: the current filename changes,
    to the name of the new generation, and the receiver has a handle.
    The counter is assumed not to overflow within the fuel. *)
Theorem rotate_takes_a_new_name fuel rl w rl' :
  curFn rl = generationName (curBaseFn rl) (generation rl) ->
  minInt64 <= generation rl ->
  generation rl + 1 + Z.of_nat fuel <= maxInt64 ->
  fileutil_GenerateFn (pattern rl) (fst (clock_Now (clock rl) w))
    (rotationTime rl) = curBaseFn rl ->
  fst (Rotate fuel rl w) = Some (rl', None) ->
  curBaseFn rl' = curBaseFn rl
  /\ generation rl < generation rl'
  /\ CurrentFileName rl' = generationName (curBaseFn rl) (generation rl')
  /\ CurrentFileName rl' <> CurrentFileName rl
  /\ exists fh, outFh rl' = Some fh.
Proof.
  intros Hn Hlo Hhi Hb. unfold Rotate. rewrite bind_run.
  pose proof (getWriterNolock_outcomes fuel rl true true w) as Ho.
  destruct (getWriterNolock fuel rl true true w) as [[[rl1 [out|err]]|] w1];
    cbn [fst snd] in *; [|cbn; discriminate|cbn; discriminate].
  cbn. intros H. inversion H; subst rl1. clear H.
  assert (Hd : decide fuel rl true w
               = resolveName fuel rl true (curBaseFn rl)
                   (generation rl + 1)
                   (logged (SysStat (curFn rl)) (snd (clock_Now (clock rl) w)))).
  { rewrite decide_cases. cbv zeta. rewrite Hb, String.eqb_refl.
    cbn [negb andb]. rewrite wrap64_id; [reflexivity|].
    unfold int64_range. lia. }
  destruct (Ho rl' (Ok out) eq_refl)
    as [[_ [e He]]|[(_ & _ & Hr)|(fh & baseFn & filename & gen & Ht & -> & _)]].
  - discriminate.
  - rewrite Hd in Hr. unfold resolveName in Hr. rewrite bind_run in Hr.
    destruct (probeLoop _ _ _ _ _) as [[[n g']|] w2]; cbn in Hr; discriminate.
  - rewrite Hd in Ht. unfold resolveName in Ht. rewrite bind_run in Ht.
    pose proof (probeLoop_name rl (curBaseFn rl) fuel (generation rl + 1)
                  (logged (SysStat (curFn rl)) (snd (clock_Now (clock rl) w))))
      as Hname.
    pose proof (probeLoop_sound rl (curBaseFn rl) fuel (generation rl + 1)
                  (logged (SysStat (curFn rl)) (snd (clock_Now (clock rl) w)))
                  ltac:(lia) ltac:(lia)) as Hsound.
    destruct (probeLoop fuel rl (curBaseFn rl) (generation rl + 1)
                (logged (SysStat (curFn rl)) (snd (clock_Now (clock rl) w))))
      as [[[n g']|] w2]; cbn [fst snd] in *; [|cbn in Ht; discriminate].
    cbn in Ht. inversion Ht; subst baseFn filename gen. clear Ht.
    destruct (Hname n g' eq_refl) as (Hn' & _).
    destruct Hsound as (k & _ & Hk & _).
    unfold CurrentFileName. cbn.
    split; [reflexivity|]. split; [lia|]. split; [exact Hn'|].
    split; [|eauto].
    rewrite Hn, Hn'. intros E. apply generationName_inj in E. lia.
Qed.

End Naming.

(** ** The lock marker, the link and the oldest file *)

Section LockAndLink.
Context {P : Platform}.

Lemma rotateNolock_locked rl filename w fh :
  fst (os_OpenFile_excl (filename ++ "_lock") (fs w)) = inr fh ->
  let w1 := lockTried (filename ++ "_lock") w in
  let body :=
    bind (if String.eqb (linkName rl) "" then ret None
          else installSymlink rl filename)
      (fun e => match e with
                | Some err => ret (Some err)
                | None => purge rl
                end) in
  rotateNolock rl filename w
  = (fst (body w1),
     snd (Remove (filename ++ "_lock")
            (snd (Close_File (Some fh) (snd (body w1)))))).
Proof.
  intros Hl. cbv zeta. unfold rotateNolock, lockTried.
  rewrite bind_run, OpenFile_excl_run.
  destruct (os_OpenFile_excl (filename ++ "_lock") (fs w)) as [l s1].
  cbn [fst snd] in *. subst l. cbn [pathResult].
  rewrite !bind_run. reflexivity.
Qed.

(** X12. Once [rotateNolock] has created its lock marker, it releases
    it on every path, whatever it returns: the last two file-system calls
    close the marker's handle and remove the marker, and the calls
    between the creation and these two are housekeeping calls. *)
Theorem lock_marker_is_released rl filename w fh :
  fst (os_OpenFile_excl (filename ++ "_lock") (fs w)) = inr fh ->
  exists calls s,
    trace (snd (rotateNolock rl filename w))
    = (trace w ++ SysOpenExcl (filename ++ "_lock") :: calls
         ++ [SysClose fh; SysRemove (filename ++ "_lock")])%list
    /\ Forall (housekeeping rl) calls
    /\ fs (snd (rotateNolock rl filename w))
       = snd (os_Remove (filename ++ "_lock") (snd (file_Close fh s))).
Proof.
  intros Hl. rewrite (rotateNolock_locked rl filename w fh Hl). cbv zeta.
  set (body := bind _ _).
  assert (Hb : emits (housekeeping rl) body).
  { subst body. apply emits_bind.
    - destruct (String.eqb_spec (linkName rl) "") as [E|N];
        [apply emits_ret | now apply emits_installSymlink].
    - intros [e|]; [apply emits_ret | apply emits_purge]. }
  destruct (Hb (lockTried (filename ++ "_lock") w)) as (calls & Ht & Hf).
  exists calls, (fs (snd (body (lockTried (filename ++ "_lock") w)))).
  split; [|split; [exact Hf | reflexivity]].
  cbn. rewrite Ht. cbn. rewrite <- !app_assoc. reflexivity.
Qed.

Lemma installSymlink_outcome rl filename w :
  let tmp := filename ++ "_symlink" in
  let linkDir := filepath_Dir (linkName rl) in
  let r := installSymlink rl filename w in
  match fst r with
  | Some e =>
      wrapped e
      /\ ((exists msg,
             linkDestOf rl filename = inl msg
             /\ e = errors_Wrap (LibError "filepath" msg)
                      "failed to evaluate relative path")
          \/ (exists linkDest errno,
                linkDestOf rl filename = inr linkDest
                /\ fst (os_Symlink linkDest tmp (fs w)) = Some errno
                /\ e = errors_Wrap (PathError "symlink" tmp errno)
                         "failed to create new symlink")
          \/ (exists linkDest errno0 errno,
                linkDestOf rl filename = inr linkDest
                /\ os_Stat linkDir (snd (os_Symlink linkDest tmp (fs w)))
                   = inl errno0
                /\ e = errors_Wrap (PathError "mkdir" linkDir errno)
                         ("failed to create directory " ++ linkDir))
          \/ (exists errno,
                e = errors_Wrap (PathError "rename" (linkName rl) errno)
                      "failed to rename new symlink"))
  | None =>
      exists linkDest,
        linkDestOf rl filename = inr linkDest
        /\ fst (os_Symlink linkDest tmp (fs w)) = None
        /\ trace (snd r)
           = (trace w ++ [SysSymlink linkDest tmp; SysStat linkDir]
                ++ match os_Stat linkDir
                           (snd (os_Symlink linkDest tmp (fs w))) with
                   | inr _ => []
                   | inl _ => [SysMkdirAll linkDir]
                   end
                ++ [SysRename tmp (linkName rl)])%list
  end.
Proof.
  cbv zeta. unfold installSymlink, linkDestOf.
  destruct (if strings.Contains (linkName rl) (filepath_Dir filename)
            then filepath_Rel (filepath_Dir (linkName rl)) filename
            else inr filename) as [msg|linkDest].
  { cbn. split.
    - eexists _, _. split; [reflexivity|]. right. eauto.
    - left. exists msg. split; reflexivity. }
  unfold bind, Symlink, Stat, MkdirAll, Rename, sys, ret.
  cbn [fst snd fs trace stderr goroutines wall wallReads clockReads].
  destruct (os_Symlink linkDest (filename ++ "_symlink") (fs w))
    as [[e1|] s1] eqn:Es;
    cbn [fst snd fs trace stderr goroutines wall wallReads clockReads pathError].
  { split.
    - eexists _, _. split; [reflexivity|]. left. eauto.
    - right; left. exists linkDest, e1. rewrite Es. repeat split. }
  destruct (os_Stat (filepath_Dir (linkName rl)) s1) as [e2|fi] eqn:Et;
    cbn [fst snd fs trace stderr goroutines wall wallReads clockReads pathResult].
  - destruct (os_MkdirAll (filepath_Dir (linkName rl)) s1) as [[e3|] s3];
      cbn [fst snd fs trace stderr goroutines wall wallReads clockReads pathError].
    { split.
      - eexists _, _. split; [reflexivity|]. left. eauto.
      - right; right; left. exists linkDest, e2, e3. rewrite Es.
        cbn [snd]. rewrite Et. repeat split. }
    destruct (os_Rename (filename ++ "_symlink") (linkName rl) s3)
      as [[e4|] s4];
      cbn [fst snd fs trace stderr goroutines wall wallReads clockReads pathError].
    { split.
      - eexists _, _. split; [reflexivity|]. left. eauto.
      - right; right; right. eauto. }
    exists linkDest. rewrite Es. cbn [fst snd]. rewrite Et.
    split; [reflexivity|]. split; [reflexivity|].
    cbn. rewrite <- !app_assoc. reflexivity.
  - destruct (os_Rename (filename ++ "_symlink") (linkName rl) s1)
      as [[e4|] s4];
      cbn [fst snd fs trace stderr goroutines wall wallReads clockReads pathError].
    { split.
      - eexists _, _. split; [reflexivity|]. left. eauto.
      - right; right; right. eauto. }
    exists linkDest. rewrite Es. cbn [fst snd]. rewrite Et.
    split; [reflexivity|]. split; [reflexivity|].
    cbn. rewrite <- !app_assoc. reflexivity.
Qed.

(** X13. The symlink step of [rotateNolock], with a link name set and
    the lock taken.  If it fails, [rotateNolock] returns its error: the
    failed evaluation of the relative path, the failed [os.Symlink], the
    failed [os.MkdirAll] that followed a failed [os.Stat] of the
    directory, or the failed [os.Rename], each under its own message; the
    purge does not run: no goroutine is started and the only calls after
    the step release the lock.  If it succeeds, [os.Symlink] succeeded
    and its calls are: the symbolic link to the destination at
    [filename_symlink], the [os.Stat] of the directory of the link name,
    [os.MkdirAll] of that directory exactly when that [os.Stat] failed,
    and the rename to the link name; then the result is that of the
    purge. *)
Theorem symlink_step_outcome rl filename w fh :
  fst (os_OpenFile_excl (filename ++ "_lock") (fs w)) = inr fh ->
  linkName rl <> "" ->
  let tmp := filename ++ "_symlink" in
  let linkDir := filepath_Dir (linkName rl) in
  let w1 := lockTried (filename ++ "_lock") w in
  let s := installSymlink rl filename w1 in
  let r := rotateNolock rl filename w in
  match fst s with
  | Some e =>
      fst r = Some e
      /\ wrapped e
      /\ goroutines (snd r) = goroutines w
      /\ trace (snd r)
         = (trace (snd s)
              ++ [SysClose fh; SysRemove (filename ++ "_lock")])%list
      /\ ((exists msg,
             linkDestOf rl filename = inl msg
             /\ e = errors_Wrap (LibError "filepath" msg)
                      "failed to evaluate relative path")
          \/ (exists linkDest errno,
                linkDestOf rl filename = inr linkDest
                /\ fst (os_Symlink linkDest tmp (fs w1)) = Some errno
                /\ e = errors_Wrap (PathError "symlink" tmp errno)
                         "failed to create new symlink")
          \/ (exists linkDest errno0 errno,
                linkDestOf rl filename = inr linkDest
                /\ os_Stat linkDir (snd (os_Symlink linkDest tmp (fs w1)))
                   = inl errno0
                /\ e = errors_Wrap (PathError "mkdir" linkDir errno)
                         ("failed to create directory " ++ linkDir))
          \/ (exists errno,
                e = errors_Wrap (PathError "rename" (linkName rl) errno)
                      "failed to rename new symlink"))
  | None =>
      fst r = fst (purge rl (snd s))
      /\ exists linkDest,
           linkDestOf rl filename = inr linkDest
           /\ fst (os_Symlink linkDest tmp (fs w1)) = None
           /\ trace (snd s)
              = (trace w1 ++ [SysSymlink linkDest tmp; SysStat linkDir]
                   ++ match os_Stat linkDir
                              (snd (os_Symlink linkDest tmp (fs w1))) with
                      | inr _ => []
                      | inl _ => [SysMkdirAll linkDir]
                      end
                   ++ [SysRename tmp (linkName rl)])%list
  end.
Proof.
  intros Hl Hn. cbv zeta.
  rewrite (rotateNolock_locked rl filename w fh Hl). cbv zeta.
  destruct (String.eqb_spec (linkName rl) "") as [E|_]; [contradiction|].
  rewrite bind_run.
  pose proof (installSymlink_outcome rl filename
                (lockTried (filename ++ "_lock") w)) as Ho. cbv zeta in Ho.
  destruct (installSymlink_spec rl filename
              (lockTried (filename ++ "_lock") w)) as [[_ Qg] _].
  destruct (installSymlink rl filename (lockTried (filename ++ "_lock") w))
    as [[e|] w2]; cbn [fst snd] in *.
  - destruct Ho as [Hw Hforms].
    split; [reflexivity|]. split; [exact Hw|]. split; [|split].
    + cbn. exact Qg.
    + cbn. rewrite <- !app_assoc. reflexivity.
    + exact Hforms.
  - split; [reflexivity | exact Ho].
Qed.

(** X14. The purge under a count-based policy.  When the candidates
    number at most [rotationCount], nothing is removed.  When they
    outnumber it and one of them was modified before the second of
    [time.Now()], one removal is started, of a name the glob listed that
    is no older than any candidate, does not end in [_lock] or
    [_symlink], and is not a symbolic link. *)
Theorem count_mode_removes_the_oldest rl w matches :
  (0 < rotationCount rl)%N ->
  filepath_Glob (globPattern rl) (fs w) = Some matches ->
  let cutoff :=
    time.Add (fst (clock_Now (clock rl) w)) (wrap64 (-1 * maxAge rl)) in
  let cands := filter (candidate rl cutoff (fs w)) matches in
  ((N.of_nat (List.length cands) <= rotationCount rl)%N ->
   fst (purge rl w) = None
   /\ goroutines (snd (purge rl w)) = goroutines w)
  /\ ((rotationCount rl < N.of_nat (List.length cands))%N ->
      (exists path fi,
          In path cands /\ os_Stat path (fs w) = inr fi
          /\ time.Unix (ModTime fi) < time.Unix (wallAfterClock rl w)) ->
      exists f fi,
        fst (purge rl w) = None
        /\ goroutines (snd (purge rl w)) = (goroutines w ++ [GoRemove f])%list
        /\ In f matches
        /\ os_Stat f (fs w) = inr fi
        /\ (forall path fp, In path cands -> os_Stat path (fs w) = inr fp ->
              time.Unix (ModTime fi) <= time.Unix (ModTime fp))
        /\ strings.HasSuffix f "_lock" = false
        /\ strings.HasSuffix f "_symlink" = false
        /\ (forall fl, os_Lstat f (fs w) = inr fl ->
              Z.land (Mode fl) ModeSymlink <> ModeSymlink)).
Proof.
  intros Hk Hglob. cbv zeta.
  pose proof (purge_count_mode rl w matches Hk Hglob) as H. cbv zeta in H.
  destruct H as (Hr & Hle & Hgt).
  split.
  - intros Hc. split; [exact Hr | now apply Hle].
  - intros Hc (path & fi & Hin & Hs & Hold).
    destruct (Hgt Hc) as (f & Hg & [[_ Hall]|(fi' & Hf & Hs' & _ & Hmin)]).
    + specialize (Hall path fi Hin Hs). lia.
    + exists f, fi'. split; [exact Hr|]. split; [exact Hg|].
      apply filter_In in Hf. destruct Hf as [Hm Hcand].
      split; [exact Hm|]. split; [exact Hs'|]. split; [exact Hmin|].
      assert (Hsuf : strings.HasSuffix f "_lock"
                     || strings.HasSuffix f "_symlink" = false).
      { unfold candidate in Hcand. apply andb_prop in Hcand.
        destruct Hcand as [Hc1 _]. now apply negb_true_iff in Hc1. }
      apply orb_false_iff in Hsuf. destruct Hsuf as [S1 S2].
      split; [exact S1|]. split; [exact S2|].
      intros fl Hfl. eapply candidate_not_symlink; eassumption.
Qed.

End LockAndLink.

(** ** The glob pattern *)

Section Patterns.

Lemma replaceConversions_eq a rest :
  replaceConversions (String a rest)
  = if Ascii.eqb a "%" then
      match rest with
      | String c rest' =>
          if isConversionChar c then String "*" (replaceConversions rest')
          else String "%" (replaceConversions rest)
      | EmptyString => String "%" EmptyString
      end
    else String a (replaceConversions rest).
Proof.
  destruct a as [[] [] [] [] [] [] [] []]; try reflexivity.
  destruct rest; reflexivity.
Qed.

Lemma collapseStars_eq a rest :
  collapseStars (String a rest)
  = if Ascii.eqb a "*" then
      match rest with
      | String b _ =>
          if Ascii.eqb b "*" then collapseStars rest
          else String a (collapseStars rest)
      | EmptyString => String a EmptyString
      end
    else String a (collapseStars rest).
Proof.
  destruct a as [[] [] [] [] [] [] [] []]; try reflexivity.
  destruct rest as [|b r]; [reflexivity|].
  destruct b as [[] [] [] [] [] [] [] []]; reflexivity.
Qed.

Lemma collapseStars_head s :
  match s with
  | EmptyString => collapseStars s = EmptyString
  | String a _ => exists t, collapseStars s = String a t
  end.
Proof.
  induction s as [|a rest IH]; [reflexivity|].
  rewrite collapseStars_eq.
  destruct (Ascii.eqb_spec a "*") as [->|N]; [|eauto].
  destruct rest as [|b r]; [eauto|].
  destruct (Ascii.eqb_spec b "*") as [->|N]; [exact IH | eauto].
Qed.

Lemma prefix_stars a t :
  String.prefix "**" (String a t)
  = Ascii.eqb a "*" && match t with
                       | String b _ => Ascii.eqb b "*"
                       | EmptyString => false
                       end.
Proof.
  cbn [String.prefix].
  destruct (ascii_dec "*" a) as [<-|N].
  - cbn [Ascii.eqb Bool.eqb andb]. destruct t as [|b t]; [reflexivity|].
    cbn [String.prefix].
    destruct (ascii_dec "*" b) as [<-|N]; [destruct t; reflexivity|].
    destruct (Ascii.eqb_spec b "*"); [congruence | reflexivity].
  - destruct (Ascii.eqb_spec a "*"); [congruence | reflexivity].
Qed.

Lemma collapseStars_no_double s :
  strings.Contains (collapseStars s) "**" = false.
Proof.
  induction s as [|a rest IH]; [reflexivity|].
  rewrite collapseStars_eq.
  pose proof (collapseStars_head rest) as Hh.
  assert (Hkeep : Ascii.eqb a "*"
                  && match rest with
                     | String b _ => Ascii.eqb b "*"
                     | EmptyString => false
                     end = false ->
                  strings.Contains (String a (collapseStars rest)) "**"
                  = false).
  { intros Hne. cbn [strings.Contains]. rewrite IH, orb_false_r.
    rewrite prefix_stars.
    destruct (Ascii.eqb a "*"); [|reflexivity]. cbn [andb] in *.
    destruct rest as [|b r]; [now rewrite Hh|].
    destruct Hh as [t ->]. exact Hne. }
  destruct (Ascii.eqb a "*") eqn:Ea; [|now apply Hkeep].
  destruct rest as [|b r]; [now apply Hkeep|].
  destruct (Ascii.eqb b "*") eqn:Eb; [exact IH|].
  apply Hkeep. reflexivity.
Qed.

Lemma isConversionChar_percent : isConversionChar "%" = true.
Proof. reflexivity. Qed.

Lemma noConversion_replace s :
  noConversion (replaceConversions s) = true
  /\ forall a, noConversion (replaceConversions (String a s)) = true.
Proof.
  induction s as [|c r [IH1 IH2]].
  - split; [reflexivity|]. intros a. rewrite replaceConversions_eq.
    destruct (Ascii.eqb a "%") eqn:E; cbn [replaceConversions noConversion];
      [reflexivity|]. now rewrite E.
  - split; [apply IH2|]. intros a. rewrite replaceConversions_eq.
    destruct (Ascii.eqb a "%") eqn:E.
    + destruct (isConversionChar c) eqn:Ec.
      * cbn [noConversion]. cbn [Ascii.eqb Bool.eqb]. exact IH1.
      * pose proof (IH2 c) as Hc. rewrite replaceConversions_eq in Hc.
        rewrite replaceConversions_eq.
        assert (Ep : Ascii.eqb c "%" = false).
        { destruct (Ascii.eqb_spec c "%") as [->|]; [|reflexivity].
          rewrite isConversionChar_percent in Ec. discriminate. }
        rewrite Ep in *. cbn [noConversion]. rewrite Ec.
        cbn [Ascii.eqb Bool.eqb negb andb]. exact Hc.
    + cbn [noConversion]. rewrite E. cbn [andb]. apply IH2.
Qed.

Lemma noConversion_collapse s :
  noConversion s = true -> noConversion (collapseStars s) = true.
Proof.
  induction s as [|a rest IH]; [reflexivity|].
  cbn [noConversion]. intros H. apply andb_prop in H. destruct H as [H1 H2].
  specialize (IH H2). rewrite collapseStars_eq.
  pose proof (collapseStars_head rest) as Hh.
  assert (Hkeep : noConversion (String a (collapseStars rest)) = true).
  { cbn [noConversion]. rewrite IH, andb_true_r.
    destruct (Ascii.eqb a "%"); [|reflexivity].
    destruct rest as [|c r]; [now rewrite Hh|].
    destruct Hh as [t ->]. exact H1. }
  destruct (Ascii.eqb a "*") eqn:Ea; [|exact Hkeep].
  destruct rest as [|b r]; [exact Hkeep|].
  destruct (Ascii.eqb b "*"); [exact IH | exact Hkeep].
Qed.

Lemma noConversion_Contains s c :
  noConversion s = true -> isConversionChar c = true ->
  strings.Contains s (String "%" (String c "")) = false.
Proof.
  intros H Hc. induction s as [|a rest IH]; [reflexivity|].
  cbn [noConversion] in H. apply andb_prop in H. destruct H as [H1 H2].
  cbn [strings.Contains]. rewrite (IH H2), orb_false_r.
  cbn [String.prefix].
  destruct (ascii_dec "%" a) as [<-|N]; [|reflexivity].
  cbn [Ascii.eqb Bool.eqb] in H1.
  destruct rest as [|b r]; [reflexivity|].
  cbn [String.prefix].
  destruct (ascii_dec c b) as [<-|N]; [|reflexivity].
  rewrite Hc in H1. discriminate.
Qed.

Lemma plain_pattern_unchanged s :
  without "%" s -> without "*" s ->
  collapseStars (replaceConversions s) = s.
Proof.
  induction s as [|a rest IH]; [reflexivity|].
  cbn [without]. intros [Ha Hr] [Hb Hs].
  rewrite replaceConversions_eq.
  destruct (Ascii.eqb_spec a "%") as [->|_]; [contradiction|].
  rewrite collapseStars_eq.
  destruct (Ascii.eqb_spec a "*") as [->|_]; [contradiction|].
  now rewrite IH.
Qed.

End Patterns.

(** ** Options *)

Section NewMore.
Context {P : Platform}.

(** X2. The glob pattern [New] derives from the pattern, by the two
    replacements of [patternConversionRegexps] in their order: it has no
    two consecutive [*], no [%] followed by a byte of [%+A-Za-z] is left
    in it, and a pattern without [%] and [*] is its own glob pattern. *)
Theorem New_globPattern_shape p options rl :
  New p options = Ok rl ->
  strings.Contains (globPattern rl) "**" = false
  /\ (forall c, isConversionChar c = true ->
        strings.Contains (globPattern rl) (String "%" (String c "")) = false)
  /\ (without "%" p -> without "*" p -> globPattern rl = p)
  /\ globPattern rl
     = fold_left (fun g re => re g) patternConversionRegexps p.
Proof.
  intros H. apply New_Ok_fresh in H. cbv zeta in H.
  destruct H as (_ & _ & _ & _ & Hg & _). rewrite Hg.
  split; [apply collapseStars_no_double|]. split; [|split].
  - intros c Hc. apply noConversion_Contains; [|exact Hc].
    apply noConversion_collapse, noConversion_replace.
  - apply plain_pattern_unchanged.
  - reflexivity.
Qed.

Lemma readBack_other o o' v :
  sameKey o o' = false -> readBack o (applyOption v o') = readBack o v.
Proof. destruct o, o'; cbn; try reflexivity; discriminate. Qed.

Lemma readBack_fold o later : forall v,
  forallb (fun o' => negb (sameKey o o')) later = true ->
  readBack o (fold_left applyOption later v) = readBack o v.
Proof.
  induction later as [|o' later IH]; intros v H; [reflexivity|].
  cbn [forallb] in H. apply andb_prop in H. destruct H as [H1 H2].
  cbn [fold_left]. rewrite IH by exact H2.
  apply readBack_other. now apply negb_true_iff in H1.
Qed.

(** X3. Of several options of the same key the last one decides: when no
    option after [o] has the key of [o], the receiver holds the value of
    [o], a negative duration or size as 0, and a [MaxAge] of zero or less
    as the default of 7 days when no [RotationCount] is set. *)
Theorem New_last_option_wins p earlier o later rl :
  New p (earlier ++ o :: later) = Ok rl ->
  forallb (fun o' => negb (sameKey o o')) later = true ->
  match o with
  | WithClock c => clock rl = c
  | WithLinkName s => linkName rl = s
  | WithMaxAge d =>
      maxAge rl = (if (d <=? 0) && (rotationCount rl =? 0)%N
                   then 7 * 24 * time.Hour else Z.max 0 d)
  | WithRotationTime d => rotationTime rl = Z.max 0 d
  | WithRotationSize s => rotationSize rl = Z.max 0 s
  | WithRotationCount n => rotationCount rl = n
  | WithHandler h => eventHandler rl = Some h
  | ForceNewFile => forceNewFile rl = true
  | OtherOption _ => True
  end.
Proof.
  intros H Hl.
  pose proof (New_Ok_inv _ _ _ H) as Hi. cbv zeta in Hi.
  destruct Hi as (_ & Hm & Hc & Ht & Hs).
  apply New_Ok_fresh in H. cbv zeta in H.
  destruct H as (_ & _ & _ & _ & _ & _ & Hk & Hn & Hh & Hf).
  assert (Hv : readBack o (applyOptions (earlier ++ o :: later))
               = readBack o (applyOption
                               (fold_left applyOption earlier newVars0) o)).
  { unfold applyOptions. rewrite fold_left_app. cbn [fold_left].
    now apply readBack_fold. }
  set (v := applyOptions (earlier ++ o :: later)) in *.
  set (v0 := fold_left applyOption earlier newVars0) in *.
  clearbody v v0.
  destruct o as [c|s|d|d|s|n|h| |name]; cbn in Hv; try exact I.
  - inversion Hv. congruence.
  - inversion Hv. congruence.
  - injection Hv as Hd. rewrite Hm, Hc, Hd.
    destruct (Z.ltb_spec d 0); destruct (Z.leb_spec d 0);
      destruct (v_rotationCount v =? 0)%N; cbn [andb Z.eqb];
      try destruct (Z.eqb_spec d 0); cbn [andb]; try reflexivity; lia.
  - injection Hv as Hd. rewrite Ht, Hd. destruct (Z.ltb_spec d 0); lia.
  - injection Hv as Hd. rewrite Hs, Hd. destruct (Z.ltb_spec s 0); lia.
  - inversion Hv. congruence.
  - rewrite Hh. destruct (v_handler v); inversion Hv. reflexivity.
  - rewrite Hf. destruct (v_forceNewFile v); [reflexivity | discriminate].
Qed.

(** X4. The value of a setting no option names: the clock [Local], no
    link name, a rotation time of 24 hours, no size threshold, no
    rotation count, no handler, [forceNewFile] false, and a [maxAge] of 7
    days unless a rotation count is set. *)
Theorem New_defaults p options rl :
  New p options = Ok rl ->
  let absent o := forallb (fun o' => negb (sameKey o o')) options = true in
  (absent (WithClock Local) -> clock rl = Local)
  /\ (absent (WithLinkName "") -> linkName rl = "")
  /\ (absent (WithRotationTime 0) -> rotationTime rl = 24 * time.Hour)
  /\ (absent (WithRotationSize 0) -> rotationSize rl = 0)
  /\ (absent (WithRotationCount 0) -> rotationCount rl = 0%N)
  /\ (absent (WithMaxAge 0) ->
      maxAge rl = if (rotationCount rl =? 0)%N then 7 * 24 * time.Hour else 0)
  /\ (absent (WithHandler 0%nat) -> eventHandler rl = None)
  /\ (absent ForceNewFile -> forceNewFile rl = false).
Proof.
  intros H. cbv zeta.
  pose proof (New_Ok_inv _ _ _ H) as Hi. cbv zeta in Hi.
  destruct Hi as (_ & Hm & Hc & Ht & Hs).
  apply New_Ok_fresh in H. cbv zeta in H.
  destruct H as (_ & _ & _ & _ & _ & _ & Hk & Hn & Hh & Hf).
  assert (Hv : forall o,
             forallb (fun o' => negb (sameKey o o')) options = true ->
             readBack o (applyOptions options) = readBack o newVars0).
  { intros o. apply readBack_fold. }
  set (v := applyOptions options) in *. clearbody v.
  repeat apply conj; intros Ha; apply Hv in Ha; cbn [readBack] in Ha.
  - injection Ha as Ha. rewrite Hk, Ha. reflexivity.
  - injection Ha as Ha. rewrite Hn, Ha. reflexivity.
  - injection Ha as Ha. rewrite Ht, Ha. reflexivity.
  - injection Ha as Ha. rewrite Hs, Ha. reflexivity.
  - injection Ha as Ha. rewrite Hc, Ha. reflexivity.
  - injection Ha as Ha. rewrite Hm, Hc, Ha. reflexivity.
  - rewrite Hh. destruct (v_handler v); [discriminate | reflexivity].
  - rewrite Hf. destruct (v_forceNewFile v); [discriminate | reflexivity].
Qed.

(** X1. [New] fails in two cases only.  A pattern [strftime.New] rejects
    gives that error under "invalid strftime pattern", whatever the
    options are, also when they conflict; with a valid pattern the one
    error is the conflict of a positive [MaxAge] with a positive
    [RotationCount].  The receiver [New] returns has no current file, no
    base filename, generation 0 and no handle. *)
Theorem New_outcomes p options :
  (forall msg,
      strftime_New p = inl msg ->
      New p options
      = Err (errors_Wrap (LibError "strftime" msg) "invalid strftime pattern"))
  /\ (forall e,
        New p options = Err e ->
        (exists msg,
            strftime_New p = inl msg
            /\ e = errors_Wrap (LibError "strftime" msg)
                     "invalid strftime pattern")
        \/ (e = errBothSet
            /\ (exists pat, strftime_New p = inr pat)
            /\ 0 < v_maxAge (applyOptions options)
            /\ (0 < v_rotationCount (applyOptions options))%N))
  /\ (forall rl,
        New p options = Ok rl ->
        CurrentFileName rl = "" /\ curBaseFn rl = "" /\ generation rl = 0
        /\ outFh rl = None /\ strftime_New p = inr (pattern rl)
        /\ ~ (0 < v_maxAge (applyOptions options)
              /\ (0 < v_rotationCount (applyOptions options))%N)).
Proof.
  split; [|split].
  - intros msg H. unfold New. now rewrite H.
  - intros e. unfold New. destruct (strftime_New p) as [msg|pat].
    + intros H. inversion H. left. eauto.
    + cbv zeta. destruct (_ && _) eqn:E; [|discriminate].
      intros H. inversion H. right. apply andb_prop in E. destruct E as [E1 E2].
      apply Z.ltb_lt in E1. apply N.ltb_lt in E2. eauto.
  - intros rl H.
    pose proof (New_Ok_inv _ _ _ H) as Hi. cbv zeta in Hi.
    destruct Hi as (Hb & _).
    apply New_Ok_fresh in H. cbv zeta in H.
    destruct H as (H1 & H2 & H3 & H4 & _ & H6 & _).
    unfold CurrentFileName. repeat split; auto.
    intros [Ha Hc]. apply Z.ltb_lt in Ha. apply N.ltb_lt in Hc.
    rewrite Ha, Hc in Hb. discriminate.
Qed.

End NewMore.

(** ** Clocks and the standard error *)

Section Clocks.
Context {P : Platform}.

Lemma keeps_ret {A X} (f : World -> X) (a : A) : keeps f (ret a).
Proof. intros w. reflexivity. Qed.

Lemma keeps_bind {A B X} (f : World -> X) (m : M A) (k : A -> M B) :
  keeps f m -> (forall a, keeps f (k a)) -> keeps f (bind m k).
Proof. intros Hm Hk w. rewrite bind_run, Hk. apply Hm. Qed.

Lemma keepsW_sys {A} c (op : FSt -> A * FSt) : keeps wallReads (sys c op).
Proof. intros w. reflexivity. Qed.

Lemma keepsW_readOnly {A} (m : M A) :
  (forall w, readOnly w (snd (m w))) -> keeps wallReads m.
Proof. intros H w. apply (H w). Qed.

Lemma keepsW_Close_File f : keeps wallReads (Close_File f).
Proof. destruct f; [apply keepsW_sys | apply keeps_ret]. Qed.

Lemma keepsW_resolveName fuel rl force baseFn g :
  keeps wallReads (resolveName fuel rl force baseFn g).
Proof.
  unfold resolveName. destruct force; [|apply keeps_ret].
  apply keeps_bind.
  - apply keepsW_readOnly. intros w. apply probeLoop_readOnly.
  - intros [[f g']|]; apply keeps_ret.
Qed.

Lemma keepsW_decide fuel rl useGen reads :
  clock rl = UserClock reads -> keeps wallReads (decide fuel rl useGen).
Proof.
  intros Hc. unfold decide. rewrite Hc.
  apply keeps_bind; [intros w; reflexivity|]. intros now.
  apply keeps_bind; [apply keepsW_sys|]. intros st.
  destruct (negb _).
  - destruct (String.eqb _ _); [|apply keepsW_resolveName].
    apply keeps_bind; [apply keepsW_sys|].
    intros [matches|e]; [|apply keeps_ret].
    apply keeps_bind; [|intros r; apply keepsW_resolveName].
    apply keepsW_readOnly. intros w. apply scanLoop_readOnly.
  - destruct (_ && _); [apply keeps_ret | apply keepsW_resolveName].
Qed.

Lemma keepsW_installSymlink rl filename :
  keeps wallReads (installSymlink rl filename).
Proof.
  unfold installSymlink.
  destruct (if strings.Contains _ _ then _ else _) as [msg|linkDest];
    [apply keeps_ret|].
  apply keeps_bind; [apply keepsW_sys|].
  intros [e1|]; [apply keeps_ret|].
  apply keeps_bind; [apply keepsW_sys|]. intros st.
  apply keeps_bind.
  { destruct st; [apply keeps_ret | apply keepsW_sys]. }
  intros [e2|]; [apply keeps_ret|].
  apply keeps_bind; [apply keepsW_sys|].
  intros [e3|]; apply keeps_ret.
Qed.

Lemma once_of_keeps {A} (m : M A) : keeps wallReads m -> readsWallOnce m.
Proof. intros H w. left. apply H. Qed.

Lemma once_bind_l {A B} (m : M A) (k : A -> M B) :
  readsWallOnce m -> (forall a, keeps wallReads (k a)) ->
  readsWallOnce (bind m k).
Proof. intros Hm Hk w. rewrite bind_run, Hk. apply Hm. Qed.

Lemma once_bind_r {A B} (m : M A) (k : A -> M B) :
  keeps wallReads m -> (forall a, readsWallOnce (k a)) ->
  readsWallOnce (bind m k).
Proof.
  intros Hm Hk w. rewrite bind_run, <- (Hm w). apply Hk.
Qed.

Lemma purge_wall rl reads :
  clock rl = UserClock reads ->
  readsWallOnce (purge rl)
  /\ (rotationCount rl = 0%N -> keeps wallReads (purge rl)).
Proof.
  intros Hc.
  assert (Hgo : forall f,
             keeps wallReads (bind (go (GoRemove f))
                                (fun _ => ret (@None error)))).
  { intros f w. reflexivity. }
  split.
  - unfold purge. destruct (_ && _); [apply once_of_keeps, keeps_ret|].
    apply once_bind_r; [apply keepsW_sys|].
    intros [matches|e]; [|apply once_of_keeps, keeps_ret].
    rewrite Hc.
    apply once_bind_r; [intros w; reflexivity|]. intros now.
    apply once_bind_r.
    { apply keepsW_readOnly. intros w. apply collectToUnlink_readOnly. }
    intros toUnlink.
    apply once_bind_l.
    + destruct (0 <? rotationCount rl)%N; [|apply once_of_keeps, keeps_ret].
      destruct (_ <=? _)%N; [apply once_of_keeps, keeps_ret|].
      apply once_bind_l; [intros w; right; reflexivity|]. intros t.
      apply keeps_bind; [|intros f; apply keeps_ret].
      apply keepsW_readOnly. intros w. apply oldestLoop_readOnly.
    + intros [f|]; [apply Hgo | apply keeps_ret].
  - intros Hk. unfold purge. destruct (_ && _); [apply keeps_ret|].
    apply keeps_bind; [apply keepsW_sys|].
    intros [matches|e]; [|apply keeps_ret].
    rewrite Hc, Hk.
    apply keeps_bind; [intros w; reflexivity|]. intros now.
    apply keeps_bind.
    { apply keepsW_readOnly. intros w. apply collectToUnlink_readOnly. }
    intros toUnlink. cbn [N.ltb N.compare].
    apply keeps_bind; [apply keeps_ret|].
    intros [f|]; [apply Hgo | apply keeps_ret].
Qed.

Lemma rotateNolock_wall rl filename reads :
  clock rl = UserClock reads ->
  readsWallOnce (rotateNolock rl filename)
  /\ (rotationCount rl = 0%N -> keeps wallReads (rotateNolock rl filename)).
Proof.
  intros Hc. destruct (purge_wall rl reads Hc) as [Ho Hk].
  assert (Htail : forall fh r,
             keeps wallReads
               (bind (Close_File (Some fh))
                  (fun _ => bind (Remove (filename ++ "_lock"))
                              (fun _ => ret (r : option error))))).
  { intros fh r w. reflexivity. }
  assert (Hlink : keeps wallReads
                    (if String.eqb (linkName rl) "" then ret None
                     else installSymlink rl filename)).
  { destruct (String.eqb _ _); [apply keeps_ret | apply keepsW_installSymlink]. }
  split.
  - unfold rotateNolock. apply once_bind_r; [apply keepsW_sys|].
    intros [fh|e]; [|apply once_of_keeps, keeps_ret].
    apply once_bind_l; [|intros r; apply Htail].
    apply once_bind_r; [exact Hlink|].
    intros [e|]; [apply once_of_keeps, keeps_ret | exact Ho].
  - intros H0. unfold rotateNolock. apply keeps_bind; [apply keepsW_sys|].
    intros [fh|e]; [|apply keeps_ret].
    apply keeps_bind; [|intros r; apply Htail].
    apply keeps_bind; [exact Hlink|].
    intros [e|]; [apply keeps_ret | now apply Hk].
Qed.

Lemma openAndAdopt_wall rl bail previousFn baseFn filename g reads :
  clock rl = UserClock reads ->
  readsWallOnce (openAndAdopt rl bail previousFn baseFn filename g)
  /\ (rotationCount rl = 0%N ->
      keeps wallReads (openAndAdopt rl bail previousFn baseFn filename g)).
Proof.
  intros Hc. destruct (rotateNolock_wall rl filename reads Hc) as [Ho Hk].
  assert (Hrest : forall fh rot,
    keeps wallReads
      (bind (match rot with
             | Some err0 =>
                 if bail
                 then bind (Close_File (Some fh))
                        (fun _ => ret (Some (errors_Wrap err0 "failed to rotate")))
                 else bind (Fprintf_Stderr (errors_Wrap err0 "failed to rotate"))
                        (fun _ => ret None)
             | None => ret None
             end)
         (fun bailed =>
            match bailed with
            | Some err => ret (rl, Err err)
            | None =>
                bind (Close_File (outFh rl))
                  (fun _ =>
                     bind (match eventHandler rl with
                           | Some h =>
                               go (GoHandle h (mkEvent previousFn filename))
                           | None => ret tt
                           end)
                       (fun _ =>
                          ret (mkRotateLogs (clock rl) baseFn filename
                                 (globPattern rl) g (linkName rl) (maxAge rl)
                                 (eventHandler rl) (Some fh) (pattern rl)
                                 (rotationTime rl) (rotationSize rl)
                                 (rotationCount rl) (forceNewFile rl),
                               Ok (Some fh))))
            end))).
  { intros fh rot. apply keeps_bind.
    - destruct rot as [err0|]; [|apply keeps_ret].
      destruct bail; intros w; reflexivity.
    - intros [err|]; [apply keeps_ret|].
      apply keeps_bind; [apply keepsW_Close_File|]. intros _.
      apply keeps_bind; [|intros _; apply keeps_ret].
      destruct (eventHandler rl); intros w; reflexivity. }
  split.
  - unfold openAndAdopt. apply once_bind_r; [apply keepsW_sys|].
    intros [fh|e]; [|apply once_of_keeps, keeps_ret].
    apply once_bind_l; [exact Ho | intros rot; apply Hrest].
  - intros H0. unfold openAndAdopt. apply keeps_bind; [apply keepsW_sys|].
    intros [fh|e]; [|apply keeps_ret].
    apply keeps_bind; [now apply Hk | intros rot; apply Hrest].
Qed.

Lemma resolveName_not_Reuse fuel rl force baseFn g w :
  fst (resolveName fuel rl force baseFn g w) <> Some Reuse.
Proof.
  unfold resolveName. destruct force; [|cbn; discriminate].
  rewrite bind_run.
  destruct (probeLoop fuel rl baseFn g w) as [[[f g']|] w1]; cbn; discriminate.
Qed.

(** X23. With a clock of the user's, an acquisition calls [time.Now()]
    at most once, for the search of the oldest file, and never under a
    policy without a rotation count; on the path of "nothing to do" it
    reads the user's clock exactly once. *)
Theorem user_clock_and_wall_clock fuel rl bail useGen reads :
  clock rl = UserClock reads ->
  readsWallOnce (getWriterNolock fuel rl bail useGen)
  /\ (rotationCount rl = 0%N ->
      keeps wallReads (getWriterNolock fuel rl bail useGen))
  /\ (forall w,
        fst (decide fuel rl useGen w) = Some Reuse ->
        clockReads (snd (getWriterNolock fuel rl bail useGen w))
        = S (clockReads w)).
Proof.
  intros Hc. split; [|split].
  - unfold getWriterNolock.
    apply once_bind_r; [eapply keepsW_decide; eassumption|].
    intros [[|err|baseFn filename g]|]; try apply once_of_keeps, keeps_ret.
    apply once_bind_l; [|intros r; apply keeps_ret].
    eapply openAndAdopt_wall; eassumption.
  - intros H0. unfold getWriterNolock.
    apply keeps_bind; [eapply keepsW_decide; eassumption|].
    intros [[|err|baseFn filename g]|]; try apply keeps_ret.
    apply keeps_bind; [|intros r; apply keeps_ret].
    eapply openAndAdopt_wall; eassumption.
  - intros w Hd. rewrite (Reuse_outcome fuel rl bail useGen w Hd).
    cbn [snd]. revert Hd. rewrite decide_cases. cbv zeta.
    destruct (negb _).
    + destruct (String.eqb _ _).
      * destruct (filepath_Glob _ _); [|cbn; discriminate].
        cbv zeta. intros H. exfalso. eapply resolveName_not_Reuse. exact H.
      * intros H. exfalso. eapply resolveName_not_Reuse. exact H.
    + destruct (_ && _).
      * intros _. rewrite Hc. reflexivity.
      * intros H. exfalso. eapply resolveName_not_Reuse. exact H.
Qed.

(** X24. [Rotate] and [Close] print nothing to the standard error.  A
    [Write] prints nothing or one line, an error under "failed to
    rotate". *)
Theorem only_Write_prints fuel rl :
  keeps stderr (Rotate fuel rl)
  /\ keeps stderr (Close rl)
  /\ forall p w,
       stderr (snd (Write fuel rl p w)) = stderr w
       \/ exists e0,
            stderr (snd (Write fuel rl p w))
            = (stderr w ++ [errors_Wrap e0 "failed to rotate"])%list.
Proof.
  assert (Hg : forall bail useGen w,
             (bail = true ->
              stderr (snd (getWriterNolock fuel rl bail useGen w)) = stderr w)
             /\ (stderr (snd (getWriterNolock fuel rl bail useGen w)) = stderr w
                 \/ exists e0,
                      stderr (snd (getWriterNolock fuel rl bail useGen w))
                      = (stderr w ++ [errors_Wrap e0 "failed to rotate"])%list)).
  { intros bail useGen w. unfold getWriterNolock. rewrite bind_run.
    destruct (decide_spec fuel rl useGen w) as [[Qe _] _].
    destruct (decide fuel rl useGen w) as [[d|] w1]; cbn [fst snd] in *;
      [|cbn; auto].
    destruct d as [|err|baseFn filename g]; [cbn; auto | cbn; auto |].
    rewrite bind_run.
    pose proof (openAndAdopt_cases rl bail (curFn rl) baseFn filename g w1)
      as Hc. cbv zeta in Hc.
    pose proof (rotateNolock_stderr rl filename (created filename w1)) as Hs.
    cbn [stderr created] in Hs.
    destruct (fst (fileutil_CreateFile filename (fs w1))) as [errno|fh].
    { rewrite Hc. cbn. auto. }
    destruct (fst (rotateNolock rl filename (created filename w1)))
      as [err0|].
    - destruct bail; rewrite Hc; cbn [fst snd ret].
      + cbn. rewrite Hs. auto.
      + split; [discriminate|]. right. exists err0.
        destruct (outFh rl); destruct (eventHandler rl); cbn;
          rewrite Hs, Qe; reflexivity.
    - rewrite Hc. cbn [fst snd ret].
      assert (stderr
                (snd
                   ((match eventHandler rl with
                     | Some h => go (GoHandle h (mkEvent (curFn rl) filename))
                     | None => ret tt
                     end)
                      (snd (Close_File (outFh rl)
                              (snd (rotateNolock rl filename
                                      (created filename w1)))))))
              = stderr w).
      { destruct (outFh rl); destruct (eventHandler rl); cbn;
          rewrite Hs, Qe; reflexivity. }
      auto. }
  split; [|split].
  - intros w. unfold Rotate. rewrite bind_run.
    destruct (Hg true true w) as [H _]. specialize (H eq_refl).
    destruct (getWriterNolock fuel rl true true w) as [[[rl' [out|e]]|] w1];
      exact H.
  - intros w. unfold Close. destruct (outFh rl); reflexivity.
  - intros p w. unfold Write. rewrite bind_run.
    destruct (Hg false false w) as [_ H].
    destruct (getWriterNolock fuel rl false false w)
      as [[[rl' [[fh|]|e]]|] w1]; exact H.
Qed.

End Clocks.

(** ** The order of the scan *)

Section ScanOrder.
Context {P : Platform}.

(** X25. On the first acquisition the scan follows the order of the
    glob: when the last name it lists does not carry the marker
    [rotation], the probing starts at generation 0, whatever marked names
    were listed before it. *)
Theorem first_acquisition_last_name_unmarked fuel rl useGen w before q :
  let baseFn := fileutil_GenerateFn (pattern rl) (fst (clock_Now (clock rl) w))
                  (rotationTime rl) in
  curBaseFn rl = "" ->
  baseFn <> "" ->
  filepath_Glob (globPattern rl) (fs w) = Some (before ++ [q])%list ->
  strings.Contains q "rotation" = false ->
  exists w1,
    fs w1 = fs w
    /\ decide fuel rl useGen w = resolveName fuel rl true baseFn 0 w1.
Proof.
  cbv zeta. intros Hcur Hbase Hglob Hq.
  destruct (clock_Now_frame (clock rl) w) as (F1 & _).
  rewrite decide_cases. cbv zeta. rewrite Hcur.
  destruct (String.eqb_spec
              (fileutil_GenerateFn (pattern rl)
                 (fst (clock_Now (clock rl) w)) (rotationTime rl)) "")
    as [E|_]; [contradiction|].
  cbn [negb String.eqb]. rewrite Hglob.
  set (w0 := logged (SysGlob (globPattern rl))
               (logged (SysStat (curFn rl)) (snd (clock_Now (clock rl) w)))).
  rewrite scanLoop_app.
  pose proof (scanLoop_readOnly before (generation rl) 0 w0) as (R1 & _).
  destruct (scanLoop before (generation rl) 0 w0) as [[g1 m1] w1].
  cbn [fst snd] in *. cbn [scanLoop]. rewrite Hq. cbn [negb fst snd ret].
  exists w1. split; [|reflexivity].
  rewrite R1. subst w0. cbn. exact F1.
Qed.

End ScanOrder.

(** ** The further properties at work on the file system in memory *)

Example handlerLogs_New :
  New (P := MemFS.platform) "/log/app.%s" [WithHandler 7%nat]
  = Ok Sample.handlerLogs.
Proof. reflexivity. Qed.

Example linkLogs_New :
  New (P := MemFS.platform) "/log/app.%s" [WithLinkName "/log/current"]
  = Ok Sample.linkLogs.
Proof. reflexivity. Qed.

Example bracketLogs_New :
  New (P := MemFS.platform) "/log/[app.%s" [] = Ok Sample.bracketLogs.
Proof. reflexivity. Qed.

Example doubleLogs_New :
  New (P := MemFS.platform) "/log/app.%s%s" [] = Ok Sample.doubleLogs.
Proof. reflexivity. Qed.

Example clockLogs_New :
  New (P := MemFS.platform) "/log/app.%s"
    [WithClock (UserClock (fun _ => Example.second 7))]
  = Ok Sample.clockLogs.
Proof. reflexivity. Qed.

Example written_state :
  Example.state (fst Sample.written)
  = ("/log/app.0", "/log/app.0", 0, Some 3%nat)
  /\ Example.names (fs (snd Sample.written)) = ["/log/app.0"].
Proof. split; vm_compute; reflexivity. Qed.

Example filled_state :
  Example.state (fst Sample.filled)
  = ("/log/app.0", "/log/app.0", 0, Some 3%nat)
  /\ MemFS.stat "/log/app.0" (fs (snd Sample.filled))
     = inr (mkFileInfo 5 (Example.second 7) 420).
Proof. split; vm_compute; reflexivity. Qed.

Lemma New_globPattern_shape_witness :
  strings.Contains (globPattern Sample.doubleLogs) "**" = false
  /\ (forall c, isConversionChar c = true ->
        strings.Contains (globPattern Sample.doubleLogs)
          (String "%" (String c "")) = false)
  /\ (without "%" "/log/app.%s%s" -> without "*" "/log/app.%s%s" ->
      globPattern Sample.doubleLogs = "/log/app.%s%s")
  /\ globPattern Sample.doubleLogs
     = fold_left (fun g re => re g) patternConversionRegexps "/log/app.%s%s".
Proof.
  apply (New_globPattern_shape (P := MemFS.platform) "/log/app.%s%s" []
           Sample.doubleLogs).
  reflexivity.
Defined.

Lemma New_last_option_wins_witness :
  rotationSize Example.sizeLogs = Z.max 0 1000.
Proof.
  apply (New_last_option_wins (P := MemFS.platform) "/log/app.%s"
           [WithRotationSize 1] (WithRotationSize 1000) [WithLinkName ""]
           Example.sizeLogs).
  - reflexivity.
  - reflexivity.
Defined.

Lemma New_defaults_witness :
  let absent o :=
    forallb (fun o' => negb (sameKey o o')) [WithRotationSize 1000] = true in
  (absent (WithClock Local) -> clock Example.sizeLogs = Local)
  /\ (absent (WithLinkName "") -> linkName Example.sizeLogs = "")
  /\ (absent (WithRotationTime 0) ->
      rotationTime Example.sizeLogs = 24 * time.Hour)
  /\ (absent (WithRotationSize 0) -> rotationSize Example.sizeLogs = 0)
  /\ (absent (WithRotationCount 0) -> rotationCount Example.sizeLogs = 0%N)
  /\ (absent (WithMaxAge 0) ->
      maxAge Example.sizeLogs
      = if (rotationCount Example.sizeLogs =? 0)%N
        then 7 * 24 * time.Hour else 0)
  /\ (absent (WithHandler 0%nat) -> eventHandler Example.sizeLogs = None)
  /\ (absent ForceNewFile -> forceNewFile Example.sizeLogs = false).
Proof.
  apply (New_defaults (P := MemFS.platform) "/log/app.%s"
           [WithRotationSize 1000] Example.sizeLogs).
  reflexivity.
Defined.

Lemma Write_after_Close_witness :
  let rl := fst Sample.written in
  let w := snd Sample.written in
  let rl1 := fst (fst (Close rl w)) in
  let w1 := snd (Close rl w) in
  fst (Write 10 rl1 "y" w1) = Some (rl1, (0, Some ErrInvalid))
  /\ outFh rl1 = None
  /\ fs (snd (Write 10 rl1 "y" w1)) = fs w1
  /\ trace (snd (Write 10 rl1 "y" w1))
     = (trace w1 ++ [SysStat (curFn rl)])%list.
Proof.
  apply (Write_after_Close (P := MemFS.platform) 10 (fst Sample.written) "y"
           (snd Sample.written)).
  - vm_compute. reflexivity.
  - intros fi _. left. vm_compute. discriminate.
Defined.

Lemma acquisition_error_changes_nothing_witness :
  let r := getWriterNolock 10 Example.bigLogs false false
             Example.directoryWorld in
  exists rl' e,
    fst r = Some (rl', Err e)
    /\ rl' = Example.bigLogs
    /\ goroutines (snd r) = goroutines Example.directoryWorld
    /\ stderr (snd r) = stderr Example.directoryWorld
    /\ (e = errors_Wrap ErrBadPattern
              ("failed to glob directory " ++ globPattern Example.bigLogs)
        \/ (exists name errno,
               e = errors_Wrap (PathError "open" name errno)
                     ("failed to create a new file " ++ name))
        \/ (false = true /\ exists e0, e = errors_Wrap e0 "failed to rotate")).
Proof.
  cbv zeta.
  assert (H : match fst (getWriterNolock 10 Example.bigLogs false false
                           Example.directoryWorld) with
              | Some (_, Err _) => true
              | _ => false
              end = true) by (vm_compute; reflexivity).
  destruct (fst (getWriterNolock 10 Example.bigLogs false false
                   Example.directoryWorld)) as [[rl' [out|e]]|] eqn:E;
    try discriminate H.
  exists rl', e. split; [reflexivity|].
  exact (acquisition_error_changes_nothing (P := MemFS.platform) 10
           Example.bigLogs false false Example.directoryWorld rl' e E).
Defined.

Lemma rotation_adopts_and_notifies_witness :
  let r := getWriterNolock 10 Sample.handlerLogs false false
             Example.emptyWorld in
  exists rl' out fh,
    fst r = Some (rl', Ok out)
    /\ fst (fileutil_CreateFile "/log/app.0"
              (fs (snd (decide 10 Sample.handlerLogs false
                          Example.emptyWorld))))
       = inr fh
    /\ out = Some fh
    /\ rl' = adopted Sample.handlerLogs fh "/log/app.0" "/log/app.0" 0
    /\ (exists removals,
          goroutines (snd r)
          = (goroutines Example.emptyWorld ++ removals
               ++ match eventHandler Sample.handlerLogs with
                  | Some h =>
                      [GoHandle h
                         (mkEvent (curFn Sample.handlerLogs) "/log/app.0")]
                  | None => []
                  end)%list
          /\ (removals = [] \/ exists f, removals = [GoRemove f]))
    /\ (exists calls,
          trace (snd r)
          = (trace Example.emptyWorld ++ calls
               ++ match outFh Sample.handlerLogs with
                  | Some old => [SysClose old]
                  | None => []
                  end)%list).
Proof.
  cbv zeta.
  assert (H : match fst (getWriterNolock 10 Sample.handlerLogs false false
                           Example.emptyWorld) with
              | Some (_, Ok _) => true
              | _ => false
              end = true) by (vm_compute; reflexivity).
  destruct (fst (getWriterNolock 10 Sample.handlerLogs false false
                   Example.emptyWorld)) as [[rl' [out|e]]|] eqn:E;
    try discriminate H.
  destruct (rotation_adopts_and_notifies (P := MemFS.platform) 10
              Sample.handlerLogs false false Example.emptyWorld
              "/log/app.0" "/log/app.0" 0 rl' out)
    as (fh & H1 & H2 & H3 & H4 & H5).
  - vm_compute. reflexivity.
  - exact E.
  - exists rl', out, fh. split; [reflexivity|]. split; [exact H1|].
    split; [exact H2|]. split; [exact H3|]. split; [exact H4 | exact H5].
Defined.

Lemma rotate_failure_policy_witness :
  let rl := Sample.linkLogs in
  let w := Sample.staleLinkWorld in
  let err := errors_Wrap
               (errors_Wrap (PathError "symlink" "/log/app.0_symlink" EEXIST)
                  "failed to create new symlink")
               "failed to rotate" in
  (let r := getWriterNolock 10 rl true false w in
   fst r = Some (rl, Err err)
   /\ stderr (snd r) = stderr w
   /\ exists calls,
        trace (snd r) = (trace w ++ calls ++ [SysClose 3%nat])%list)
  /\ (let r := getWriterNolock 10 rl false false w in
      fst r = Some (adopted rl 3%nat "/log/app.0" "/log/app.0" 0,
                    Ok (Some 3%nat))
      /\ stderr (snd r) = (stderr w ++ [err])%list).
Proof.
  apply (rotate_failure_policy (P := MemFS.platform) 10 Sample.linkLogs false
           Sample.staleLinkWorld "/log/app.0" "/log/app.0" 0 3%nat
           (errors_Wrap (PathError "symlink" "/log/app.0_symlink" EEXIST)
              "failed to create new symlink")).
  - vm_compute. reflexivity.
  - vm_compute. reflexivity.
  - vm_compute. reflexivity.
Defined.

Lemma lock_marker_is_released_witness :
  exists calls s,
    trace (snd (rotateNolock Example.plainLogs "/log/app.0"
                  Example.emptyWorld))
    = (trace Example.emptyWorld
         ++ SysOpenExcl ("/log/app.0" ++ "_lock") :: calls
         ++ [SysClose 3%nat; SysRemove ("/log/app.0" ++ "_lock")])%list
    /\ Forall (housekeeping Example.plainLogs) calls
    /\ fs (snd (rotateNolock Example.plainLogs "/log/app.0"
                  Example.emptyWorld))
       = snd (os_Remove ("/log/app.0" ++ "_lock")
                (snd (file_Close 3%nat s))).
Proof.
  apply (lock_marker_is_released (P := MemFS.platform) Example.plainLogs
           "/log/app.0" Example.emptyWorld 3%nat).
  vm_compute. reflexivity.
Defined.

Lemma symlink_step_outcome_witness :
  let rl := Sample.linkLogs in
  let filename := "/log/app.0" in
  let tmp := filename ++ "_symlink" in
  let linkDir := @filepath_Dir MemFS.platform (linkName rl) in
  let w1 := lockTried (filename ++ "_lock") Example.emptyWorld in
  let s := installSymlink rl filename w1 in
  let r := rotateNolock rl filename Example.emptyWorld in
  fst s = None
  /\ trace (snd s)
     = (trace w1 ++ [SysSymlink "app.0" tmp; SysStat "/log";
                     SysMkdirAll "/log"; SysRename tmp "/log/current"])%list
  /\ match fst s with
     | Some e =>
         fst r = Some e
         /\ wrapped e
         /\ goroutines (snd r) = goroutines Example.emptyWorld
         /\ trace (snd r)
            = (trace (snd s)
                 ++ [SysClose 3%nat; SysRemove (filename ++ "_lock")])%list
         /\ ((exists msg,
                linkDestOf rl filename = inl msg
                /\ e = errors_Wrap (LibError "filepath" msg)
                         "failed to evaluate relative path")
             \/ (exists linkDest errno,
                   linkDestOf rl filename = inr linkDest
                   /\ fst (os_Symlink linkDest tmp (fs w1)) = Some errno
                   /\ e = errors_Wrap (PathError "symlink" tmp errno)
                            "failed to create new symlink")
             \/ (exists linkDest errno0 errno,
                   linkDestOf rl filename = inr linkDest
                   /\ os_Stat linkDir (snd (os_Symlink linkDest tmp (fs w1)))
                      = inl errno0
                   /\ e = errors_Wrap (PathError "mkdir" linkDir errno)
                            ("failed to create directory " ++ linkDir))
             \/ (exists errno,
                   e = errors_Wrap (PathError "rename" (linkName rl) errno)
                         "failed to rename new symlink"))
     | None =>
         fst r = fst (purge rl (snd s))
         /\ exists linkDest,
              linkDestOf rl filename = inr linkDest
              /\ fst (os_Symlink linkDest tmp (fs w1)) = None
              /\ trace (snd s)
                 = (trace w1 ++ [SysSymlink linkDest tmp; SysStat linkDir]
                      ++ match os_Stat linkDir
                                 (snd (os_Symlink linkDest tmp (fs w1))) with
                         | inr _ => []
                         | inl _ => [SysMkdirAll linkDir]
                         end
                      ++ [SysRename tmp (linkName rl)])%list
     end.
Proof.
  cbv zeta. split; [vm_compute; reflexivity|].
  split; [vm_compute; reflexivity|].
  apply (symlink_step_outcome (P := MemFS.platform) Sample.linkLogs
           "/log/app.0" Example.emptyWorld 3%nat).
  - vm_compute. reflexivity.
  - discriminate.
Defined.

Lemma count_mode_removes_the_oldest_witness :
  let rl := Example.countLogs in
  let w := Sample.twoFilesWorld in
  let matches := ["/log/app.0"; "/log/app.0.rotation.1"] in
  let cutoff :=
    time.Add (fst (clock_Now (clock rl) w)) (wrap64 (-1 * maxAge rl)) in
  let cands := filter (candidate rl cutoff (fs w)) matches in
  cands = matches
  /\ exists f fi,
       fst (purge rl w) = None
       /\ goroutines (snd (purge rl w)) = (goroutines w ++ [GoRemove f])%list
       /\ In f matches
       /\ os_Stat f (fs w) = inr fi
       /\ (forall path fp, In path cands -> os_Stat path (fs w) = inr fp ->
             time.Unix (ModTime fi) <= time.Unix (ModTime fp))
       /\ strings.HasSuffix f "_lock" = false
       /\ strings.HasSuffix f "_symlink" = false
       /\ (forall fl, os_Lstat f (fs w) = inr fl ->
             Z.land (Mode fl) ModeSymlink <> ModeSymlink).
Proof.
  cbv zeta. split; [vm_compute; reflexivity|].
  destruct (count_mode_removes_the_oldest (P := MemFS.platform)
              Example.countLogs Sample.twoFilesWorld
              ["/log/app.0"; "/log/app.0.rotation.1"]) as [_ H].
  - reflexivity.
  - vm_compute. reflexivity.
  - apply H.
    + vm_compute. reflexivity.
    + exists "/log/app.0", (mkFileInfo 10 (Example.second 5) 420).
      split; [vm_compute; auto|].
      split; [vm_compute; reflexivity | vm_compute; reflexivity].
Defined.

Lemma new_bucket_restarts_generations_witness :
  let rl := fst Sample.written in
  let w := Sample.nextDayWorld in
  let baseFn := fileutil_GenerateFn (pattern rl) (fst (clock_Now (clock rl) w))
                  (rotationTime rl) in
  let w0 := logged (SysStat (curFn rl)) (snd (clock_Now (clock rl) w)) in
  baseFn = "/log/app.86400"
  /\ decide 10 rl false w = resolveName 10 rl true baseFn 0 w0
  /\ fs w0 = fs w
  /\ trace w0 = (trace w ++ [SysStat (curFn rl)])%list
  /\ ((0 < 10)%nat ->
      (forall fi, os_Stat baseFn (fs w) = inr fi -> Size fi < rotationSize rl) ->
      fst (decide 10 rl false w) = Some (Target baseFn baseFn 0)).
Proof.
  cbv zeta. split; [vm_compute; reflexivity|].
  apply (new_bucket_restarts_generations (P := MemFS.platform) 10
           (fst Sample.written) false Sample.nextDayWorld).
  - vm_compute. discriminate.
  - vm_compute. discriminate.
Defined.

Lemma full_file_write_rotates_witness :
  let rl := fst Sample.filled in
  let w := snd Sample.filled in
  getWriterNolock 10 rl false false w = getWriterNolock 10 rl false true w
  /\ (exists w0,
        fs w0 = fs w
        /\ decide 10 rl false w
           = resolveName 10 rl true (curBaseFn rl)
               (wrap64 (generation rl + 1)) w0)
  /\ decide 10 rl false w = decide 10 rl true w
  /\ (forall rl' out,
        fst (getWriterNolock 10 rl true true w) = Some (rl', Ok out) ->
        getWriterNolock 10 rl false false w
        = getWriterNolock 10 rl true true w).
Proof.
  apply (full_file_write_rotates (P := MemFS.platform) 10 (fst Sample.filled)
           false (snd Sample.filled) (mkFileInfo 5 (Example.second 7) 420)).
  - vm_compute. reflexivity.
  - vm_compute. reflexivity.
  - split; [vm_compute; reflexivity | vm_compute; discriminate].
Defined.

Lemma first_acquisition_without_marked_files_witness :
  let rl := Example.ageLogs in
  let w := Example.ageWorld in
  let baseFn := fileutil_GenerateFn (pattern rl) (fst (clock_Now (clock rl) w))
                  (rotationTime rl) in
  exists w1,
    fs w1 = fs w
    /\ trace w1
       = (trace w ++ [SysStat (curFn rl); SysGlob (globPattern rl)])%list
    /\ decide 10 rl false w = resolveName 10 rl true baseFn 0 w1.
Proof.
  apply (first_acquisition_without_marked_files (P := MemFS.platform) 10
           Example.ageLogs false Example.ageWorld ["/log/app.0"]).
  - reflexivity.
  - vm_compute. discriminate.
  - vm_compute. reflexivity.
  - intros q [<-|[]]. vm_compute. reflexivity.
Defined.

Lemma bad_glob_pattern_fails_first_write_witness :
  let rl := Sample.bracketLogs in
  let w := Example.emptyWorld in
  let err := errors_Wrap ErrBadPattern
               ("failed to glob directory " ++ globPattern rl) in
  fst (Write 10 rl "x" w)
  = Some (rl, (0, Some (errors_Wrap err "failed to acquite target io.Writer")))
  /\ fst (Rotate 10 rl w) = Some (rl, Some err)
  /\ fs (snd (Write 10 rl "x" w)) = fs w
  /\ trace (snd (Write 10 rl "x" w))
     = (trace w ++ [SysStat (curFn rl); SysGlob (globPattern rl)])%list.
Proof.
  apply (bad_glob_pattern_fails_first_write (P := MemFS.platform) 10
           Sample.bracketLogs "x" Example.emptyWorld).
  - reflexivity.
  - vm_compute. discriminate.
  - vm_compute. reflexivity.
Defined.

Lemma probe_result_is_first_free_witness :
  let rl := Example.countLogs in
  let w := Example.countWorld in
  let name := "/log/app.0.rotation.1" in
  name = generationName "/log/app.0" 1
  /\ (forall fi, os_Stat name (fs w) = inr fi -> Size fi < rotationSize rl)
  /\ (rotationSize rl <= 0 ->
      (forall fi, os_Stat name (fs w) = inr fi -> 0 <= Size fi) ->
      exists errno, os_Stat name (fs w) = inl errno)
  /\ (minInt64 <= 0 -> 0 + Z.of_nat 10 <= maxInt64 ->
      exists k, (k < 10)%nat /\ 1 = 0 + Z.of_nat k
        /\ forall i, (i < k)%nat ->
             exists fi,
               os_Stat (generationName "/log/app.0" (0 + Z.of_nat i)) (fs w)
               = inr fi
               /\ rotationSize rl <= Size fi).
Proof.
  apply (probe_result_is_first_free (P := MemFS.platform) 10
           Example.countLogs "/log/app.0" 0 Example.countWorld
           "/log/app.0.rotation.1" 1).
  vm_compute. reflexivity.
Defined.

Lemma current_file_name_is_generation_name_witness :
  exists rl',
    option_map fst
      (fst (call 10 (CallWrite "hello") Example.countLogs
              Example.countWorld)) = Some rl'
    /\ CurrentFileName rl'
       = generationName (curBaseFn rl') (generation rl')
    /\ int64_range (generation rl')
    /\ (curBaseFn rl' = "" -> generation rl' = 0 -> CurrentFileName rl' = "").
Proof.
  assert (H : match fst (call 10 (CallWrite "hello") Example.countLogs
                           Example.countWorld) with
              | Some _ => true
              | None => false
              end = true) by (vm_compute; reflexivity).
  destruct (call 10 (CallWrite "hello") Example.countLogs
              Example.countWorld) as [[[rl' e]|] w'] eqn:E;
    cbn [fst] in H; [|discriminate H].
  exists rl'. split; [reflexivity|].
  apply (current_file_name_is_generation_name (P := MemFS.platform)
           "/log/app.%s" [WithRotationCount 1; WithRotationSize 5]).
  apply (reach_call "/log/app.%s" [WithRotationCount 1; WithRotationSize 5]
           Example.countLogs 10%nat (CallWrite "hello") Example.countWorld
           rl' e w'); [|exact E].
  apply reach_New. reflexivity.
Defined.

Lemma rotate_takes_a_new_name_witness :
  let rl := fst Sample.written in
  let w := snd Sample.written in
  exists rl',
    fst (Rotate 10 rl w) = Some (rl', None)
    /\ curBaseFn rl' = curBaseFn rl
    /\ generation rl < generation rl'
    /\ CurrentFileName rl' = generationName (curBaseFn rl) (generation rl')
    /\ CurrentFileName rl' <> CurrentFileName rl
    /\ exists fh, outFh rl' = Some fh.
Proof.
  cbv zeta.
  assert (H : match fst (Rotate 10 (fst Sample.written)
                           (snd Sample.written)) with
              | Some (_, None) => true
              | _ => false
              end = true) by (vm_compute; reflexivity).
  destruct (fst (Rotate 10 (fst Sample.written) (snd Sample.written)))
    as [[rl' [e|]]|] eqn:E; try discriminate H.
  exists rl'. split; [reflexivity|].
  apply (rotate_takes_a_new_name (P := MemFS.platform) 10
           (fst Sample.written) (snd Sample.written) rl').
  - vm_compute. reflexivity.
  - vm_compute. discriminate.
  - vm_compute. discriminate.
  - vm_compute. reflexivity.
  - exact E.
Defined.

Lemma user_clock_and_wall_clock_witness :
  readsWallOnce (getWriterNolock 10 Sample.clockLogs false false)
  /\ (rotationCount Sample.clockLogs = 0%N ->
      keeps wallReads (getWriterNolock 10 Sample.clockLogs false false))
  /\ (forall w,
        fst (decide 10 Sample.clockLogs false w) = Some Reuse ->
        clockReads (snd (getWriterNolock 10 Sample.clockLogs false false w))
        = S (clockReads w)).
Proof.
  apply (user_clock_and_wall_clock (P := MemFS.platform) 10 Sample.clockLogs
           false false (fun _ => Example.second 7)).
  reflexivity.
Defined.

Lemma first_acquisition_last_name_unmarked_witness :
  let rl := Example.plainLogs in
  let w := Sample.unmarkedLastWorld in
  let baseFn := fileutil_GenerateFn (pattern rl) (fst (clock_Now (clock rl) w))
                  (rotationTime rl) in
  fst (decide 10 rl false w) = Some (Target "/log/app.0" "/log/app.0" 0)
  /\ exists w1,
       fs w1 = fs w
       /\ decide 10 rl false w = resolveName 10 rl true baseFn 0 w1.
Proof.
  cbv zeta. split; [vm_compute; reflexivity|].
  apply (first_acquisition_last_name_unmarked (P := MemFS.platform) 10
           Example.plainLogs false Sample.unmarkedLastWorld
           ["/log/app.0.rotation.3"] "/log/app.5").
  - reflexivity.
  - vm_compute. discriminate.
  - vm_compute. reflexivity.
  - vm_compute. reflexivity.
Defined.
